(** * osm_time_lapse: the changeset fetchers, embedded and verified

    The repository holds two independent batch scripts.

    - [fetch_changesets.py] (module [Rest] below) pages through the
      OpenStreetMap changeset-listing endpoint per user, parses every
      changeset element, derives a centroid from its bounding box, tags it
      with a city and groups the records by ISO week.
    - [fetch_osm_duckdb.py] (module [Duck] below) reads the rows of one
      analytical query, derives the same centroid, tags it with a city from
      its own table and groups the records by month.

    Numbers.  Identifiers and counters are Python integers, modelled as [Z].
    Coordinates are Python floats.  Where a property rests on the order of
    the coordinates and on which operations the code applies to them (the
    classification, the aggregation, the files), they are taken as exact
    rationals [Q]; the floats of the bulk fetcher can also be [NaN], which
    is what pandas holds for a null.  Where a property is about the
    arithmetic itself, the centroid is computed in IEEE 754 binary64
    (module [F64]), with rounding, infinities and [NaN].

    Strings are [string], compared byte by byte, which on UTF-8 is the
    order of the code points; a Python value that may be [None] is an
    [option].

    Effects.  The network is a finite script of responses, consumed one per
    request; a run yields the requests it sent, the files it handed to
    [json.dump] and an [outcome].  Exceptions that nothing catches end the
    run with [Raise].  Printing, sleeping and failures of the file system
    are left out. *)

From Stdlib Require Import ZArith QArith Lqa String Ascii List Bool Lia.
From Stdlib Require Import Sorted Permutation.
From Stdlib Require Import SpecFloat.
Import ListNotations.

Set Warnings "-register-all".

Local Open Scope string_scope.
Local Open Scope Z_scope.

(* ================================================================== *)
(** * Part I: definitions                                              *)
(* ================================================================== *)

(** ** Outcome of a run of Python code

    [Return v]: the code returned [v].  [Raise]: an exception left the code
    uncaught.  [Blocked]: the code is waiting for a response the finite
    response script does not hold. *)

Inductive outcome (A : Type) : Type :=
| Return (v : A)
| Raise
| Blocked.

Arguments Return {A} v.
Arguments Raise {A}.
Arguments Blocked {A}.

Definition bind {A B : Type} (m : outcome A) (k : A -> outcome B) : outcome B :=
  match m with
  | Return v => k v
  | Raise => Raise
  | Blocked => Blocked
  end.

Definition of_option {A : Type} (o : option A) : outcome A :=
  match o with
  | Some v => Return v
  | None => Raise
  end.

Declare Scope outcome_scope.
Delimit Scope outcome_scope with outcome.
Notation "x <- m ;; k" := (bind m (fun x => k))
  (at level 61, m at next level, right associativity) : outcome_scope.
Local Open Scope outcome_scope.

(** ** Geometry shared by both scripts *)

Module Geo.

(** A row of a [CITIES] table: [(min_lon, min_lat, max_lon, max_lat)]. *)
Definition city_box : Type := (Q * Q * Q * Q)%type.

Definition city_table : Type := list (string * city_box).

(** The chained comparison
    [min_lon <= lon <= max_lon and min_lat <= lat <= max_lat]. *)
Definition in_box (box : city_box) (lon lat : Q) : bool :=
  let '(min_lon, min_lat, max_lon, max_lat) := box in
  Qle_bool min_lon lon && Qle_bool lon max_lon
  && (Qle_bool min_lat lat && Qle_bool lat max_lat).

(** The same containment, as a proposition. *)
Definition In_box (box : city_box) (lon lat : Q) : Prop :=
  let '(min_lon, min_lat, max_lon, max_lat) := box in
  (min_lon <= lon /\ lon <= max_lon /\ min_lat <= lat /\ lat <= max_lat)%Q.

(** [(lo + hi) / 2] *)
Definition midpoint (lo hi : Q) : Q := ((lo + hi) / 2)%Q.

End Geo.

(** ** The centroid in binary64

    A Python float is an IEEE 754 binary64 number.  Its operations are
    taken from the specification of floating-point arithmetic of the
    Standard Library ([SpecFloat]) at precision 53 and maximal exponent
    1024: a result is rounded to the nearest float, ties to even, and
    overflows to an infinity. *)

Module F64.

Definition prec : Z := 53.
Definition emax : Z := 1024.

Definition float : Type := spec_float.

(** [a + b], [a / b] and [a <= b] on floats. *)
Definition add : float -> float -> float := SFadd prec emax.
Definition div : float -> float -> float := SFdiv prec emax.
Definition leb : float -> float -> bool := SFleb.

(** The [2] of [/ 2]: an [int], which the division turns into [2.0]. *)
Definition two : float := S754_finite false 4503599627370496 (-51).

(** [(lo + hi) / 2] *)
Definition midpoint (lo hi : float) : float := div (add lo hi) two.

(** [changeset['bbox']] and [changeset['center']] *)
Record BBox : Type := mkBBox
  { min_lon : float; min_lat : float; max_lon : float; max_lat : float }.

Record Point : Type := mkPoint { lon : float; lat : float }.

(** Lines 83-86 of fetch_changesets.py; lines 98-99 of fetch_osm_duckdb.py
    compute the same two expressions. *)
Definition bbox_center (b : BBox) : Point :=
  {| lon := midpoint (min_lon b) (max_lon b);
     lat := midpoint (min_lat b) (max_lat b) |}.

(** [min_lon <= lon <= max_lon and min_lat <= lat <= max_lat] *)
Definition within (b : BBox) (c : Point) : bool :=
  leb (min_lon b) (lon c) && leb (lon c) (max_lon b)
  && (leb (min_lat b) (lat c) && leb (lat c) (max_lat b)).

(** A float the hardware can hold: its mantissa and exponent are in the
    normal form of binary64. *)
Definition valid (x : float) : bool := valid_binary prec emax x.

Definition well_formed (b : BBox) : bool :=
  valid (min_lon b) && valid (min_lat b)
  && (valid (max_lon b) && valid (max_lat b)).

(** Neither an infinity nor [NaN]. *)
Definition is_finite (x : float) : bool :=
  match x with
  | S754_zero _ | S754_finite _ _ _ => true
  | _ => false
  end.

(** *** Notions for the proofs *)

(** The value of a finite float, in units of [2 ^ -1075], half of the
    least positive float, so that the half of a float is an integer too. *)
Definition units (x : float) : Z :=
  match x with
  | S754_finite s m e => cond_Zopp s (Zpos m * 2 ^ (e + 1075))
  | _ => 0
  end.

Definition fin_valid (x : float) : Prop :=
  valid x = true /\ is_finite x = true.

(** The record [mrs] holds the value [V] cut at bit [n]: its mantissa is
    [V] without its [n] low bits, the round bit tells whether these reach
    half of [2 ^ n], the sticky bit whether they are neither nothing nor
    exactly that half. *)
Definition located (n V : Z) (mrs : shr_record) : Prop :=
  shr_m mrs = V / 2 ^ n
  /\ shr_r mrs = (2 ^ (n - 1) <=? V mod 2 ^ n)
  /\ shr_s mrs = negb ((V mod 2 ^ n =? 0) || (V mod 2 ^ n =? 2 ^ (n - 1))).

(** [R] is one of the two multiples of [2 ^ g] around [V], and [V] itself
    when that is one; [g] is the exponent of the last bit a float of the
    size of [V] has. *)
Definition rounds_to (V g R : Z) : Prop :=
  1 <= g
  /\ V < 2 ^ (g + 53)
  /\ (g = 1 \/ 2 ^ (g + 52) <= V)
  /\ (R = V / 2 ^ g * 2 ^ g \/ R = (V / 2 ^ g + 1) * 2 ^ g)
  /\ (V mod 2 ^ g = 0 -> R = V).

(** The float [f] has the sign [s] and the size [R], an infinity standing
    for a size out of range. *)
Definition result (s : bool) (R : Z) (f : float) : Prop :=
  (R = 0 /\ f = S754_zero s)
  \/ (exists m e,
         f = S754_finite s m e
         /\ bounded prec emax m e = true
         /\ R = Zpos m * 2 ^ (e + 1075))
  \/ (2 ^ 2099 <= R /\ f = S754_infinity s).

(** The sizes of the floats, in units of [2 ^ -1075], without the bound
    on the exponent. *)
Definition representable (T : Z) : Prop :=
  exists m j, T = m * 2 ^ j /\ 1 <= j /\ 0 <= m < 2 ^ 53.

End F64.

(** ** Insertion-ordered dicts

    A Python dict whose iteration order matters is an association list in
    insertion order.  [d[k] = v] keeps the place of a key that is already
    there and puts a new key last. *)

Module Dict.

Section Ops.
Context {K V : Type}.
Variable eqb : K -> K -> bool.

Fixpoint get (d : list (K * V)) (k : K) : option V :=
  match d with
  | [] => None
  | (k', v) :: rest => if eqb k' k then Some v else get rest k
  end.

Fixpoint set (d : list (K * V)) (k : K) (v : V) : list (K * V) :=
  match d with
  | [] => [(k, v)]
  | (k', v') :: rest =>
      if eqb k' k then (k', v) :: rest else (k', v') :: set rest k v
  end.

(** [dict(pairs)]: the pairs are inserted from left to right. *)
Definition of_pairs (pairs : list (K * V)) : list (K * V) :=
  fold_left (fun d kv => set d (fst kv) (snd kv)) pairs [].
End Ops.

(** Equality of keys that may be [None]. *)
Definition okey_eqb (a b : option string) : bool :=
  match a, b with
  | Some x, Some y => String.eqb x y
  | None, None => true
  | _, _ => false
  end.

End Dict.

(** ** The calendar of the [datetime] module

    The proleptic Gregorian calendar as the [datetime] module computes it:
    day 1 is 0001-01-01, [//] and [%] are floor division and its
    remainder, which are [Z.div] and [Z.modulo]. *)

Module Calendar.

Definition MAXYEAR : Z := 9999.
Definition MAXORDINAL : Z := 3652059.

Definition DAYS_IN_MONTH (month : Z) : Z :=
  match month with
  | 1 => 31 | 2 => 28 | 3 => 31 | 4 => 30 | 5 => 31 | 6 => 30
  | 7 => 31 | 8 => 31 | 9 => 30 | 10 => 31 | 11 => 30 | 12 => 31
  | _ => -1
  end.

Definition DAYS_BEFORE_MONTH (month : Z) : Z :=
  match month with
  | 1 => 0 | 2 => 31 | 3 => 59 | 4 => 90 | 5 => 120 | 6 => 151
  | 7 => 181 | 8 => 212 | 9 => 243 | 10 => 273 | 11 => 304 | 12 => 334
  | _ => -1
  end.

Definition is_leap (year : Z) : bool :=
  (year mod 4 =? 0) && (negb (year mod 100 =? 0) || (year mod 400 =? 0)).

Definition days_before_year (year : Z) : Z :=
  let y := year - 1 in
  y * 365 + y / 4 - y / 100 + y / 400.

Definition days_in_month (year month : Z) : Z :=
  if (month =? 2) && is_leap year then 29 else DAYS_IN_MONTH month.

Definition days_before_month (year month : Z) : Z :=
  DAYS_BEFORE_MONTH month + (if (2 <? month) && is_leap year then 1 else 0).

(** What the constructors of [date] and [datetime] accept. *)
Definition valid_date (year month day : Z) : bool :=
  (1 <=? year) && (year <=? MAXYEAR) && (1 <=? month) && (month <=? 12)
  && (1 <=? day) && (day <=? days_in_month year month).

(** [date.toordinal] *)
Definition ymd2ord (year month day : Z) : Z :=
  days_before_year year + days_before_month year month + day.

Definition DI400Y : Z := 146097.
Definition DI100Y : Z := 36524.
Definition DI4Y : Z := 1461.

(** [date.fromordinal] *)
Definition ord2ymd (ordinal : Z) : Z * Z * Z :=
  let n := ordinal - 1 in
  let n400 := n / DI400Y in
  let n := n mod DI400Y in
  let year := n400 * 400 + 1 in
  let n100 := n / DI100Y in
  let n := n mod DI100Y in
  let n4 := n / DI4Y in
  let n := n mod DI4Y in
  let n1 := n / 365 in
  let n := n mod 365 in
  let year := year + n100 * 100 + n4 * 4 + n1 in
  if (n1 =? 4) || (n100 =? 4) then (year - 1, 12, 31)
  else
    let leapyear := (n1 =? 3) && (negb (n4 =? 24) || (n100 =? 3)) in
    let month := Z.shiftr (n + 50) 5 in
    let preceding :=
      DAYS_BEFORE_MONTH month + (if (2 <? month) && leapyear then 1 else 0) in
    if n <? preceding then
      let month := month - 1 in
      let preceding :=
        preceding
        - (DAYS_IN_MONTH month + (if (month =? 2) && leapyear then 1 else 0)) in
      (year, month, n - preceding + 1)
    else (year, month, n - preceding + 1).

(** [weekday()]: Monday is 0 and Sunday is 6. *)
Definition weekday (year month day : Z) : Z :=
  (ymd2ord year month day + 6) mod 7.

(** [d - timedelta(days=k)] on the date fields; [None] is the
    [OverflowError] of a result outside year 1 to 9999. *)
Definition sub_days (year month day k : Z) : option (Z * Z * Z) :=
  let o := ymd2ord year month day - k in
  if (1 <=? o) && (o <=? MAXORDINAL) then Some (ord2ymd o) else None.

(** Decimal digits and zero-padded fields. *)
Definition digit (n : Z) : ascii := ascii_of_nat (48 + Z.to_nat (n mod 10)).

Definition pad2 (n : Z) : string :=
  String (digit (n / 10)) (String (digit n) "").

Definition pad4 (n : Z) : string :=
  String (digit (n / 1000)) (String (digit (n / 100)) (pad2 n)).

Definition pad6 (n : Z) : string :=
  String (digit (n / 100000)) (String (digit (n / 10000)) (pad4 n)).

(** ['%Y-%m-%d'], also the date part of [isoformat()].  The year is
    written with four digits; for a year below 1000 [strftime] leaves the
    padding of [%Y] to the C library. *)
Definition format_date (year month day : Z) : string :=
  pad4 year ++ "-" ++ pad2 month ++ "-" ++ pad2 day.

(** A timestamp cell of the query result. *)
Record timestamp : Type := mkTimestamp
  { year : Z; month : Z; day : Z;
    hour : Z; minute : Z; second : Z; microsecond : Z }.

Definition valid_timestamp (t : timestamp) : bool :=
  valid_date (year t) (month t) (day t)
  && (0 <=? hour t) && (hour t <? 24)
  && (0 <=? minute t) && (minute t <? 60)
  && (0 <=? second t) && (second t <? 60)
  && (0 <=? microsecond t) && (microsecond t <? 1000000).

(** [isoformat()]: ['YYYY-MM-DDTHH:MM:SS'], followed by ['.ffffff'] when
    the microsecond is not zero. *)
Definition isoformat (t : timestamp) : string :=
  format_date (year t) (month t) (day t)
  ++ "T" ++ pad2 (hour t) ++ ":" ++ pad2 (minute t) ++ ":" ++ pad2 (second t)
  ++ (if microsecond t =? 0 then "" else "." ++ pad6 (microsecond t)).

End Calendar.

(** ** Python values and the [json] module

    The data handed to [json.dump] is built from [None], booleans,
    integers, floats, strings, lists, tuples and dicts whose keys are
    strings or [None].

    [json.dump] and [json.load] are taken at the level of the JSON document:
    [dump] is the encoder's conversion table (a list and a tuple both become
    an array, a [None] key becomes the key ["null"], the float [NaN] becomes
    the token [NaN], which the default [allow_nan] lets through), [load] is
    the decoder's (an array becomes a list, an object becomes a dict filled
    from left to right, the token [NaN] becomes the float).  The text
    between the two is the library's own and is not modelled. *)

Module Py.

Inductive value : Type :=
| VNone
| VBool (b : bool)
| VInt (z : Z)
| VFloat (q : Q)
| VNaN
| VStr (s : string)
| VList (items : list value)
| VTuple (items : list value)
| VDict (entries : list (option string * value)).

Inductive json : Type :=
| JNull
| JBool (b : bool)
| JInt (z : Z)
| JReal (q : Q)
| JNaN
| JString (s : string)
| JArray (items : list json)
| JObject (members : list (string * json)).

Definition key_text (k : option string) : string :=
  match k with
  | Some s => s
  | None => "null"
  end.

Fixpoint dump (v : value) : json :=
  match v with
  | VNone => JNull
  | VBool b => JBool b
  | VInt z => JInt z
  | VFloat q => JReal q
  | VNaN => JNaN
  | VStr s => JString s
  | VList items => JArray (map dump items)
  | VTuple items => JArray (map dump items)
  | VDict entries =>
      JObject (map (fun kv => (key_text (fst kv), dump (snd kv))) entries)
  end.

Fixpoint load (j : json) : value :=
  match j with
  | JNull => VNone
  | JBool b => VBool b
  | JInt z => VInt z
  | JReal q => VFloat q
  | JNaN => VNaN
  | JString s => VStr s
  | JArray items => VList (map load items)
  | JObject members =>
      VDict (Dict.of_pairs Dict.okey_eqb
               (map (fun kv => (Some (fst kv), load (snd kv))) members))
  end.

(** Conversions of optional fields. *)
Definition ostr (o : option string) : value :=
  match o with
  | Some s => VStr s
  | None => VNone
  end.

(** What a value reads back as: a tuple as the list of its elements, a
    [None] key as the key ["null"]. *)
Fixpoint normal (v : value) : value :=
  match v with
  | VList items => VList (map normal items)
  | VTuple items => VList (map normal items)
  | VDict entries =>
      VDict (map (fun kv => (Some (key_text (fst kv)), normal (snd kv)))
                 entries)
  | _ => v
  end.

(** No key occurs twice. *)
Fixpoint distinct (keys : list (option string)) : bool :=
  match keys with
  | [] => true
  | k :: rest => negb (existsb (Dict.okey_eqb k) rest) && distinct rest
  end.

(** The keys of every dict stay apart once they are written as text. *)
Fixpoint well_keyed (v : value) : bool :=
  match v with
  | VList items => forallb well_keyed items
  | VTuple items => forallb well_keyed items
  | VDict entries =>
      distinct (map (fun kv => Some (key_text (fst kv))) entries)
      && forallb (fun kv => well_keyed (snd kv)) entries
  | _ => true
  end.

Definition is_some {A : Type} (o : option A) : bool :=
  match o with
  | Some _ => true
  | None => false
  end.

(** Data that holds no tuple and no [None] key, and whose dicts have no
    key twice. *)
Fixpoint plain (v : value) : bool :=
  match v with
  | VList items => forallb plain items
  | VTuple _ => false
  | VDict entries =>
      distinct (map fst entries)
      && forallb (fun kv => is_some (fst kv) && plain (snd kv)) entries
  | _ => true
  end.

End Py.

(** ** ElementTree elements *)

Module Xml.

Inductive element : Type :=
| Element (tag : string) (attrib : list (string * string))
          (children : list element).

Definition tag (e : element) : string :=
  match e with Element t _ _ => t end.

Definition attrib (e : element) : list (string * string) :=
  match e with Element _ a _ => a end.

Definition children (e : element) : list element :=
  match e with Element _ _ c => c end.

(** [e.get(name)]: [None] when the attribute is missing. *)
Definition get (e : element) (name : string) : option string :=
  Dict.get String.eqb (attrib e) name.

(** [e.findall(name)]: the direct children with that tag, in order. *)
Definition findall (e : element) (name : string) : list element :=
  filter (fun c => String.eqb (tag c) name) (children e).

End Xml.

(** ** Reference instances of the library functions

    [int], [float] and [datetime.fromisoformat] are parameters of the
    embedding of [fetch_changesets.py]: its theorems hold for any functions
    in their place.  The instances here read the plain forms the
    OpenStreetMap API sends and serve the worked examples. *)

Module Lib.

Definition digit_val (c : ascii) : option Z :=
  let n := Z.of_nat (nat_of_ascii c) in
  if (48 <=? n) && (n <=? 57) then Some (n - 48) else None.

(** Reads digits to the end of the string, on top of [acc]. *)
Fixpoint digits (acc : Z) (s : string) : option Z :=
  match s with
  | EmptyString => Some acc
  | String c rest =>
      match digit_val c with
      | Some d => digits (acc * 10 + d) rest
      | None => None
      end
  end.

Definition unsigned (s : string) : option Z :=
  match s with
  | EmptyString => None
  | _ => digits 0 s
  end.

(** [int(s)] for an optional sign followed by decimal digits. *)
Definition py_int (s : string) : option Z :=
  match s with
  | String "-" rest => option_map Z.opp (unsigned rest)
  | String "+" rest => unsigned rest
  | _ => unsigned s
  end.

(** Splits at the first ['.']. *)
Fixpoint split_dot (s : string) : string * option string :=
  match s with
  | EmptyString => (EmptyString, None)
  | String "." rest => (EmptyString, Some rest)
  | String c rest =>
      let '(a, b) := split_dot rest in (String c a, b)
  end.

Definition unsigned_float (s : string) : option Q :=
  match split_dot s with
  | (whole, None) => option_map inject_Z (unsigned whole)
  | (whole, Some frac) =>
      match unsigned whole, unsigned frac with
      | Some w, Some f =>
          Some (inject_Z w
                + Qmake f (Pos.of_nat (Nat.pow 10 (String.length frac))))%Q
      | _, _ => None
      end
  end.

(** [float(s)] for an optional sign, digits, a point and digits. *)
Definition py_float (s : string) : option Q :=
  match s with
  | String "-" rest => option_map Qopp (unsigned_float rest)
  | String "+" rest => unsigned_float rest
  | _ => unsigned_float s
  end.

(** Reads exactly [count] digits from the front of [s]. *)
Fixpoint field (count : nat) (acc : Z) (s : string) : option (Z * string) :=
  match count with
  | O => Some (acc, s)
  | S count' =>
      match s with
      | String c rest =>
          match digit_val c with
          | Some d => field count' (acc * 10 + d) rest
          | None => None
          end
      | EmptyString => None
      end
  end.

Definition expect (c : ascii) (s : string) : option string :=
  match s with
  | String c' rest => if Ascii.eqb c c' then Some rest else None
  | EmptyString => None
  end.

(** ['HH:MM'] of a UTC offset, to the end of the string. *)
Definition offset_ok (s : string) : bool :=
  match field 2 0 s with
  | Some (h, s) =>
      match expect ":" s with
      | Some s =>
          match field 2 0 s with
          | Some (m, EmptyString) => h * 60 + m <? 1440
          | _ => false
          end
      | None => false
      end
  | None => false
  end.

(** ['HH:MM:SS'], alone or followed by ['+HH:MM'] or ['-HH:MM']. *)
Definition time_ok (s : string) : bool :=
  match field 2 0 s with
  | Some (h, s) =>
      match expect ":" s with
      | Some s =>
          match field 2 0 s with
          | Some (m, s) =>
              match expect ":" s with
              | Some s =>
                  match field 2 0 s with
                  | Some (sec, rest) =>
                      (h <? 24) && (m <? 60) && (sec <? 60)
                      && match rest with
                         | EmptyString => true
                         | String "+" o => offset_ok o
                         | String "-" o => offset_ok o
                         | _ => false
                         end
                  | None => false
                  end
              | None => false
              end
          | None => false
          end
      | None => false
      end
  | None => false
  end.

(** [datetime.fromisoformat(s)] for ['YYYY-MM-DD'], alone or followed by
    one separator character and a time; the result is the date of the
    parsed value, [None] stands for [ValueError]. *)
Definition fromisoformat (s : string) : option (Z * Z * Z) :=
  match field 4 0 s with
  | Some (y, s) =>
      match expect "-" s with
      | Some s =>
          match field 2 0 s with
          | Some (m, s) =>
              match expect "-" s with
              | Some s =>
                  match field 2 0 s with
                  | Some (d, rest) =>
                      if Calendar.valid_date y m d
                         && match rest with
                            | EmptyString => true
                            | String _ t => time_ok t
                            end
                      then Some (y, m, d) else None
                  | None => None
                  end
              | None => None
              end
          | None => None
          end
      | None => None
      end
  | None => None
  end.

End Lib.

(** ** fetch_changesets.py *)

Module Rest.

Definition USERS : list string :=
  [ "Amac239"; "AndromedaL"; "bmrushing"; "brikin"; "caitnahc"; "clayded";
    "conordoremus"; "dsmith10"; "DuckDuckCat"; "geographywizard123"; "haycam";
    "I-Izzo"; "isamah"; "JacobLovesMaps"; "joecalta"; "katherineherlihy";
    "kengaroo5445"; "KQWilson"; "livmakesmaps"; "Lendekat001"; "lucycrino";
    "maps4lyfe1304"; "meghanstengel"; "merritt_car22"; "mmann1123";
    "norabutter"; "o_paq"; "ryleeisosm"; "Sai_Dontukurti"; "Sasank Chaganti";
    "Manojkumar Yerraguntla"; "Waltuh" ].

(** [CITIES]: name to [(min_lon, min_lat, max_lon, max_lat)], in the
    order the dict literal lists them, which is its iteration order. *)
Definition CITIES : Geo.city_table :=
  [ ("Rome, IT",       (12.23, 41.65, 12.85, 42.10)%Q);
    ("London, UK",     (-0.51, 51.28, 0.33, 51.69)%Q);
    ("Manchester, UK", (-2.35, 53.35, -2.15, 53.55)%Q);
    ("Naples, IT",     (14.10, 40.78, 14.40, 40.95)%Q);
    ("Brooklyn, NY",   (-74.05, 40.57, -73.83, 40.74)%Q);
    ("Atlanta, GA",    (-84.55, 33.65, -84.29, 33.89)%Q);
    ("Austin, TX",     (-97.95, 30.10, -97.60, 30.50)%Q);
    ("Phoenix, AZ",    (-112.35, 33.27, -111.90, 33.70)%Q) ].

Definition START_DATE : string := "2024-01-01T00:00:00Z".

(** [changeset['bbox']] *)
Record BBox : Type := mkBBox
  { min_lon : Q; min_lat : Q; max_lon : Q; max_lat : Q }.

(** [changeset['center']] *)
Record Point : Type := mkPoint { lon : Q; lat : Q }.

(** The centroid of lines 83-86. *)
Definition bbox_center (b : BBox) : Point :=
  {| lon := Geo.midpoint (min_lon b) (max_lon b);
     lat := Geo.midpoint (min_lat b) (max_lat b) |}.

(** The changeset dict.  The keys ['bbox'], ['center'], ['tags'] and
    ['city'] may be missing: their fields are options, [None] for a missing
    key.  ['city'], once set, holds [None] or a name.  A tag key or value is
    [None] when the [<tag>] element lacks the attribute. *)
Record changeset : Type := mkChangeset
  { cs_id : Z;
    user : option string;
    uid : Z;
    created_at : option string;
    closed_at : option string;
    cs_open : bool;
    changes_count : Z;
    comments_count : Z;
    bbox : option BBox;
    center : option Point;
    tags : option (list (option string * option string));
    city : option (option string) }.

(** *** classify_changeset_location *)

(** The [for] loop over a city table, with its [return city_name] and the
    final [return 'Other']. *)
Fixpoint classify_in (cities : Geo.city_table) (lon lat : Q) : string :=
  match cities with
  | [] => "Other"
  | (city_name, box) :: rest =>
      if Geo.in_box box lon lat then city_name
      else classify_in rest lon lat
  end.

Definition classify_changeset_location (cs : changeset) : option string :=
  match center cs with
  | None => None
  | Some c => Some (classify_in CITIES (lon c) (lat c))
  end.

(** [cs['city'] = classify_changeset_location(cs)] *)
Definition set_city (cs : changeset) : changeset :=
  {| cs_id := cs_id cs; user := user cs; uid := uid cs;
     created_at := created_at cs; closed_at := closed_at cs;
     cs_open := cs_open cs; changes_count := changes_count cs;
     comments_count := comments_count cs; bbox := bbox cs;
     center := center cs; tags := tags cs;
     city := Some (classify_changeset_location cs) |}.

(** Every tag of the record has its key: no [<tag>] element lacked the
    [k] attribute. *)
Definition tags_keyed (cs : changeset) : bool :=
  match tags cs with
  | Some t => forallb (fun kv => Py.is_some (fst kv)) t
  | None => true
  end.

(** No tag key of the record occurs twice, as in any dict. *)
Definition tags_distinct (cs : changeset) : Prop :=
  match tags cs with
  | Some t => NoDup (map fst t)
  | None => True
  end.

(** *** The network *)

(** What one [requests.get] followed by [raise_for_status] and
    [ET.fromstring] comes to: a [RequestException] (a failed request or an
    error status), a body that is not XML, or the root of the document. *)
Inductive response : Type :=
| RequestException
| ParseError
| Document (root : Xml.element).

(** The query parameters of a request. *)
Record request : Type := mkRequest { display_name : string; time : string }.

(** What a fetch leaves behind: its outcome, the requests it sent in
    order, and the responses it did not consume. *)
Record fetched (A : Type) : Type := mkFetched
  { result : outcome A; sent : list request; unread : list response }.

Arguments mkFetched {A} result sent unread.
Arguments result {A} f.
Arguments sent {A} f.
Arguments unread {A} f.

(** *** The entries of the weekly aggregation *)

Record entry : Type := mkEntry
  { e_id : Z;
    e_user : option string;
    e_lon : Q;
    e_lat : Q;
    e_changes_count : Z;
    e_city : option string;
    e_created_at : option string;
    e_comment : option string }.

Definition weekly : Type := list (string * list entry).

(** [cs.get('city')] *)
Definition get_city (cs : changeset) : option string :=
  match city cs with
  | Some c => c
  | None => None
  end.

(** [cs.get('tags', {}).get('comment', '')] *)
Definition get_comment (cs : changeset) : option string :=
  match tags cs with
  | None => Some ""
  | Some t =>
      match Dict.get Dict.okey_eqb t (Some "comment") with
      | Some v => v
      | None => Some ""
      end
  end.

Definition entry_of (cs : changeset) (c : Point) : entry :=
  {| e_id := cs_id cs; e_user := user cs; e_lon := lon c; e_lat := lat c;
     e_changes_count := changes_count cs; e_city := get_city cs;
     e_created_at := created_at cs; e_comment := get_comment cs |}.

(** Lines 175-178: create the bucket when the key is new, then append. *)
Definition bucket_append (weekly_data : weekly) (week_key : string)
           (e : entry) : weekly :=
  match Dict.get String.eqb weekly_data week_key with
  | Some bucket => Dict.set String.eqb weekly_data week_key (bucket ++ [e])%list
  | None => Dict.set String.eqb weekly_data week_key [e]
  end.

(** [s.replace('Z', '+00:00')] *)
Fixpoint replace_Z (s : string) : string :=
  match s with
  | EmptyString => EmptyString
  | String "Z" rest => "+00:00" ++ replace_Z rest
  | String c rest => String c (replace_Z rest)
  end.

(** *** Sorting by ['created_at'] *)

(** [a < b] on keys: comparing with [None] is a [TypeError]. *)
Definition key_lt (a b : option string) : outcome bool :=
  match a, b with
  | Some x, Some y => Return (String.ltb x y)
  | _, _ => Raise
  end.

(** [min(batch, key=lambda x: x['created_at'])]: the first of the least. *)
Fixpoint min_from (cur : changeset) (rest : list changeset)
  : outcome changeset :=
  match rest with
  | [] => Return cur
  | x :: rest' =>
      lt <- key_lt (created_at x) (created_at cur) ;;
      min_from (if lt then x else cur) rest'
  end.

Definition oldest (batch : list changeset) : outcome changeset :=
  match batch with
  | [] => Raise
  | x :: rest => min_from x rest
  end.

Definition key_text (k : option string) : string :=
  match k with
  | Some s => s
  | None => "None"
  end.

Definition key_leb (a b : option string) : bool :=
  match a, b with
  | Some x, Some y => String.leb x y
  | _, _ => true
  end.

Fixpoint insert_sorted (x : changeset) (l : list changeset) : list changeset :=
  match l with
  | [] => [x]
  | y :: rest =>
      if key_leb (created_at x) (created_at y) then x :: y :: rest
      else y :: insert_sorted x rest
  end.

Fixpoint stable_sort (l : list changeset) : list changeset :=
  match l with
  | [] => []
  | x :: rest => insert_sorted x (stable_sort rest)
  end.

Definition has_key (cs : changeset) : bool :=
  match created_at cs with
  | Some _ => true
  | None => false
  end.

(** [all_changesets.sort(key=lambda x: x['created_at'])]: a stable sort by
    the string order.  With two records or more every key is compared, and
    a key that is [None] raises [TypeError]. *)
Definition sort_by_created_at (l : list changeset)
  : outcome (list changeset) :=
  if (length l <=? 1)%nat then Return l
  else if forallb has_key l then Return (stable_sort l)
  else Raise.

(** *** The JSON data *)

Definition bbox_value (b : BBox) : Py.value :=
  Py.VDict [ (Some "min_lon", Py.VFloat (min_lon b));
             (Some "min_lat", Py.VFloat (min_lat b));
             (Some "max_lon", Py.VFloat (max_lon b));
             (Some "max_lat", Py.VFloat (max_lat b)) ].

Definition point_value (c : Point) : Py.value :=
  Py.VDict [ (Some "lon", Py.VFloat (lon c)); (Some "lat", Py.VFloat (lat c)) ].

Definition tags_value (t : list (option string * option string)) : Py.value :=
  Py.VDict (map (fun kv => (fst kv, Py.ostr (snd kv))) t).

Definition optional_key {A : Type} (name : string) (f : A -> Py.value)
           (o : option A) : list (option string * Py.value) :=
  match o with
  | Some a => [(Some name, f a)]
  | None => []
  end.

(** A changeset dict, its keys in the order they were inserted. *)
Definition changeset_value (cs : changeset) : Py.value :=
  Py.VDict
    ([ (Some "id", Py.VInt (cs_id cs));
       (Some "user", Py.ostr (user cs));
       (Some "uid", Py.VInt (uid cs));
       (Some "created_at", Py.ostr (created_at cs));
       (Some "closed_at", Py.ostr (closed_at cs));
       (Some "open", Py.VBool (cs_open cs));
       (Some "changes_count", Py.VInt (changes_count cs));
       (Some "comments_count", Py.VInt (comments_count cs)) ]
     ++ optional_key "bbox" bbox_value (bbox cs)
     ++ optional_key "center" point_value (center cs)
     ++ optional_key "tags" tags_value (tags cs)
     ++ optional_key "city" Py.ostr (city cs))%list.

Definition entry_value (e : entry) : Py.value :=
  Py.VDict [ (Some "id", Py.VInt (e_id e));
             (Some "user", Py.ostr (e_user e));
             (Some "lon", Py.VFloat (e_lon e));
             (Some "lat", Py.VFloat (e_lat e));
             (Some "changes_count", Py.VInt (e_changes_count e));
             (Some "city", Py.ostr (e_city e));
             (Some "created_at", Py.ostr (e_created_at e));
             (Some "comment", Py.ostr (e_comment e)) ].

Definition weekly_value (w : weekly) : Py.value :=
  Py.VDict
    (map (fun kv => (Some (fst kv), Py.VList (map entry_value (snd kv)))) w).

(** Lines 195-201: ['bbox'] is the tuple of the table itself. *)
Definition city_value (box : Geo.city_box) : Py.value :=
  let '(a, b, c, d) := box in
  Py.VDict
    [ (Some "bbox",
       Py.VTuple [Py.VFloat a; Py.VFloat b; Py.VFloat c; Py.VFloat d]);
      (Some "center",
       Py.VList [Py.VFloat (Geo.midpoint a c); Py.VFloat (Geo.midpoint b d)]) ].

Definition cities_value : Py.value :=
  Py.VDict (map (fun kv => (Some (fst kv), city_value (snd kv))) CITIES).

(** What a run leaves behind: the files it wrote with [json.dump], each
    with the data it was given, the requests it sent, and its outcome. *)
Record run : Type := mkRun
  { written : list (string * Py.value);
    requests : list request;
    status : outcome (list changeset) }.

Section Library.

(** [int(s)], [float(s)] and the date of [datetime.fromisoformat(s)];
    [None] stands for the [ValueError] of a string they reject. *)
Variable py_int : string -> option Z.
Variable py_float : string -> option Q.
Variable fromisoformat : string -> option (Z * Z * Z).

(** *** Parsing one [<changeset>] element *)

(** [int(cs.get(name))]: [int(None)] is a [TypeError]. *)
Definition int_attr (cs : Xml.element) (name : string) : outcome Z :=
  match Xml.get cs name with
  | Some s => of_option (py_int s)
  | None => Raise
  end.

(** [int(cs.get(name, 0))] *)
Definition int_attr_or_0 (cs : Xml.element) (name : string) : outcome Z :=
  match Xml.get cs name with
  | Some s => of_option (py_int s)
  | None => Return 0
  end.

(** [float(cs.get(name))] *)
Definition float_attr (cs : Xml.element) (name : string) : outcome Q :=
  match Xml.get cs name with
  | Some s => of_option (py_float s)
  | None => Raise
  end.

(** [if cs.get('min_lon'):] holds for a string that is there and not
    empty. *)
Definition has_bbox (cs : Xml.element) : bool :=
  match Xml.get cs "min_lon" with
  | Some s => negb (String.eqb s "")
  | None => false
  end.

(** Lines 89-91 *)
Definition parse_tags (cs : Xml.element)
  : list (option string * option string) :=
  fold_left
    (fun tags tag =>
       Dict.set Dict.okey_eqb tags (Xml.get tag "k") (Xml.get tag "v"))
    (Xml.findall cs "tag") [].

(** Lines 76-81 *)
Definition parse_bbox (cs : Xml.element) : outcome BBox :=
  a <- float_attr cs "min_lon" ;;
  b <- float_attr cs "min_lat" ;;
  c <- float_attr cs "max_lon" ;;
  d <- float_attr cs "max_lat" ;;
  Return (mkBBox a b c d).

(** Lines 63-95, the body of the loop over the elements. *)
Definition parse_changeset (cs : Xml.element) : outcome changeset :=
  id <- int_attr cs "id" ;;
  uid_ <- int_attr cs "uid" ;;
  changes <- int_attr_or_0 cs "changes_count" ;;
  comments <- int_attr_or_0 cs "comments_count" ;;
  let tags_ := parse_tags cs in
  let with_box (b : option BBox) (c : option Point) :=
    {| cs_id := id;
       user := Xml.get cs "user";
       uid := uid_;
       created_at := Xml.get cs "created_at";
       closed_at := Xml.get cs "closed_at";
       cs_open := match Xml.get cs "open" with
                  | Some s => String.eqb s "true"
                  | None => false
                  end;
       changes_count := changes;
       comments_count := comments;
       bbox := b;
       center := c;
       tags := match tags_ with [] => None | _ => Some tags_ end;
       city := None |} in
  if has_bbox cs then
    b <- parse_bbox cs ;;
    Return (with_box (Some b) (Some (bbox_center b)))
  else Return (with_box None None).

(** Lines 60-95: the batch of one document. *)
Fixpoint parse_all (elements : list Xml.element) : outcome (list changeset) :=
  match elements with
  | [] => Return []
  | e :: rest =>
      cs <- parse_changeset e ;;
      batch <- parse_all rest ;;
      Return (cs :: batch)
  end.

Definition parse_batch (root : Xml.element) : outcome (list changeset) :=
  parse_all (Xml.findall root "changeset").

(** *** fetch_user_changesets *)

(** The [while True] loop.  [time] is [params['time']], [changesets] the
    list collected so far; every round sends one request and consumes one
    response. *)
Fixpoint fetch_loop (username start_time time : string)
         (changesets : list changeset) (responses : list response)
  : fetched (list changeset) :=
  let req := mkRequest username time in
  match responses with
  | [] => mkFetched Blocked [req] []
  | RequestException :: rest => mkFetched (Return changesets) [req] rest
  | ParseError :: rest => mkFetched Raise [req] rest
  | Document root :: rest =>
      match parse_batch root with
      | Return [] => mkFetched (Return changesets) [req] rest
      | Return batch =>
          let changesets := (changesets ++ batch)%list in
          if (length batch <? 100)%nat
          then mkFetched (Return changesets) [req] rest
          else
            match oldest batch with
            | Return o =>
                let next := start_time ++ "," ++ key_text (created_at o) in
                let f := fetch_loop username start_time next changesets rest in
                mkFetched (result f) (req :: sent f) (unread f)
            | Raise => mkFetched Raise [req] rest
            | Blocked => mkFetched Blocked [req] rest
            end
      | Raise => mkFetched Raise [req] rest
      | Blocked => mkFetched Blocked [req] rest
      end
  end.

Definition fetch_user_changesets (username : string)
           (responses : list response) : fetched (list changeset) :=
  fetch_loop username START_DATE START_DATE [] responses.

(** A response after which the loop goes on: a document whose batch has a
    hundred records or more, each with a ['created_at'] to compare. *)
Definition full_page (r : response) (batch : list changeset) : Prop :=
  exists root o,
    r = Document root /\ parse_batch root = Return batch
    /\ (100 <= length batch)%nat /\ oldest batch = Return o.

(** *** main *)

(** Lines 143-154: the loop over the users; the changesets of each are
    classified and appended. *)
Fixpoint fetch_users (users : list string) (all_changesets : list changeset)
         (responses : list response) : fetched (list changeset) :=
  match users with
  | [] => mkFetched (Return all_changesets) [] responses
  | username :: rest =>
      let f := fetch_user_changesets username responses in
      match result f with
      | Return changesets =>
          let g := fetch_users rest (all_changesets ++ map set_city changesets)%list
                               (unread f) in
          mkFetched (result g) (sent f ++ sent g)%list (unread g)
      | Raise => mkFetched Raise (sent f) (unread f)
      | Blocked => mkFetched Blocked (sent f) (unread f)
      end
  end.

(** Lines 170-173 *)
Definition week_key (created : option string) : outcome string :=
  match created with
  | None => Raise
  | Some s =>
      match fromisoformat (replace_Z s) with
      | None => Raise
      | Some (y, m, d) =>
          match Calendar.sub_days y m d (Calendar.weekday y m d) with
          | Some (y', m', d') => Return (Calendar.format_date y' m' d')
          | None => Raise
          end
      end
  end.

(** Lines 164-187 *)
Fixpoint weekly_loop (weekly_data : weekly) (all_changesets : list changeset)
  : outcome weekly :=
  match all_changesets with
  | [] => Return weekly_data
  | cs :: rest =>
      match center cs with
      | None => weekly_loop weekly_data rest
      | Some c =>
          k <- week_key (created_at cs) ;;
          weekly_loop (bucket_append weekly_data k (entry_of cs c)) rest
      end
  end.

(** Line 209 slices ['created_at'] of the first and of the last record. *)
Definition summary (all_changesets : list changeset)
  : outcome (list changeset) :=
  match all_changesets with
  | [] => Return all_changesets
  | first :: _ =>
      if has_key first && has_key (last all_changesets first)
      then Return all_changesets else Raise
  end.

Definition main_with (users : list string) (responses : list response) : run :=
  let f := fetch_users users [] responses in
  match result f with
  | Return fetched_all =>
      match sort_by_created_at fetched_all with
      | Return all_changesets =>
          let raw :=
            ("changesets.json", Py.VList (map changeset_value all_changesets)) in
          match weekly_loop [] all_changesets with
          | Return weekly_data =>
              mkRun [ raw;
                      ("weekly_changesets.json", weekly_value weekly_data);
                      ("cities.json", cities_value) ]
                    (sent f) (summary all_changesets)
          | Raise => mkRun [raw] (sent f) Raise
          | Blocked => mkRun [raw] (sent f) Blocked
          end
      | Raise => mkRun [] (sent f) Raise
      | Blocked => mkRun [] (sent f) Blocked
      end
  | Raise => mkRun [] (sent f) Raise
  | Blocked => mkRun [] (sent f) Blocked
  end.

Definition main (responses : list response) : run :=
  main_with USERS responses.

End Library.

End Rest.

(** ** fetch_osm_duckdb.py *)

Module Duck.

Definition CITIES : Geo.city_table :=
  [ ("Rome, IT",       (12.23, 41.65, 12.85, 42.10)%Q);
    ("Scottsdale, AZ", (-111.96, 33.40, -111.68, 33.85)%Q);
    ("London, UK",     (-0.51, 51.28, 0.33, 51.69)%Q);
    ("Naples, IT",     (14.10, 40.78, 14.40, 40.95)%Q);
    ("Brooklyn, NY",   (-74.05, 40.57, -73.83, 40.74)%Q);
    ("Phoenix, AZ",    (-112.35, 33.27, -111.90, 33.70)%Q) ].

(** A row of the relation the query returns.  [None] is a SQL NULL. *)
Record sql_row : Type := mkSqlRow
  { q_id : Z;
    q_uid : Z;
    q_username : string;
    q_created_at : Calendar.timestamp;
    q_min_lon : option Q;
    q_min_lat : option Q;
    q_max_lon : option Q;
    q_max_lat : option Q;
    q_num_changes : option Z;
    q_tags : option (list (string * string)) }.

(** What [row[column]] can be for a numeric column: a number, the marker
    pandas keeps for a missing value ([NaN]; [pandas.NA] in a nullable
    integer column), or [None]. *)
Inductive cell (A : Type) : Type :=
| PyNone
| Missing
| Value (a : A).

Arguments PyNone {A}.
Arguments Missing {A}.
Arguments Value {A} a.

(** A row of the DataFrame, as [iterrows] yields it. *)
Record row : Type := mkRow
  { r_id : Z;
    r_uid : Z;
    r_username : string;
    r_created_at : Calendar.timestamp;
    r_min_lon : cell Q;
    r_min_lat : cell Q;
    r_max_lon : cell Q;
    r_max_lat : cell Q;
    r_num_changes : cell Z;
    r_tags : option (list (string * string)) }.

(** [fetchdf()]: the relation as a DataFrame.  A numeric column of the frame
    holds no [None]: where the relation has a NULL the frame has the
    missing-value marker.  The tags of a row are a Python object; a NULL
    there is taken as [None] (a marker, which has no [__iter__], gives the
    same comment). *)
Definition fetchdf_cell {A : Type} (o : option A) : cell A :=
  match o with
  | Some a => Value a
  | None => Missing
  end.

Definition fetchdf_row (q : sql_row) : row :=
  {| r_id := q_id q;
     r_uid := q_uid q;
     r_username := q_username q;
     r_created_at := q_created_at q;
     r_min_lon := fetchdf_cell (q_min_lon q);
     r_min_lat := fetchdf_cell (q_min_lat q);
     r_max_lon := fetchdf_cell (q_max_lon q);
     r_max_lat := fetchdf_cell (q_max_lat q);
     r_num_changes := fetchdf_cell (q_num_changes q);
     r_tags := q_tags q |}.

Definition fetchdf (relation : list sql_row) : list row :=
  map fetchdf_row relation.

(** A float of the loop: a number or [NaN].  Arithmetic on [NaN] gives
    [NaN], and every comparison with [NaN] is false. *)
Inductive float : Type :=
| Num (q : Q)
| NaN.

Definition le (a b : float) : bool :=
  match a, b with
  | Num x, Num y => Qle_bool x y
  | _, _ => false
  end.

(** The flattened record of lines 114-124. *)
Record changeset : Type := mkChangeset
  { cs_id : Z;
    user : string;
    uid : Z;
    lon : float;
    lat : float;
    changes_count : Z;
    city : string;
    created_at : string;
    comment : string }.

Definition monthly : Type := list (string * list changeset).

(** [cmin_lon <= center_lon <= cmax_lon and
    cmin_lat <= center_lat <= cmax_lat] *)
Definition in_box (box : Geo.city_box) (center_lon center_lat : float)
  : bool :=
  let '(cmin_lon, cmin_lat, cmax_lon, cmax_lat) := box in
  le (Num cmin_lon) center_lon && le center_lon (Num cmax_lon)
  && (le (Num cmin_lat) center_lat && le center_lat (Num cmax_lat)).

(** Lines 102-106: [city] starts as ['Other']; the first city whose box
    holds the point is assigned and the loop is left by [break]. *)
Fixpoint city_scan (cities : Geo.city_table) (city : string)
         (center_lon center_lat : float) : string :=
  match cities with
  | [] => city
  | (city_name, box) :: rest =>
      if in_box box center_lon center_lat then city_name
      else city_scan rest city center_lon center_lat
  end.

Definition classify (center_lon center_lat : float) : string :=
  city_scan CITIES "Other" center_lon center_lat.

(** [(row[lo] + row[hi]) / 2]: adding [None] is a [TypeError]; with the
    marker of a float column, which is [NaN], the result is [NaN]. *)
Definition center_of (lo hi : cell Q) : outcome float :=
  match lo, hi with
  | PyNone, _ => Raise
  | _, PyNone => Raise
  | Value a, Value b => Return (Num (Geo.midpoint a b))
  | _, _ => Return NaN
  end.

(** Lines 109-112 *)
Definition comment_of (tags : option (list (string * string))) : string :=
  match tags with
  | None => ""
  | Some pairs =>
      match Dict.get String.eqb (Dict.of_pairs String.eqb pairs) "comment" with
      | Some v => v
      | None => ""
      end
  end.

(** [int(row['num_changes']) if row['num_changes'] else 0]: [None] and 0
    are false; the marker is not ([NaN] is true and [int(NaN)] is a
    [ValueError]; the truth value of [pandas.NA] is a [TypeError]). *)
Definition changes_of (num_changes : cell Z) : outcome Z :=
  match num_changes with
  | PyNone => Return 0
  | Missing => Raise
  | Value n => Return (if n =? 0 then 0 else n)
  end.

(** [... is not None] *)
Definition is_not_None {A : Type} (c : cell A) : bool :=
  match c with
  | PyNone => false
  | _ => true
  end.

(** The body of the loop over the rows: [None] for a row that is skipped. *)
Definition process_row (r : row) : outcome (option changeset) :=
  if is_not_None (r_min_lon r) && is_not_None (r_min_lat r) then
    center_lon <- center_of (r_min_lon r) (r_max_lon r) ;;
    center_lat <- center_of (r_min_lat r) (r_max_lat r) ;;
    changes <- changes_of (r_num_changes r) ;;
    Return (Some
      {| cs_id := r_id r;
         user := r_username r;
         uid := r_uid r;
         lon := center_lon;
         lat := center_lat;
         changes_count := changes;
         city := classify center_lon center_lat;
         created_at := Calendar.isoformat (r_created_at r);
         comment := comment_of (r_tags r) |})
  else Return None.

Fixpoint process_rows (rows : list row) : outcome (list changeset) :=
  match rows with
  | [] => Return []
  | r :: rest =>
      o <- process_row r ;;
      changesets <- process_rows rest ;;
      Return (match o with
              | Some cs => cs :: changesets
              | None => changesets
              end)
  end.

(** [cs['created_at'][:7]] *)
Definition month_key (created : string) : string :=
  String.substring 0 7 created.

(** Lines 137-149 *)
Definition bucket_append (monthly_data : monthly) (key : string)
           (cs : changeset) : monthly :=
  match Dict.get String.eqb monthly_data key with
  | Some bucket => Dict.set String.eqb monthly_data key (bucket ++ [cs])%list
  | None => Dict.set String.eqb monthly_data key [cs]
  end.

Definition monthly_loop (changesets : list changeset) : monthly :=
  fold_left (fun monthly_data cs =>
               bucket_append monthly_data (month_key (created_at cs)) cs)
            changesets [].

(** *** The JSON data *)

Definition float_value (x : float) : Py.value :=
  match x with
  | Num q => Py.VFloat q
  | NaN => Py.VNaN
  end.

Definition changeset_value (cs : changeset) : Py.value :=
  Py.VDict [ (Some "id", Py.VInt (cs_id cs));
             (Some "user", Py.VStr (user cs));
             (Some "uid", Py.VInt (uid cs));
             (Some "lon", float_value (lon cs));
             (Some "lat", float_value (lat cs));
             (Some "changes_count", Py.VInt (changes_count cs));
             (Some "city", Py.VStr (city cs));
             (Some "created_at", Py.VStr (created_at cs));
             (Some "comment", Py.VStr (comment cs)) ].

(** The projection of lines 140-149 drops ['uid']. *)
Definition entry_value (cs : changeset) : Py.value :=
  Py.VDict [ (Some "id", Py.VInt (cs_id cs));
             (Some "user", Py.VStr (user cs));
             (Some "lon", float_value (lon cs));
             (Some "lat", float_value (lat cs));
             (Some "changes_count", Py.VInt (changes_count cs));
             (Some "city", Py.VStr (city cs));
             (Some "created_at", Py.VStr (created_at cs));
             (Some "comment", Py.VStr (comment cs)) ].

Definition monthly_value (m : monthly) : Py.value :=
  Py.VDict
    (map (fun kv => (Some (fst kv), Py.VList (map entry_value (snd kv)))) m).

(** Lines 157-163: ['bbox'] is [list(bbox)]. *)
Definition city_value (box : Geo.city_box) : Py.value :=
  let '(a, b, c, d) := box in
  Py.VDict
    [ (Some "bbox",
       Py.VList [Py.VFloat a; Py.VFloat b; Py.VFloat c; Py.VFloat d]);
      (Some "center",
       Py.VList [Py.VFloat (Geo.midpoint a c); Py.VFloat (Geo.midpoint b d)]) ].

Definition cities_value : Py.value :=
  Py.VDict (map (fun kv => (Some (fst kv), city_value (snd kv))) CITIES).

(** The files a run wrote with [json.dump], and its outcome. *)
Record run : Type := mkRun
  { written : list (string * Py.value);
    status : outcome unit }.

(** [main], from the DataFrame [result] that [fetchdf()] returned. *)
Definition main (result : list row) : run :=
  match result with
  | [] => mkRun [] (Return tt)
  | _ =>
      match process_rows result with
      | Return changesets =>
          mkRun [ ("changesets.json", Py.VList (map changeset_value changesets));
                  ("monthly_changesets.json",
                   monthly_value (monthly_loop changesets));
                  ("cities.json", cities_value) ]
                (Return tt)
      | Raise => mkRun [] Raise
      | Blocked => mkRun [] Blocked
      end
  end.

End Duck.

(** ** Helpers for the calendar proofs *)

Module CalendarAux.

Fixpoint all_from (f : Z -> bool) (start : Z) (count : nat) : bool :=
  match count with
  | O => true
  | S c => f start && all_from f (start + 1) c
  end.

(** The last step of [ord2ymd]: month and day from the day of the year. *)
Definition tail (year n : Z) (leapyear : bool) : Z * Z * Z :=
  let month := Z.shiftr (n + 50) 5 in
  let preceding :=
    Calendar.DAYS_BEFORE_MONTH month
    + (if (2 <? month) && leapyear then 1 else 0) in
  if n <? preceding then
    let month := month - 1 in
    let preceding :=
      preceding
      - (Calendar.DAYS_IN_MONTH month
         + (if (month =? 2) && leapyear then 1 else 0)) in
    (year, month, n - preceding + 1)
  else (year, month, n - preceding + 1).

Definition tail_ok (leapyear : bool) (n : Z) : bool :=
  let '(_, m, d) := tail 0 n leapyear in
  (1 <=? m) && (m <=? 12) && (1 <=? d)
  && (d <=? Calendar.DAYS_IN_MONTH m
            + (if (m =? 2) && leapyear then 1 else 0))
  && (Calendar.DAYS_BEFORE_MONTH m
      + (if (2 <? m) && leapyear then 1 else 0) + d =? n + 1).

End CalendarAux.

(** ** The two city tables side by side *)

Module Tables.

(** The rows of [t] whose name [other] does not list. *)
Definition missing_from (other t : Geo.city_table) : Geo.city_table :=
  filter (fun c => negb (existsb (String.eqb (fst c)) (map fst other))) t.

(** The cities that only one of the two scripts knows. *)
Definition one_table_only : Geo.city_table :=
  (missing_from Duck.CITIES Rest.CITIES
   ++ missing_from Rest.CITIES Duck.CITIES)%list.

End Tables.

(** ** Notions the further properties are stated with *)

(** [a] comes no later than [b]: both have a ['created_at'] and the one of
    [a] is not the greater string. *)
Definition not_after (a b : Rest.changeset) : Prop :=
  exists ka kb,
    Rest.created_at a = Some ka /\ Rest.created_at b = Some kb
    /\ String.leb ka kb = true.

Definition same_key (k : option string) (cs : Rest.changeset) : bool :=
  Dict.okey_eqb (Rest.created_at cs) k.

(** A response that is a full page, with the batch parsed from it and the
    record [min] picks from the batch. *)
Definition page_with_oldest (py_int : string -> option Z)
           (py_float : string -> option Q) (r : Rest.response)
           (page : list Rest.changeset * Rest.changeset) : Prop :=
  exists root,
    r = Rest.Document root
    /\ Rest.parse_batch py_int py_float root = Return (fst page)
    /\ (100 <= length (fst page))%nat
    /\ Rest.oldest (fst page) = Return (snd page).

(** [f"{start_time},{oldest['created_at']}"] *)
Definition cursor (start_time : string) (oldest : Rest.changeset) : string :=
  start_time ++ "," ++ Rest.key_text (Rest.created_at oldest).


(** [d.get(k, [])] *)
Definition bucket_of {A : Type} (d : list (string * list A)) (k : string)
  : list A :=
  match Dict.get String.eqb d k with
  | Some bucket => bucket
  | None => []
  end.

(** The number of entries in all the buckets. *)
Definition total_entries {A : Type} (d : list (string * list A)) : nat :=
  length (concat (map snd d)).

(** The weekly entries of the changesets whose week key is [k], in the
    order of the changesets. *)
Definition weekly_entries_for (fromisoformat : string -> option (Z * Z * Z))
           (k : string) (css : list Rest.changeset) : list Rest.entry :=
  flat_map
    (fun cs =>
       match Rest.center cs, Rest.week_key fromisoformat (Rest.created_at cs)
       with
       | Some c, Return k' =>
           if String.eqb k' k then [Rest.entry_of cs c] else []
       | _, _ => []
       end) css.

Definition has_center (cs : Rest.changeset) : bool :=
  match Rest.center cs with
  | Some _ => true
  | None => false
  end.

(** The last of the [<tag>] children of [e] whose [k] is [key]. *)
Definition last_tag (e : Xml.element) (key : option string)
  : option Xml.element :=
  find (fun tag => Dict.okey_eqb (Xml.get tag "k") key)
       (rev (Xml.findall e "tag")).

(** The value of the last pair of [pairs] whose key is [key]. *)
Definition last_value (pairs : list (string * string)) (key : string)
  : option string :=
  option_map snd (find (fun kv => String.eqb (fst kv) key) (rev pairs)).

(** The centroid coordinate the bulk fetcher computes from two cells of
    the relation: their midpoint, or [NaN] when one of them is NULL. *)
Definition null_midpoint (lo hi : option Q) : Duck.float :=
  match lo, hi with
  | Some a, Some b => Duck.Num (Geo.midpoint a b)
  | _, _ => Duck.NaN
  end.

(** ** The summaries the scripts print

    The counts behind the printed summaries: how many records each city
    and each user has, and their ranking. *)

Module Stats.

Section Counting.
Context {A K : Type}.
Variable eqb : K -> K -> bool.
Variable key : A -> K.

(** [counts[k] = counts.get(k, 0) + 1] *)
Definition bump (counts : list (K * Z)) (k : K) : list (K * Z) :=
  Dict.set eqb counts k
           (match Dict.get eqb counts k with
            | Some n => n + 1
            | None => 0 + 1
            end).

(** The loop [for x in l: counts[key(x)] = counts.get(key(x), 0) + 1]. *)
Definition count_by (l : list A) : list (K * Z) :=
  fold_left (fun counts x => bump counts (key x)) l [].

(** How many elements of [l] have the key [k]. *)
Definition occurrences (k : K) (l : list A) : Z :=
  Z.of_nat (length (filter (fun x => eqb (key x) k) l)).

End Counting.

Section Ranking.
Context {K : Type}.

(** [sorted(counts.items(), key=lambda x: -x[1])]: a stable sort, the
    greatest count first. *)
Fixpoint insert_ranked (x : K * Z) (l : list (K * Z)) : list (K * Z) :=
  match l with
  | [] => [x]
  | y :: rest =>
      if - snd x <=? - snd y then x :: y :: rest
      else y :: insert_ranked x rest
  end.

Fixpoint ranked (items : list (K * Z)) : list (K * Z) :=
  match items with
  | [] => []
  | x :: rest => insert_ranked x (ranked rest)
  end.

(** The sum of the counts. *)
Definition total (counts : list (K * Z)) : Z :=
  fold_right (fun kv acc => snd kv + acc) 0 counts.

(** The order of a ranking: the first entry's count is not below the
    second's. *)
Definition not_below (a b : K * Z) : Prop := snd b <= snd a.

End Ranking.

(** [None] for a key that is not there. *)
Definition some_if_positive (n : Z) : option Z :=
  if n =? 0 then None else Some n.

End Stats.

(** Lines 213-220 of [fetch_changesets.py]. *)
Module RestSummary.

(** [cs.get('city', 'Unknown')] *)
Definition city_or_unknown (cs : Rest.changeset) : option string :=
  match Rest.city cs with
  | Some c => c
  | None => Some "Unknown"
  end.

Definition city_counts (all_changesets : list Rest.changeset)
  : list (option string * Z) :=
  Stats.count_by Dict.okey_eqb city_or_unknown all_changesets.

Definition cities_by_count (all_changesets : list Rest.changeset)
  : list (option string * Z) :=
  Stats.ranked (city_counts all_changesets).

End RestSummary.

(** Lines 171-193 of [fetch_osm_duckdb.py]. *)
Module DuckSummary.

Definition user_counts (changesets : list Duck.changeset)
  : list (string * Z) :=
  Stats.count_by String.eqb Duck.user changesets.

(** [len(user_counts)] *)
Definition users_with_data (changesets : list Duck.changeset) : nat :=
  length (user_counts changesets).

Definition city_counts (changesets : list Duck.changeset)
  : list (string * Z) :=
  Stats.count_by String.eqb Duck.city changesets.

Definition cities_by_count (changesets : list Duck.changeset)
  : list (string * Z) :=
  Stats.ranked (city_counts changesets).

(** [sorted(user_counts.items(), key=lambda x: -x[1])[:10]] *)
Definition top_contributors (changesets : list Duck.changeset)
  : list (string * Z) :=
  firstn 10 (Stats.ranked (user_counts changesets)).

End DuckSummary.

(** The names of the files a complete run opens, in order. *)
Definition rest_files : list string :=
  ["changesets.json"; "weekly_changesets.json"; "cities.json"].

Definition duck_files : list string :=
  ["changesets.json"; "monthly_changesets.json"; "cities.json"].

(** ** Worked inputs *)

Module Ex.

Definition bbox_rome : Rest.BBox := Rest.mkBBox 12.4 41.8 12.6 42.0.

Definition bbox_manchester : Rest.BBox := Rest.mkBBox (-2.3) 53.4 (-2.2) 53.5.

(** A REST record with the given identifier and bounding box, as
    [parse_changeset] builds it. *)
Definition record (id : Z) (b : option Rest.BBox) : Rest.changeset :=
  {| Rest.cs_id := id;
     Rest.user := Some "mmann1123";
     Rest.uid := 7;
     Rest.created_at := Some "2024-03-14T10:30:00Z";
     Rest.closed_at := Some "2024-03-14T11:00:00Z";
     Rest.cs_open := false;
     Rest.changes_count := 12;
     Rest.comments_count := 0;
     Rest.bbox := b;
     Rest.center := option_map Rest.bbox_center b;
     Rest.tags := Some [(Some "comment", Some "mapping")];
     Rest.city := None |}.

Definition common_attrib (id : string) : list (string * string) :=
  [ ("id", id); ("created_at", "2024-03-14T10:30:00Z");
    ("closed_at", "2024-03-14T11:00:00Z"); ("open", "false");
    ("user", "mmann1123"); ("uid", "7"); ("comments_count", "0");
    ("changes_count", "12") ].

Definition comment_tag : Xml.element :=
  Xml.Element "tag" [("k", "comment"); ("v", "mapping")] [].

(** A [<changeset>] element with a bounding box around Manchester. *)
Definition elem_manchester : Xml.element :=
  Xml.Element "changeset"
    (common_attrib "101"
     ++ [ ("min_lat", "53.4"); ("min_lon", "-2.3");
          ("max_lat", "53.5"); ("max_lon", "-2.2") ])%list
    [comment_tag].

(** A [<changeset>] element without a bounding box. *)
Definition elem_no_bbox : Xml.element :=
  Xml.Element "changeset" (common_attrib "102") [comment_tag].

Definition osm (elements : list Xml.element) : Xml.element :=
  Xml.Element "osm" [("version", "0.6")] elements.

Definition stamp : Calendar.timestamp :=
  Calendar.mkTimestamp 2024 3 14 10 30 0 0.

(** A row of the relation with the given bounding box, [None] for NULL. *)
Definition sql_row_of (a b c d : option Q) : Duck.sql_row :=
  {| Duck.q_id := 101; Duck.q_uid := 7; Duck.q_username := "mmann1123";
     Duck.q_created_at := stamp;
     Duck.q_min_lon := a; Duck.q_min_lat := b;
     Duck.q_max_lon := c; Duck.q_max_lat := d;
     Duck.q_num_changes := Some 12;
     Duck.q_tags := Some [("comment", "mapping")] |}.

(** The row of the DataFrame for it. *)
Definition row_of (a b c d : option Q) : Duck.row :=
  Duck.fetchdf_row (sql_row_of a b c d).

(** A full page: a hundred changesets around Manchester. *)
Definition page_full : Xml.element := osm (repeat elem_manchester 100).

Definition batch_full : list Rest.changeset :=
  repeat (record 101 (Some bbox_manchester)) 100.

(** A short page: one changeset without a bounding box. *)
Definition page_short : Xml.element := osm [elem_no_bbox].

Definition sql_row_manchester : Duck.sql_row :=
  sql_row_of (Some (-2.3)%Q) (Some 53.4%Q) (Some (-2.2)%Q) (Some 53.5%Q).

Definition row_manchester : Duck.row :=
  row_of (Some (-2.3)%Q) (Some 53.4%Q) (Some (-2.2)%Q) (Some 53.5%Q).

(** The record the bulk fetcher builds from [row_manchester]. *)
Definition duck_manchester : Duck.changeset :=
  Duck.mkChangeset 101 "mmann1123" 7
    (Duck.Num (Geo.midpoint (-2.3) (-2.2)))
    (Duck.Num (Geo.midpoint 53.4 53.5))
    12 "Other" "2024-03-14T10:30:00" "mapping".

(** A row of the relation whose bounding box is NULL, and the record the
    bulk fetcher builds from it. *)
Definition sql_row_no_box : Duck.sql_row := sql_row_of None None None None.

Definition duck_no_box : Duck.changeset :=
  Duck.mkChangeset 101 "mmann1123" 7 Duck.NaN Duck.NaN
    12 "Other" "2024-03-14T10:30:00" "mapping".

(** A row of the relation whose change count is NULL. *)
Definition sql_row_no_count : Duck.sql_row :=
  {| Duck.q_id := 103; Duck.q_uid := 7; Duck.q_username := "mmann1123";
     Duck.q_created_at := stamp;
     Duck.q_min_lon := Some 12.4%Q; Duck.q_min_lat := Some 41.8%Q;
     Duck.q_max_lon := Some 12.6%Q; Duck.q_max_lat := Some 42.0%Q;
     Duck.q_num_changes := None;
     Duck.q_tags := None |}.

(** The floats 12.4, 41.8, 12.6 and 42.0, and the box around Rome they
    make. *)
Definition f64_box_rome : F64.BBox :=
  {| F64.min_lon := S754_finite false 6980579422424269 (-49);
     F64.min_lat := S754_finite false 5882827013252710 (-47);
     F64.max_lon := S754_finite false 7093169413108531 (-49);
     F64.max_lat := S754_finite false 5910974510923776 (-47) |}.

(** The floats 12.5 and 41.9. *)
Definition f64_center_rome : F64.Point :=
  {| F64.lon := S754_finite false 7036874417766400 (-49);
     F64.lat := S754_finite false 5896900762088243 (-47) |}.

(** The float 1.7e308, and the box whose four coordinates are that
    float. *)
Definition f64_huge : F64.float := S754_finite false 8517715530038134 971.

Definition f64_box_huge : F64.BBox :=
  {| F64.min_lon := f64_huge; F64.min_lat := f64_huge;
     F64.max_lon := f64_huge; F64.max_lat := f64_huge |}.

(** A REST record without a bounding box, with the given identifier and
    timestamp. *)
Definition stamped (id : Z) (ts : string) : Rest.changeset :=
  {| Rest.cs_id := id;
     Rest.user := Some "mmann1123";
     Rest.uid := 7;
     Rest.created_at := Some ts;
     Rest.closed_at := None;
     Rest.cs_open := false;
     Rest.changes_count := 1;
     Rest.comments_count := 0;
     Rest.bbox := None;
     Rest.center := None;
     Rest.tags := None;
     Rest.city := None |}.

(** A [<changeset>] element around Rome whose timestamp is no date. *)
Definition elem_bad_stamp : Xml.element :=
  Xml.Element "changeset"
    [ ("id", "7"); ("uid", "7"); ("created_at", "soon");
      ("min_lon", "12.4"); ("min_lat", "41.8");
      ("max_lon", "12.6"); ("max_lat", "42.0") ] [].

(** The record [main] holds for [elem_bad_stamp]. *)
Definition record_bad_stamp : Rest.changeset :=
  {| Rest.cs_id := 7;
     Rest.user := None;
     Rest.uid := 7;
     Rest.created_at := Some "soon";
     Rest.closed_at := None;
     Rest.cs_open := false;
     Rest.changes_count := 0;
     Rest.comments_count := 0;
     Rest.bbox := Some bbox_rome;
     Rest.center := Some (Rest.bbox_center bbox_rome);
     Rest.tags := None;
     Rest.city := Some (Some "Rome, IT") |}.

(** A [<changeset>] element with two comments and a tag without value. *)
Definition elem_two_comments : Xml.element :=
  Xml.Element "changeset" [("id", "8"); ("uid", "7")]
    [ Xml.Element "tag" [("k", "comment"); ("v", "first")] [];
      Xml.Element "tag" [("k", "source")] [];
      Xml.Element "tag" [("k", "comment"); ("v", "second")] [] ].

End Ex.

(* ================================================================== *)
(** * Part II: theorems                                                *)
(* ================================================================== *)

(** ** Containment *)

Lemma in_box_spec (box : Geo.city_box) (lon lat : Q) :
  Geo.in_box box lon lat = true <-> Geo.In_box box lon lat.
Proof.
  destruct box as [[[a b] c] d]; unfold Geo.in_box, Geo.In_box.
  rewrite !andb_true_iff, !Qle_bool_iff. tauto.
Qed.

Lemma in_box_false (box : Geo.city_box) (lon lat : Q) :
  Geo.in_box box lon lat = false <-> ~ Geo.In_box box lon lat.
Proof.
  rewrite <- in_box_spec. destruct (Geo.in_box box lon lat); split; congruence.
Qed.

(** In exact arithmetic the midpoint lies between its arguments. *)
Lemma midpoint_between (lo hi : Q) :
  (lo <= hi -> lo <= Geo.midpoint lo hi /\ Geo.midpoint lo hi <= hi)%Q.
Proof.
  intros H. unfold Geo.midpoint. split.
  - apply Qle_shift_div_l; lra.
  - apply Qle_shift_div_r; lra.
Qed.

Lemma in_box_true_intro (box : Geo.city_box) (lon lat : Q) :
  Geo.In_box box lon lat -> Geo.in_box box lon lat = true.
Proof. apply in_box_spec. Qed.

(** ** The classifier *)

Lemma classify_in_cons (name : string) (box : Geo.city_box)
      (rest : Geo.city_table) (lon lat : Q) :
  Rest.classify_in ((name, box) :: rest) lon lat
  = if Geo.in_box box lon lat then name else Rest.classify_in rest lon lat.
Proof. reflexivity. Qed.

Lemma classify_in_first (cities pre post : Geo.city_table)
      (name : string) (box : Geo.city_box) (lon lat : Q) :
  cities = (pre ++ (name, box) :: post)%list ->
  (forall n b, In (n, b) pre -> ~ Geo.In_box b lon lat) ->
  Geo.In_box box lon lat ->
  Rest.classify_in cities lon lat = name.
Proof.
  intros -> Hpre Hbox. induction pre as [|[n b] pre IH]; simpl.
  - now rewrite (in_box_true_intro _ _ _ Hbox).
  - assert (Hb : Geo.in_box b lon lat = false).
    { apply in_box_false. apply (Hpre n b). now left. }
    rewrite Hb. apply IH. intros n' b' Hin. apply (Hpre n' b'). now right.
Qed.

Lemma classify_in_none (cities : Geo.city_table) (lon lat : Q) :
  (forall n b, In (n, b) cities -> ~ Geo.In_box b lon lat) ->
  Rest.classify_in cities lon lat = "Other".
Proof.
  induction cities as [|[n b] cities IH]; intros H; simpl.
  - reflexivity.
  - assert (Hb : Geo.in_box b lon lat = false).
    { apply in_box_false. apply (H n b). now left. }
    rewrite Hb. apply IH. intros n' b' Hin. apply (H n' b'). now right.
Qed.

(** The loop of the bulk fetcher, with its [break], computes what the loop
    of the REST fetcher computes with its [return], on any table. *)
Lemma duck_in_box_num (box : Geo.city_box) (lon lat : Q) :
  Duck.in_box box (Duck.Num lon) (Duck.Num lat) = Geo.in_box box lon lat.
Proof. destruct box as [[[a b] c] d]. reflexivity. Qed.

Lemma city_scan_classify_in (cities : Geo.city_table) (lon lat : Q) :
  Duck.city_scan cities "Other" (Duck.Num lon) (Duck.Num lat)
  = Rest.classify_in cities lon lat.
Proof.
  induction cities as [|[n b] cities IH];
    cbn [Duck.city_scan Rest.classify_in].
  - reflexivity.
  - now rewrite IH, duck_in_box_num.
Qed.

(** No box holds a point one of whose coordinates is [NaN]. *)
Lemma duck_in_box_nan (box : Geo.city_box) (lon lat : Duck.float) :
  lon = Duck.NaN \/ lat = Duck.NaN -> Duck.in_box box lon lat = false.
Proof.
  destruct box as [[[a b] c] d]. intros [-> | ->]; cbn [Duck.in_box Duck.le].
  - reflexivity.
  - destruct lon; cbn [Duck.le]; rewrite ?andb_false_r; reflexivity.
Qed.

Lemma city_scan_nan (cities : Geo.city_table) (city : string)
      (lon lat : Duck.float) :
  lon = Duck.NaN \/ lat = Duck.NaN ->
  Duck.city_scan cities city lon lat = city.
Proof.
  intros H. induction cities as [|[n b] cities IH]; cbn [Duck.city_scan].
  - reflexivity.
  - now rewrite (duck_in_box_nan b lon lat H).
Qed.

(** C1.  For a changeset that has a centroid, [classify_changeset_location]
    returns the name of the first city of [CITIES], in the order of the
    table, whose box holds the centroid
    ([min_lon <= lon <= max_lon] and [min_lat <= lat <= max_lat]); when no
    box holds it, the label is ['Other']. *)
Theorem classify_first_match (cs : Rest.changeset) (c : Rest.Point) :
  Rest.center cs = Some c ->
  (forall pre name box post,
      Rest.CITIES = (pre ++ (name, box) :: post)%list ->
      (forall n b, In (n, b) pre -> ~ Geo.In_box b (Rest.lon c) (Rest.lat c)) ->
      Geo.In_box box (Rest.lon c) (Rest.lat c) ->
      Rest.classify_changeset_location cs = Some name)
  /\ ((forall n b, In (n, b) Rest.CITIES ->
                   ~ Geo.In_box b (Rest.lon c) (Rest.lat c)) ->
      Rest.classify_changeset_location cs = Some "Other").
Proof.
  intros Hc. unfold Rest.classify_changeset_location. rewrite Hc. split.
  - intros pre name box post Heq Hpre Hbox. f_equal.
    exact (classify_in_first _ pre post name box _ _ Heq Hpre Hbox).
  - intros Hnone. f_equal. now apply classify_in_none.
Qed.

Lemma classify_first_match_witness :
  Rest.center (Ex.record 1 (Some Ex.bbox_rome))
  = Some (Rest.bbox_center Ex.bbox_rome)
  /\ Rest.classify_changeset_location (Ex.record 1 (Some Ex.bbox_rome))
     = Some "Rome, IT".
Proof.
  split; [reflexivity|].
  apply (proj1 (classify_first_match (Ex.record 1 (Some Ex.bbox_rome))
                                     (Rest.bbox_center Ex.bbox_rome) eq_refl)
               [] "Rome, IT" (12.23, 41.65, 12.85, 42.10)%Q (tl Rest.CITIES)).
  - reflexivity.
  - intros n b [].
  - apply in_box_spec. reflexivity.
Defined.

(** ** The centroid in floating-point arithmetic

    The sum of two floats and the half of a float are each the result of
    one rounding.  The proof follows the rounding algorithm: the shifts
    keep track of the exact value ([located]), the rounded mantissa is one
    of the two neighbours of the exact value on the grid of its size
    ([rounds_to]), and no float lies strictly between these neighbours
    ([faithful]).  Since the doubles of the two coordinates are on that
    grid on either side of the exact sum, the rounded sum stays between
    them, and so does its half between the coordinates. *)

(** *** Powers of two, mantissas and exponents *)

Lemma fexp_eq (d : Z) : fexp F64.prec F64.emax d = Z.max (d - 53) (-1074).
Proof. reflexivity. Qed.

Lemma digits2_pos_bounds (m : positive) :
  2 ^ (Zpos (digits2_pos m) - 1) <= Zpos m < 2 ^ Zpos (digits2_pos m).
Proof.
  induction m as [p IH|p IH|]; cbn [digits2_pos].
  - rewrite Pos2Z.inj_succ.
    replace (Z.succ (Z.pos (digits2_pos p)) - 1)
      with (Z.succ (Z.pos (digits2_pos p) - 1)) by lia.
    rewrite !Z.pow_succ_r by lia. lia.
  - rewrite Pos2Z.inj_succ.
    replace (Z.succ (Z.pos (digits2_pos p)) - 1)
      with (Z.succ (Z.pos (digits2_pos p) - 1)) by lia.
    rewrite !Z.pow_succ_r by lia. lia.
  - cbn. lia.
Qed.

Lemma pow2_pos (n : Z) : 0 <= n -> 0 < 2 ^ n.
Proof. intros H. apply Z.pow_pos_nonneg; lia. Qed.

Lemma pow2_le (a b : Z) : 0 <= a <= b -> 2 ^ a <= 2 ^ b.
Proof. intros H. apply Z.pow_le_mono_r; lia. Qed.

Lemma pow2_lt (a b : Z) : 0 <= a < b -> 2 ^ a < 2 ^ b.
Proof. intros H. apply Z.pow_lt_mono_r; lia. Qed.

Lemma pow2_lt_inv (a b : Z) : 0 <= a -> 0 <= b -> 2 ^ a < 2 ^ b -> a < b.
Proof.
  intros Ha Hb H. destruct (Z.lt_ge_cases a b) as [|Hge]; [assumption|].
  pose proof (pow2_le b a). lia.
Qed.

(** What [bounded] says of a mantissa and its exponent. *)
Lemma bounded_inv (m : positive) (e : Z) :
  bounded F64.prec F64.emax m e = true ->
  -1074 <= e <= 971
  /\ Zpos m < 2 ^ 53
  /\ (-1074 < e -> 2 ^ 52 <= Zpos m).
Proof.
  unfold bounded, canonical_mantissa. rewrite fexp_eq.
  intros H. apply andb_true_iff in H. destruct H as [Hc He].
  apply Z.eqb_eq in Hc. apply Z.leb_le in He.
  change (F64.emax - F64.prec) with 971 in He.
  pose proof (digits2_pos_bounds m) as [Hlo Hhi].
  set (d := Zpos (digits2_pos m)) in *.
  assert (Hd : 1 <= d) by (unfold d; lia).
  split; [lia|]. split.
  - assert (d <= 53) by lia.
    pose proof (pow2_le d 53). lia.
  - intros Hgt. assert (d = 53) by lia.
    replace (d - 1) with 52 in Hlo by lia. exact Hlo.
Qed.

Lemma bounded_intro (m : positive) (e : Z) :
  -1074 <= e <= 971 -> Zpos m < 2 ^ 53 -> (-1074 < e -> 2 ^ 52 <= Zpos m) ->
  bounded F64.prec F64.emax m e = true.
Proof.
  intros He Hm Hn. unfold bounded, canonical_mantissa. rewrite fexp_eq.
  apply andb_true_iff. split; [|apply Z.leb_le; change (F64.emax - F64.prec) with 971; lia].
  apply Z.eqb_eq.
  pose proof (digits2_pos_bounds m) as [Hlo Hhi].
  set (d := Zpos (digits2_pos m)) in *.
  assert (Hd : 1 <= d) by (unfold d; lia).
  assert (Hd53 : d <= 53).
  { destruct (Z.le_gt_cases d 53) as [|Hgt]; [assumption|].
    pose proof (pow2_le 53 (d - 1)). lia. }
  destruct (Z.eq_dec e (-1074)) as [->|Hne]; [lia|].
  assert (2 ^ 52 <= Zpos m) by (apply Hn; lia).
  assert (52 < d) by (apply pow2_lt_inv; lia).
  lia.
Qed.

(** *** The order of the floats *)

(** Of two floats in normal form, the one with the smaller exponent is the
    smaller. *)
Lemma mag_lt_of_exp (m1 m2 : positive) (e1 e2 : Z) :
  bounded F64.prec F64.emax m1 e1 = true ->
  bounded F64.prec F64.emax m2 e2 = true ->
  e1 < e2 ->
  Zpos m1 * 2 ^ (e1 + 1075) < Zpos m2 * 2 ^ (e2 + 1075).
Proof.
  intros H1 H2 Hlt.
  destruct (bounded_inv _ _ H1) as (He1 & Hm1 & _).
  destruct (bounded_inv _ _ H2) as (He2 & _ & Hm2).
  assert (Hm2' : 2 ^ 52 <= Zpos m2) by (apply Hm2; lia).
  pose proof (pow2_pos (e1 + 1075)) as HP.
  pose proof (pow2_le (e1 + 1076) (e2 + 1075)) as HQ.
  replace (e1 + 1076) with (Z.succ (e1 + 1075)) in HQ by lia.
  rewrite Z.pow_succ_r in HQ by lia.
  set (P := 2 ^ (e1 + 1075)) in *. set (Q := 2 ^ (e2 + 1075)) in *.
  assert (0 < P) by lia. assert (2 * P <= Q) by lia.
  change (2 ^ 53) with (2 * 2 ^ 52) in Hm1.
  set (c := 2 ^ 52) in *. assert (0 < c) by (unfold c; lia).
  assert (Zpos m1 * P < 2 * c * P) by nia.
  assert (c * (2 * P) <= Zpos m2 * Q) by nia.
  lia.
Qed.

Lemma units_pos (m : positive) (e : Z) :
  -1075 <= e -> 0 < Zpos m * 2 ^ (e + 1075).
Proof.
  intros He. pose proof (pow2_pos (e + 1075)). nia.
Qed.

(** [<=] on floats that are neither infinite nor [NaN] is the order of
    their values. *)
Lemma leb_units (x y : F64.float) :
  F64.fin_valid x -> F64.fin_valid y ->
  (F64.leb x y = true <-> F64.units x <= F64.units y).
Proof.
  intros [Hvx Hfx] [Hvy Hfy]. unfold F64.leb, SFleb.
  destruct x as [sx|sx| |sx mx ex]; try discriminate;
    destruct y as [sy|sy| |sy my ey]; try discriminate;
    cbn [SFcompare F64.units].
  - split; intros Hh; try reflexivity; try discriminate; lia.
  - pose proof (bounded_inv _ _ Hvy) as (He & _).
    pose proof (units_pos my ey). destruct sy; cbn [cond_Zopp]; split;
      try discriminate; try reflexivity; lia.
  - pose proof (bounded_inv _ _ Hvx) as (He & _).
    pose proof (units_pos mx ex). destruct sx; cbn [cond_Zopp]; split;
      try discriminate; try reflexivity; lia.
  - pose proof (bounded_inv _ _ Hvx) as (Hex & _).
    pose proof (bounded_inv _ _ Hvy) as (Hey & _).
    pose proof (units_pos mx ex). pose proof (units_pos my ey).
    change (Pos.compare_cont Eq mx my) with (Pos.compare mx my).
    destruct sx, sy; cbn [cond_Zopp].
    + (* both negative *)
      destruct (Z.compare_spec ex ey) as [->|Hlt|Hgt].
      * pose proof (pow2_pos (ey + 1075)).
        destruct (Pos.compare_spec mx my) as [->|Hm|Hm]; cbn [CompOpp];
          split; intros Hh; try discriminate; try reflexivity; try lia;
          nia.
      * pose proof (mag_lt_of_exp _ _ _ _ Hvx Hvy Hlt).
        split; intros Hh; try reflexivity; try discriminate; lia.
      * assert (Hlt : ey < ex) by lia.
        pose proof (mag_lt_of_exp _ _ _ _ Hvy Hvx Hlt).
        split; intros Hh; try reflexivity; try discriminate; lia.
    + split; intros Hh; try reflexivity; try discriminate; lia.
    + split; intros Hh; try reflexivity; try discriminate; lia.
    + destruct (Z.compare_spec ex ey) as [->|Hlt|Hgt].
      * pose proof (pow2_pos (ey + 1075)).
        destruct (Pos.compare_spec mx my) as [->|Hm|Hm];
          split; intros Hh; try discriminate; try reflexivity; try lia;
          nia.
      * pose proof (mag_lt_of_exp _ _ _ _ Hvx Hvy Hlt).
        split; intros Hh; try reflexivity; try discriminate; lia.
      * assert (Hlt : ey < ex) by lia.
        pose proof (mag_lt_of_exp _ _ _ _ Hvy Hvx Hlt).
        split; intros Hh; try reflexivity; try discriminate; lia.
Qed.

(** *** Shifting a mantissa to the right *)

Lemma pow2_succ (n : Z) : 0 <= n -> 2 ^ (n + 1) = 2 * 2 ^ n.
Proof. intros H. replace (n + 1) with (Z.succ n) by lia. now rewrite Z.pow_succ_r. Qed.

Lemma pow2_pred (n : Z) : 1 <= n -> 2 ^ n = 2 * 2 ^ (n - 1).
Proof. intros H. rewrite <- pow2_succ by lia. f_equal. lia. Qed.

Lemma pow2_add (a b : Z) : 0 <= a -> 0 <= b -> 2 ^ (a + b) = 2 ^ a * 2 ^ b.
Proof. intros. now apply Z.pow_add_r. Qed.

Lemma divmod_unique (a d q r : Z) :
  0 <= r < d -> a = d * q + r -> a / d = q /\ a mod d = r.
Proof.
  intros Hr Ha. split.
  - symmetry. apply (Z.div_unique a d q r); [left; exact Hr|exact Ha].
  - symmetry. apply (Z.mod_unique a d q r); [left; exact Hr|exact Ha].
Qed.

Lemma located_exact (n m : Z) :
  1 <= n -> F64.located n (m * 2 ^ n) (Build_shr_record m false false).
Proof.
  intros Hn. pose proof (pow2_pos n) as Hp. pose proof (pow2_pos (n - 1)).
  unfold F64.located. cbn [shr_m shr_r shr_s].
  rewrite Z.div_mul, Z.mod_mul by lia.
  split; [reflexivity|]. split; [|reflexivity].
  symmetry. apply Z.leb_gt. lia.
Qed.

Lemma shr_1_shape (m : Z) (r s : bool) :
  0 <= m ->
  shr_1 (Build_shr_record m r s)
  = Build_shr_record (m / 2) (m mod 2 =? 1) (r || s).
Proof.
  intros Hm. destruct m as [|p|p]; [reflexivity| |lia].
  destruct p as [p|p|].
  - destruct (divmod_unique (Zpos p~1) 2 (Zpos p) 1) as [-> ->]; [lia|lia|].
    reflexivity.
  - destruct (divmod_unique (Zpos p~0) 2 (Zpos p) 0) as [-> ->]; [lia|lia|].
    reflexivity.
  - reflexivity.
Qed.

(** One shift to the right moves the cut one bit up. *)
Lemma located_shr_1 (n V : Z) (mrs : shr_record) :
  1 <= n -> 0 <= V -> F64.located n V mrs -> F64.located (n + 1) V (shr_1 mrs).
Proof.
  intros Hn HV (Hm & Hr & Hs).
  pose proof (pow2_pos (n - 1)) as Hh. pose proof (pow2_pred n Hn) as Hp.
  pose proof (pow2_succ n) as Hp'.
  destruct mrs as [mm r s]. cbn [shr_m shr_r shr_s] in Hm, Hr, Hs.
  assert (Hm0 : 0 <= mm) by (subst mm; apply Z.div_pos; lia).
  rewrite (shr_1_shape mm r s Hm0).
  unfold F64.located. cbn [shr_m shr_r shr_s].
  replace (n + 1 - 1) with n by lia.
  set (h := 2 ^ (n - 1)) in *. set (P := 2 ^ n) in *.
  set (P' := 2 ^ (n + 1)) in *.
  assert (HP : 0 < P) by lia.
  pose proof (Z.div_mod V P ltac:(lia)) as Hdm.
  pose proof (Z.mod_pos_bound V P HP) as Hrho.
  rewrite <- Hm in Hdm.
  set (rho := V mod P) in *.
  pose proof (Z.div_mod mm 2 ltac:(lia)) as Hdm2.
  pose proof (Z.mod_pos_bound mm 2 ltac:(lia)) as Hc.
  set (k := mm / 2) in *. set (c := mm mod 2) in *.
  assert (HP' : P' = 2 * P) by (apply Hp'; lia).
  clearbody h P P' rho k c. clear Hp'.
  assert (Hc' : c = 0 \/ c = 1) by lia.
  assert (HV' : V = P' * k + (c * P + rho)) by nia.
  assert (Hb : 0 <= c * P + rho < P') by nia.
  destruct (divmod_unique V P' k (c * P + rho) Hb HV') as [Hq' Hr'].
  assert (Hrs : (r || s) = negb (rho =? 0)).
  { rewrite Hr, Hs. destruct (Z.leb_spec h rho), (Z.eqb_spec rho 0),
      (Z.eqb_spec rho h); cbn; try reflexivity; lia. }
  rewrite Hq', Hr', Hrs. split; [reflexivity|]. split.
  - destruct Hc' as [-> | ->];
      destruct (Z.leb_spec P (0 * P + rho)), (Z.leb_spec P (1 * P + rho));
      try reflexivity; lia.
  - destruct Hc' as [-> | ->];
      destruct (Z.eqb_spec rho 0), (Z.eqb_spec (0 * P + rho) 0),
      (Z.eqb_spec (0 * P + rho) P), (Z.eqb_spec (1 * P + rho) 0),
      (Z.eqb_spec (1 * P + rho) P); cbn; try reflexivity; lia.
Qed.

Lemma located_iter (p : positive) :
  forall (n V : Z) (mrs : shr_record),
    1 <= n -> 0 <= V -> F64.located n V mrs ->
    F64.located (n + Zpos p) V (iter_pos shr_1 p mrs).
Proof.
  induction p as [p IH|p IH|]; intros n V mrs Hn HV H; cbn [iter_pos].
  - replace (n + Zpos p~1) with (n + 1 + Zpos p + Zpos p) by lia.
    apply IH; [lia|lia|]. apply IH; [lia|lia|]. now apply located_shr_1.
  - replace (n + Zpos p~0) with (n + Zpos p + Zpos p) by lia.
    apply IH; [lia|lia|]. now apply IH.
  - now apply located_shr_1.
Qed.

(** [shr] by a count that is not negative. *)
Lemma located_shr (n V k : Z) (mrs : shr_record) (e : Z) :
  1 <= n -> 0 <= V -> 0 <= k -> F64.located n V mrs ->
  exists mrs', shr mrs e k = (mrs', e + k) /\ F64.located (n + k) V mrs'.
Proof.
  intros Hn HV Hk H. destruct k as [|p|p]; [| |lia].
  - exists mrs. cbn [shr]. rewrite !Z.add_0_r. auto.
  - exists (iter_pos shr_1 p mrs). cbn [shr]. split; [reflexivity|].
    now apply located_iter.
Qed.

(** [shr] by a count that is not positive does nothing. *)
Lemma shr_none (mrs : shr_record) (e k : Z) : k <= 0 -> shr mrs e k = (mrs, e).
Proof. intros H. destruct k as [|p|p]; [reflexivity|lia|reflexivity]. Qed.

(** *** The rounding step *)

Lemma shr_m_of_loc (m : Z) (l : location) : shr_m (shr_record_of_loc m l) = m.
Proof. destruct l as [|[]]; reflexivity. Qed.

Lemma Zdigits2_bounds (m : Z) :
  0 < m -> 1 <= Zdigits2 m /\ 2 ^ (Zdigits2 m - 1) <= m < 2 ^ Zdigits2 m.
Proof.
  intros Hm. destruct m as [|p|p]; try lia. cbn [Zdigits2].
  split; [lia|apply digits2_pos_bounds].
Qed.

Lemma round_nearest_even_cases (mrs : shr_record) :
  let m := round_nearest_even (shr_m mrs) (loc_of_shr_record mrs) in
  (m = shr_m mrs \/ m = shr_m mrs + 1)
  /\ (shr_r mrs = false -> shr_s mrs = false -> m = shr_m mrs).
Proof.
  destruct mrs as [m [|] [|]]; cbn [loc_of_shr_record round_nearest_even shr_m shr_r shr_s].
  - split; [now right|discriminate].
  - split; [destruct (Z.even m); auto|discriminate].
  - split; [now left|discriminate].
  - split; [now left|reflexivity].
Qed.

Lemma div_pow2_bounds (V g c : Z) :
  0 <= g -> 0 <= c -> 0 <= V ->
  (V < 2 ^ (g + c) -> V / 2 ^ g < 2 ^ c)
  /\ (2 ^ (g + c) <= V -> 2 ^ c <= V / 2 ^ g).
Proof.
  intros Hg Hc HV. rewrite pow2_add by lia.
  pose proof (pow2_pos g Hg). pose proof (pow2_pos c Hc). split; intros H1.
  - apply Z.div_lt_upper_bound; lia.
  - apply Z.div_le_lower_bound; lia.
Qed.

(** [binary_round_aux], given a mantissa that holds the exact value [V] cut
    no higher than the last bit of a float of that size: it returns the
    float of a neighbour of [V] on the grid of that size, of [V] itself
    when [V] is on the grid, or an infinity when that neighbour is out of
    range. *)
Lemma bra_spec (s : bool) (mx ex : Z) (lx : location) (V : Z) :
  0 <= V -> -1074 <= ex ->
  F64.located (ex + 1075) V (shr_record_of_loc mx lx) ->
  ex <= fexp F64.prec F64.emax (Zdigits2 mx + ex) ->
  exists g R,
    F64.rounds_to V g R
    /\ F64.result s R (binary_round_aux F64.prec F64.emax s mx ex lx).
Proof.
  intros HV Hex Hloc Hpre.
  assert (Hmx : mx = V / 2 ^ (ex + 1075)).
  { destruct Hloc as (H & _). now rewrite shr_m_of_loc in H. }
  pose proof (pow2_pos (ex + 1075) ltac:(lia)) as Hpn.
  assert (Hmx0 : 0 <= mx) by (subst mx; apply Z.div_pos; lia).
  pose proof (Z.div_mod V (2 ^ (ex + 1075)) ltac:(lia)) as Hdm.
  pose proof (Z.mod_pos_bound V (2 ^ (ex + 1075)) Hpn) as Hrho.
  rewrite <- Hmx in Hdm.
  (* the first shift *)
  unfold binary_round_aux, shr_fexp.
  rewrite fexp_eq in *.
  set (d := Zdigits2 mx) in *.
  set (k1 := Z.max (d + ex - 53) (-1074) - ex).
  assert (Hk1 : 0 <= k1) by (unfold k1; lia).
  destruct (located_shr (ex + 1075) V k1 (shr_record_of_loc mx lx) ex
              ltac:(lia) HV Hk1 Hloc) as (mrs' & -> & Hloc').
  set (g := ex + 1075 + k1) in *. set (e' := ex + k1).
  assert (Hg : g = e' + 1075) by (unfold g, e'; lia).
  assert (G1 : 1 <= g) by (unfold g; lia).
  pose proof (pow2_pos g ltac:(lia)) as Hpg.
  (* the grid *)
  assert (Hd : (mx = 0 /\ d = 0)
               \/ (0 < mx /\ 1 <= d /\ 2 ^ (d - 1) <= mx < 2 ^ d)).
  { destruct (Z.eq_dec mx 0) as [E|E].
    - left. split; [exact E|]. unfold d. now rewrite E.
    - right. split; [lia|]. apply Zdigits2_bounds. lia. }
  assert (G2 : V < 2 ^ (g + 53)).
  { assert (Hlt : V < 2 ^ (d + (ex + 1075))).
    { destruct Hd as [[H0 Hd0]|(Hpos & Hd1 & Hlo & Hhi)].
      - rewrite Hd0, Z.add_0_l. lia.
      - rewrite pow2_add by lia. nia. }
    assert (Hd0 : 0 <= d) by (destruct Hd as [[_ ->]|(_ & ? & _)]; lia).
    pose proof (pow2_le (d + (ex + 1075)) (g + 53)
                  ltac:(unfold g, k1; lia)). lia. }
  assert (G3 : g = 1 \/ 2 ^ (g + 52) <= V).
  { destruct (Z.eq_dec g 1) as [|Hne]; [now left|right].
    destruct Hd as [[H0 Hd0]|(Hpos & Hd1 & Hlo & Hhi)].
    - exfalso. unfold g, k1 in Hne, G1. lia.
    - assert (Hgd : g + 52 = (d - 1) + (ex + 1075))
        by (unfold g, k1 in *; lia).
      rewrite Hgd, pow2_add by lia. nia. }
  destruct Hloc' as (Hm1 & Hr1 & Hs1).
  pose proof (Z.div_mod V (2 ^ g) ltac:(lia)) as Hdm1.
  pose proof (Z.mod_pos_bound V (2 ^ g) Hpg) as Hrho1.
  rewrite <- Hm1 in Hdm1.
  destruct (div_pow2_bounds V g 53 ltac:(lia) ltac:(lia) HV) as [Hup _].
  specialize (Hup G2). rewrite <- Hm1 in Hup.
  assert (Hm10 : 0 <= shr_m mrs') by (rewrite Hm1; apply Z.div_pos; lia).
  assert (Hnorm : g <> 1 -> 2 ^ 52 <= shr_m mrs').
  { intros Hne. destruct G3 as [|G3]; [contradiction|].
    destruct (div_pow2_bounds V g 52 ltac:(lia) ltac:(lia) HV) as [_ Hlo].
    rewrite Hm1. now apply Hlo. }
  (* rounding *)
  destruct (round_nearest_even_cases mrs') as [Hm2 Hexact].
  cbv zeta in Hm2, Hexact.
  set (m2 := round_nearest_even (shr_m mrs') (loc_of_shr_record mrs')) in *.
  assert (Hex2 : V mod 2 ^ g = 0 -> m2 = shr_m mrs').
  { intros H0. apply Hexact.
    - rewrite Hr1, H0. apply Z.leb_gt. apply pow2_pos. lia.
    - rewrite Hs1, H0. reflexivity. }
  cbn [shr_record_of_loc].
  set (m1 := shr_m mrs') in *.
  clearbody m2 m1. clear Hexact Hr1 Hs1 Hloc.
  fold e'. rewrite ?fexp_eq.
  exists g.
  destruct (Z.eq_dec m2 0) as [Hz|Hnz].
  - (* the F64.result is zero *)
    subst m2. cbn [Zdigits2].
    rewrite shr_none by lia. cbn [shr_m].
    exists 0. split; [|left; auto].
    assert (m1 = 0) by lia. subst m1.
    repeat split; try assumption.
    + left. lia.
    + intros H0. lia.
  - destruct (Z.lt_ge_cases m2 (2 ^ 53)) as [Hsmall|Hbig].
    + (* no carry *)
      assert (Hm2pos : 0 < m2) by lia.
      destruct (Zdigits2_bounds m2 Hm2pos) as (Hd2 & Hlo2 & Hhi2).
      assert (Hd53 : Zdigits2 m2 <= 53).
      { destruct (Z.le_gt_cases (Zdigits2 m2) 53) as [|Hgt]; [assumption|].
        pose proof (pow2_le 53 (Zdigits2 m2 - 1) ltac:(lia)). lia. }
      rewrite shr_none by lia. cbn [shr_m].
      destruct m2 as [|p|p]; try lia.
      exists (Zpos p * 2 ^ g). split.
      { repeat split; try assumption.
        - rewrite <- Hm1. destruct Hm2 as [->| ->]; auto.
        - intros H0. rewrite (Hex2 H0). lia. }
      assert (Hn' : -1074 < e' -> 2 ^ 52 <= Zpos p).
      { intros Hgt. assert (2 ^ 52 <= m1) by (apply Hnorm; lia). lia. }
      destruct (Z.leb_spec e' (F64.emax - F64.prec)) as [Hle|Hgt].
      * right. left. exists p, e'. split; [reflexivity|].
        split; [|now rewrite Hg].
        change (F64.emax - F64.prec) with 971 in Hle.
        apply bounded_intro; [lia|exact Hsmall|exact Hn'].
      * right. right. split; [|reflexivity].
        change (F64.emax - F64.prec) with 971 in Hgt.
        assert (H52 : 2 ^ 52 <= Zpos p) by (apply Hn'; lia).
        pose proof (pow2_le 2047 g ltac:(lia)) as Hpw.
        change (2 ^ 2099) with (2 ^ 52 * 2 ^ 2047).
        set (A := 2 ^ 2047) in *. set (B := 2 ^ g) in *.
        set (c := 2 ^ 52) in *.
        assert (0 < A) by (unfold A; apply pow2_pos; lia).
        assert (0 < c) by (unfold c; apply pow2_pos; lia).
        clearbody A B c. nia.
    + (* the mantissa carried into a new bit *)
      assert (Hm2e : m2 = 2 ^ 53) by lia.
      assert (Hm1e : m2 = m1 + 1) by lia.
      rewrite Hm2e.
      change (Zdigits2 (2 ^ 53)) with 54.
      replace (Z.max (54 + e' - 53) (-1074) - e') with 1 by lia.
      change (shr {| shr_m := 2 ^ 53; shr_r := false; shr_s := false |} e' 1)
        with ({| shr_m := 2 ^ 52; shr_r := false; shr_s := false |}, e' + 1).
      cbn [shr_m].
      exists (2 ^ 53 * 2 ^ g). split.
      { repeat split; try assumption.
        - right. rewrite <- Hm1. f_equal. lia.
        - intros H0. specialize (Hex2 H0). lia. }
      change (2 ^ 52) with (Zpos 4503599627370496).
      cbv iota beta.
      destruct (Z.leb_spec (e' + 1) (F64.emax - F64.prec)) as [Hle|Hgt].
      * right. left. exists 4503599627370496%positive, (e' + 1).
        split; [reflexivity|].
        change (F64.emax - F64.prec) with 971 in Hle.
        split; [apply bounded_intro; [lia|reflexivity|intros _; discriminate]|].
        replace (e' + 1 + 1075) with (g + 1) by lia.
        rewrite pow2_succ by lia.
        change (2 ^ 53) with (2 * Zpos 4503599627370496). lia.
      * right. right. split; [|reflexivity].
        change (F64.emax - F64.prec) with 971 in Hgt.
        pose proof (pow2_le 2046 g ltac:(lia)) as Hpw.
        change (2 ^ 2099) with (2 ^ 53 * 2 ^ 2046).
        set (A := 2 ^ 2046) in *. set (B := 2 ^ g) in *.
        set (c := 2 ^ 53) in *.
        assert (0 < c) by (unfold c; apply pow2_pos; lia).
        clearbody A B c. nia.
Qed.

(** *** No float between the two neighbours *)

(** A float above the lower neighbour of [V] is on the grid of [V]. *)
Lemma grid_multiple (V g T : Z) :
  0 <= V -> 1 <= g -> (g = 1 \/ 2 ^ (g + 52) <= V) ->
  F64.representable T -> V / 2 ^ g * 2 ^ g < T ->
  exists c, T = c * 2 ^ g.
Proof.
  intros HV G1 G3 (m & j & -> & Hj & Hm) Hgt.
  pose proof (pow2_pos g ltac:(lia)) as HP.
  pose proof (pow2_pos j ltac:(lia)) as HJ.
  assert (Hq0 : 0 <= V / 2 ^ g) by (apply Z.div_pos; lia).
  assert (Hjg : g <= j).
  { destruct G3 as [->|G3]; [lia|].
    destruct (div_pow2_bounds V g 52 ltac:(lia) ltac:(lia) HV) as [_ Hlo].
    specialize (Hlo G3).
    assert (H1 : 2 ^ (g + 52) < 2 ^ (53 + j)).
    { rewrite !pow2_add by lia.
      set (P := 2 ^ g) in *. set (J := 2 ^ j) in *.
      set (q := V / P) in *. set (c52 := 2 ^ 52) in *.
      change (2 ^ 53) with (2 * 2 ^ 52) in *. fold c52 in Hm |- *.
      assert (0 < c52) by (unfold c52; apply pow2_pos; lia).
      clearbody P J q c52. nia. }
    apply pow2_lt_inv in H1; lia. }
  exists (m * 2 ^ (j - g)).
  rewrite <- Z.mul_assoc, <- pow2_add by lia. do 2 f_equal. lia.
Qed.

(** A rounded value is not passed by any float: a float below the exact
    value is not above the rounded one, and a float above the exact value
    is not below the rounded one. *)
Lemma faithful (V g R T : Z) :
  0 <= V -> F64.rounds_to V g R -> F64.representable T ->
  (T <= V -> T <= R) /\ (V <= T -> R <= T).
Proof.
  intros HV (G1 & G2 & G3 & HR & Hex) HT.
  pose proof (pow2_pos g ltac:(lia)) as HP.
  pose proof (Z.div_mod V (2 ^ g) ltac:(lia)) as Hdm.
  pose proof (Z.mod_pos_bound V (2 ^ g) HP) as Hrho.
  pose proof (grid_multiple V g T HV G1 G3 HT) as Hgrid.
  assert (Hq0 : 0 <= V / 2 ^ g) by (apply Z.div_pos; lia).
  set (P := 2 ^ g) in *. set (q := V / P) in *. set (rho := V mod P) in *.
  clearbody P q rho.
  assert (Hup : q * P < T -> (q + 1) * P <= T).
  { intros H. destruct (Hgrid H) as (c & ->).
    assert (Hqc : q < c) by (apply (Z.mul_lt_mono_pos_r P); lia).
    apply Z.mul_le_mono_nonneg_r; lia. }
  split; intros H.
  - destruct (Z.le_gt_cases T (q * P)) as [Hle|Hgt].
    + destruct HR as [-> | ->]; nia.
    + specialize (Hup Hgt). nia.
  - destruct (Z.eq_dec rho 0) as [H0|Hne].
    + rewrite (Hex H0). exact H.
    + assert (Hgt : q * P < T) by nia. specialize (Hup Hgt).
      destruct HR as [-> | ->]; nia.
Qed.

(** The value of a valid float is F64.representable. *)
Lemma representable_units (s : bool) (m : positive) (e : Z) :
  bounded F64.prec F64.emax m e = true ->
  F64.representable (Zpos m * 2 ^ (e + 1075)).
Proof.
  intros H. destruct (bounded_inv _ _ H) as (He & Hm & _).
  exists (Zpos m), (e + 1075). repeat split; lia.
Qed.

Lemma representable_0 : F64.representable 0.
Proof. exists 0, 1. repeat split; lia. Qed.

Lemma representable_double (T : Z) : F64.representable T -> F64.representable (2 * T).
Proof.
  intros (m & j & -> & Hj & Hm). exists m, (j + 1).
  rewrite pow2_succ by lia. repeat split; lia.
Qed.

(** *** The sum *)

Lemma pos_iter_xO (m d : positive) :
  Zpos (Pos.iter xO m d) = Zpos m * 2 ^ Zpos d
  /\ Zpos (digits2_pos (Pos.iter xO m d)) = Zpos (digits2_pos m) + Zpos d.
Proof.
  induction d as [|d IH] using Pos.peano_ind.
  - cbn [Pos.iter digits2_pos]. rewrite Pos2Z.inj_succ. split; lia.
  - rewrite Pos.iter_succ. cbn [digits2_pos].
    rewrite !Pos2Z.inj_succ, Z.pow_succ_r by lia.
    destruct IH as [IH1 IH2]. split; lia.
Qed.

(** [shl_align] towards a smaller exponent keeps the value. *)
Lemma shl_align_spec (m : positive) (e e' : Z) :
  exists mz ez,
    shl_align m e e' = (mz, ez)
    /\ ez = Z.min e e'
    /\ Zpos mz = Zpos m * 2 ^ (e - ez)
    /\ Zpos (digits2_pos mz) + ez = Zpos (digits2_pos m) + e.
Proof.
  unfold shl_align. destruct (e' - e) as [|d|d] eqn:E.
  - exists m, e. replace (Z.min e e') with e by lia.
    rewrite Z.sub_diag. repeat split; lia.
  - exists m, e. replace (Z.min e e') with e by lia.
    rewrite Z.sub_diag. repeat split; lia.
  - exists (Pos.iter xO m d), e'. replace (Z.min e e') with e' by lia.
    destruct (pos_iter_xO m d) as [H1 H2].
    replace (e - e') with (Zpos d) by lia. repeat split; lia.
Qed.

(** [binary_round] of an exact mantissa and exponent. *)
Lemma binary_round_spec (s : bool) (p : positive) (e : Z) :
  -1074 <= e ->
  exists g R,
    F64.rounds_to (Zpos p * 2 ^ (e + 1075)) g R
    /\ F64.result s R (binary_round F64.prec F64.emax s p e).
Proof.
  intros He. unfold binary_round.
  destruct (shl_align_spec p e
              (fexp F64.prec F64.emax (Zpos (digits2_pos p) + e)))
    as (mz & ez & -> & Hez & Hmz & Hdig).
  rewrite fexp_eq in Hez.
  assert (HV : Zpos p * 2 ^ (e + 1075) = Zpos mz * 2 ^ (ez + 1075)).
  { rewrite Hmz, <- Z.mul_assoc, <- pow2_add by lia. do 2 f_equal. lia. }
  rewrite HV. apply bra_spec.
  - pose proof (pow2_pos (ez + 1075) ltac:(lia)). nia.
  - lia.
  - apply (located_exact (ez + 1075) (Zpos mz)). lia.
  - rewrite fexp_eq. cbn [Zdigits2]. lia.
Qed.

(** A F64.result, read as a float. *)
Lemma result_float (sgn : bool) (V g R : Z) (f : F64.float) :
  0 <= V -> F64.rounds_to V g R -> F64.result sgn R f ->
  F64.valid f = true
  /\ f <> S754_nan
  /\ (F64.is_finite f = true ->
      F64.units f = cond_Zopp sgn R
      /\ forall T, F64.representable (Z.abs T) ->
           (T <= cond_Zopp sgn V -> T <= F64.units f)
           /\ (cond_Zopp sgn V <= T -> F64.units f <= T)).
Proof.
  intros HV Hround Hres.
  assert (HR0 : 0 <= R).
  { destruct Hround as (G1 & _ & _ & HR & _).
    pose proof (pow2_pos g ltac:(lia)).
    assert (0 <= V / 2 ^ g) by (apply Z.div_pos; lia).
    destruct HR as [-> | ->]; nia. }
  assert (Hf : forall T, F64.representable (Z.abs T) ->
                 (T <= cond_Zopp sgn V -> T <= cond_Zopp sgn R)
                 /\ (cond_Zopp sgn V <= T -> cond_Zopp sgn R <= T)).
  { intros T HT.
    destruct (faithful V g R (Z.abs T) HV Hround HT) as [Hle Hge].
    destruct sgn; cbn [cond_Zopp]; split; intros H; lia. }
  destruct Hres as [[-> ->]|[(m & e & -> & Hb & ->)|[Hov ->]]].
  - split; [reflexivity|]. split; [discriminate|]. intros _.
    cbn [F64.units]. split; [destruct sgn; reflexivity|].
    intros T HT. destruct (Hf T HT) as [H1 H2].
    destruct sgn; cbn [cond_Zopp] in *; split; lia.
  - split; [exact Hb|]. split; [discriminate|]. intros _.
    cbn [F64.units]. split; [reflexivity|exact Hf].
  - split; [reflexivity|]. split; [discriminate|]. discriminate.
Qed.

Lemma units_finite (s : bool) (m : positive) (e : Z) :
  F64.units (S754_finite s m e) = cond_Zopp s (Zpos m * 2 ^ (e + 1075)).
Proof. reflexivity. Qed.

(** The sum of two floats: it is valid, it is no [NaN], and when it is
    finite no F64.representable value lies between it and the exact sum. *)
Lemma add_faithful (x y : F64.float) :
  F64.fin_valid x -> F64.fin_valid y ->
  F64.valid (F64.add x y) = true
  /\ F64.add x y <> S754_nan
  /\ (F64.is_finite (F64.add x y) = true ->
      forall T, F64.representable (Z.abs T) ->
        (T <= F64.units x + F64.units y -> T <= F64.units (F64.add x y))
        /\ (F64.units x + F64.units y <= T -> F64.units (F64.add x y) <= T)).
Proof.
  intros [Hvx Hfx] [Hvy Hfy].
  destruct x as [sx|sx| |sx mx ex]; try discriminate;
    destruct y as [sy|sy| |sy my ey]; try discriminate.
  - (* zero, zero *)
    assert (Hz : exists s, F64.add (S754_zero sx) (S754_zero sy) = S754_zero s)
      by (destruct sx, sy; eexists; reflexivity).
    destruct Hz as (s & ->). split; [reflexivity|]. split; [discriminate|].
    intros _ T _. cbn [F64.units]. lia.
  - change (F64.add (S754_zero sx) (S754_finite sy my ey))
      with (S754_finite sy my ey).
    split; [exact Hvy|]. split; [discriminate|].
    intros _ T _. cbn [F64.units]. lia.
  - change (F64.add (S754_finite sx mx ex) (S754_zero sy))
      with (S754_finite sx mx ex).
    split; [exact Hvx|]. split; [discriminate|].
    intros _ T _. cbn [F64.units]. lia.
  - (* finite, finite *)
    destruct (bounded_inv _ _ Hvx) as (Hex & _).
    destruct (bounded_inv _ _ Hvy) as (Hey & _).
    unfold F64.add, SFadd.
    destruct (shl_align_spec mx ex (Z.min ex ey))
      as (mx' & ex' & -> & Hex' & Hmx' & _).
    destruct (shl_align_spec my ey (Z.min ex ey))
      as (my' & ey' & -> & Hey' & Hmy' & _).
    cbn [fst].
    set (ez := Z.min ex ey) in *.
    assert (Hex'' : ex' = ez) by lia. assert (Hey'' : ey' = ez) by lia.
    clear Hex' Hey'. subst ex' ey'.
    set (M := cond_Zopp sx (Zpos mx') + cond_Zopp sy (Zpos my')).
    assert (HX : F64.units (S754_finite sx mx ex)
                 + F64.units (S754_finite sy my ey)
                 = M * 2 ^ (ez + 1075)).
    { rewrite !units_finite. unfold M. rewrite Hmx', Hmy'.
      replace (ex + 1075) with ((ex - ez) + (ez + 1075)) by lia.
      replace (ey + 1075) with ((ey - ez) + (ez + 1075)) by lia.
      rewrite (pow2_add (ex - ez) (ez + 1075)),
        (pow2_add (ey - ez) (ez + 1075)) by lia.
      destruct sx, sy; cbn [cond_Zopp]; ring. }
    rewrite HX.
    pose proof (pow2_pos (ez + 1075) ltac:(lia)) as HP.
    destruct M as [|p|p] eqn:EM; cbn [binary_normalize].
    + split; [reflexivity|]. split; [discriminate|].
      intros _ T _. cbn [F64.units]. lia.
    + destruct (binary_round_spec false p ez ltac:(lia))
        as (g & R & Hround & Hres).
      assert (HV : 0 <= Zpos p * 2 ^ (ez + 1075)) by nia.
      destruct (result_float false _ g R _ HV Hround Hres)
        as (Hv & Hn & Hfin).
      split; [exact Hv|]. split; [exact Hn|]. intros Hf.
      destruct (Hfin Hf) as [_ Hfaith]. exact Hfaith.
    + destruct (binary_round_spec true p ez ltac:(lia))
        as (g & R & Hround & Hres).
      assert (HV : 0 <= Zpos p * 2 ^ (ez + 1075)) by nia.
      destruct (result_float true _ g R _ HV Hround Hres)
        as (Hv & Hn & Hfin).
      split; [exact Hv|]. split; [exact Hn|]. intros Hf.
      destruct (Hfin Hf) as [_ Hfaith].
      cbn [cond_Zopp] in Hfaith.
      replace (Zneg p * 2 ^ (ez + 1075))
        with (- (Zpos p * 2 ^ (ez + 1075))) by lia.
      exact Hfaith.
Qed.

(** *** The half *)

Lemma div_eucl_pair (a b : Z) : Z.div_eucl a b = (a / b, a mod b).
Proof.
  unfold Z.div, Z.modulo. destruct (Z.div_eucl a b); reflexivity.
Qed.

(** The quotient of a mantissa by the one of [2.0], as [SFdiv] hands it to
    the rounding step: it holds half the value of the dividend. *)
Lemma div_core_two (mx : positive) (ex : Z) :
  bounded F64.prec F64.emax mx ex = true ->
  exists q e' l,
    SFdiv_core_binary F64.prec F64.emax (Zpos mx) ex
                      (Zpos 4503599627370496) (-51)
    = (q, e', l)
    /\ -1074 <= e'
    /\ F64.located (e' + 1075) (Zpos mx * 2 ^ (ex + 1074))
               (shr_record_of_loc q l)
    /\ e' <= fexp F64.prec F64.emax (Zdigits2 q + e').
Proof.
  intros Hb. destruct (bounded_inv _ _ Hb) as (Hex & Hm53 & _).
  pose proof (digits2_pos_bounds mx) as [Hlo Hhi].
  unfold SFdiv_core_binary. rewrite fexp_eq.
  change (Zdigits2 (Zpos 4503599627370496)) with 53.
  cbn [Zdigits2].
  set (d1 := Zpos (digits2_pos mx)) in *.
  assert (Hd1 : 1 <= d1 <= 53).
  { split; [unfold d1; lia|].
    destruct (Z.le_gt_cases d1 53) as [|Hgt]; [assumption|].
    pose proof (pow2_le 53 (d1 - 1) ltac:(lia)). lia. }
  set (e' := Z.min (Z.max (d1 + ex - (53 + -51) - 53) (-1074)) (ex - -51)).
  assert (He' : e' = Z.max (d1 + ex - 55) (-1074)) by (unfold e'; lia).
  set (s := ex - -51 - e').
  assert (Hs : 0 < s) by (unfold s; lia).
  destruct s as [|ps|ps] eqn:Es; try lia.
  rewrite Z.shiftl_mul_pow2 by lia. rewrite <- Es.
  rewrite div_eucl_pair.
  set (c := Zpos 4503599627370496).
  assert (Hc : c = 2 ^ 52) by reflexivity.
  assert (Hc0 : 0 < c) by (unfold c; lia).
  set (m' := Zpos mx * 2 ^ s).
  pose proof (pow2_pos s ltac:(lia)) as Hps.
  assert (Hm'0 : 0 <= m') by (unfold m'; nia).
  pose proof (Z.div_mod m' c ltac:(lia)) as Hdm.
  pose proof (Z.mod_pos_bound m' c Hc0) as Hr.
  assert (Hq0 : 0 <= m' / c) by (apply Z.div_pos; lia).
  set (q := m' / c) in *. set (r := m' mod c) in *.
  exists q, e', (new_location c r). split; [reflexivity|].
  split; [lia|].
  set (n := e' + 1075). assert (Hn : 1 <= n) by (unfold n; lia).
  set (V := Zpos mx * 2 ^ (ex + 1074)).
  pose proof (pow2_pos n ltac:(lia)) as HN.
  pose proof (pow2_pos (n - 1) ltac:(lia)) as Hh.
  pose proof (pow2_pred n Hn) as HNh.
  assert (Hrel : m' * 2 ^ n = V * c).
  { unfold m', V. rewrite Hc, <- !Z.mul_assoc, <- !pow2_add by lia.
    do 2 f_equal. unfold n, s. lia. }
  set (N := 2 ^ n) in *. set (h := 2 ^ (n - 1)) in *.
  set (rho := V - q * N).
  assert (Hrho : rho * c = r * N) by (unfold rho; nia).
  assert (Hrho0 : 0 <= rho < N).
  { split.
    - apply (Z.mul_le_mono_pos_r _ _ c Hc0). nia.
    - apply (Z.mul_lt_mono_pos_r c); [exact Hc0|]. nia. }
  destruct (divmod_unique V N q rho Hrho0 ltac:(unfold rho; lia))
    as [HVq HVr].
  assert (Hcmp : forall k, (k < 2 * r <-> k * N < 2 * rho * c)
                           /\ (2 * r < k <-> 2 * rho * c < k * N)).
  { intros k. rewrite <- Z.mul_assoc, Hrho. split; split; intros H; nia. }
  assert (Hr0 : r = 0 <-> rho = 0) by nia.
  assert (Hlt : 2 * r < c <-> rho < h) by nia.
  assert (Heq : 2 * r = c <-> rho = h) by nia.
  split.
  - unfold F64.located. rewrite shr_m_of_loc. fold N h. rewrite HVq, HVr.
    split; [reflexivity|].
    unfold new_location. change (Z.even c) with true. cbv iota.
    unfold new_location_even.
    destruct (Z.eqb_spec r 0) as [E0|E0].
    + assert (rho = 0) by tauto. subst rho.
      cbn [shr_record_of_loc shr_r shr_s].
      replace (V - q * N) with 0 by lia. split.
      * symmetry. apply Z.leb_gt. lia.
      * reflexivity.
    + assert (Hn0 : rho <> 0) by tauto.
      destruct (Z.compare_spec (2 * r) c) as [E|E|E];
        cbn [shr_record_of_loc shr_r shr_s].
      * assert (Hrh : rho = h) by tauto. rewrite Hrh. split.
        -- symmetry. apply Z.leb_le. lia.
        -- rewrite Z.eqb_refl, orb_true_r. reflexivity.
      * assert (Hrh : rho < h) by tauto. split.
        -- symmetry. apply Z.leb_gt. lia.
        -- destruct (Z.eqb_spec rho 0), (Z.eqb_spec rho h);
             try reflexivity; lia.
      * assert (Hrh : h < rho) by lia. split.
        -- symmetry. apply Z.leb_le. lia.
        -- destruct (Z.eqb_spec rho 0), (Z.eqb_spec rho h);
             try reflexivity; lia.
  - rewrite fexp_eq.
    destruct (Z.eq_dec e' (-1074)) as [E|E]; [lia|].
    assert (He'' : e' = d1 + ex - 55) by lia.
    assert (Hs' : s = 106 - d1) by (unfold s; lia).
    assert (Hq52 : 2 ^ 52 <= q).
    { unfold q. apply Z.div_le_lower_bound; [lia|].
      rewrite Hc. unfold m'. rewrite Hs'.
      change (2 ^ 52 * 2 ^ 52) with (2 ^ 104).
      assert (H105 : 2 ^ 105 = 2 ^ (d1 - 1) * 2 ^ (106 - d1)).
      { rewrite <- pow2_add by lia. f_equal. lia. }
      pose proof (pow2_pos (106 - d1) ltac:(lia)).
      assert (2 ^ 104 <= 2 ^ 105) by (apply pow2_le; lia). nia. }
    destruct (Zdigits2_bounds q ltac:(lia)) as (Hdq & _ & Hqhi).
    assert (52 < Zdigits2 q) by (apply pow2_lt_inv; lia).
    lia.
Qed.

(** Half of a float: it is a valid finite float, and no F64.representable
    value lies between it and the exact half. *)
Lemma div_two_faithful (x : F64.float) :
  F64.fin_valid x ->
  F64.fin_valid (F64.div x F64.two)
  /\ forall T, F64.representable (Z.abs T) ->
       (2 * T <= F64.units x -> T <= F64.units (F64.div x F64.two))
       /\ (F64.units x <= 2 * T -> F64.units (F64.div x F64.two) <= T).
Proof.
  intros [Hv Hf]. destruct x as [sx|sx| |sx mx ex]; try discriminate.
  - change (F64.div (S754_zero sx) F64.two) with (S754_zero (xorb sx false)).
    split; [split; reflexivity|]. intros T _. cbn [F64.units]. lia.
  - destruct (bounded_inv _ _ Hv) as (Hex & Hm53 & _).
    destruct (div_core_two mx ex Hv) as (q & e' & l & Hcore & He' & Hloc & Hpre).
    unfold F64.div, SFdiv, F64.two. rewrite Hcore. rewrite xorb_false_r.
    set (V := Zpos mx * 2 ^ (ex + 1074)) in *.
    pose proof (pow2_pos (ex + 1074) ltac:(lia)) as HP.
    assert (HV : 0 <= V) by (unfold V; nia).
    destruct (bra_spec sx q e' l V HV He' Hloc Hpre)
      as (g & R & Hround & Hres).
    (* the half of a finite float is finite *)
    assert (Hsmall : R < 2 ^ 2099).
    { assert (Hrep : F64.representable (2 ^ 52 * 2 ^ 2046)).
      { exists (2 ^ 52), 2046. repeat split; lia. }
      destruct (faithful V g R _ HV Hround Hrep) as [_ Hle].
      assert (HVle : V <= 2 ^ 52 * 2 ^ 2046).
      { unfold V. pose proof (pow2_le (ex + 1074) 2045 ltac:(lia)) as Hpw.
        change (2 ^ 2046) with (2 * 2 ^ 2045).
        change (2 ^ 53) with (2 * 2 ^ 52) in Hm53.
        set (A := 2 ^ 2045) in *. set (B := 2 ^ (ex + 1074)) in *.
        set (c := 2 ^ 52) in *.
        assert (0 < c) by (unfold c; apply pow2_pos; lia).
        clearbody A B c. nia. }
      specialize (Hle HVle).
      change (2 ^ 2099) with (2 * (2 ^ 52 * 2 ^ 2046)).
      set (A := 2 ^ 52 * 2 ^ 2046) in *.
      assert (0 < A) by (unfold A; apply Z.mul_pos_pos; apply pow2_pos; lia).
      clearbody A. lia. }
    destruct (result_float sx V g R _ HV Hround Hres) as (Hvh & Hn & Hfin).
    assert (Hfh : F64.is_finite (binary_round_aux F64.prec F64.emax sx q e' l)
                  = true).
    { destruct Hres as [[_ ->]|[(m & e & -> & _)|[Hov _]]];
        [reflexivity|reflexivity|lia]. }
    split; [split; assumption|].
    destruct (Hfin Hfh) as [_ Hfaith].
    assert (HX : F64.units (S754_finite sx mx ex) = 2 * cond_Zopp sx V).
    { cbn [F64.units]. unfold V.
      replace (ex + 1075) with (ex + 1074 + 1) by lia.
      rewrite pow2_succ by lia. destruct sx; cbn [cond_Zopp]; lia. }
    rewrite HX. intros T HT. destruct (Hfaith T HT) as [H1 H2].
    split; intros H; [apply H1|apply H2]; lia.
Qed.

(** *** The midpoint *)

Lemma add_finite_args (x y : F64.float) :
  F64.is_finite (F64.add x y) = true ->
  F64.is_finite x = true /\ F64.is_finite y = true.
Proof.
  destruct x as [sx|sx| |sx mx ex], y as [sy|sy| |sy my ey];
    try (split; reflexivity); try discriminate.
  destruct sx, sy; discriminate.
Qed.

Lemma representable_abs_units (x : F64.float) :
  F64.fin_valid x -> F64.representable (Z.abs (F64.units x)).
Proof.
  intros [Hv Hf]. destruct x as [sx|sx| |sx mx ex]; try discriminate.
  - apply representable_0.
  - destruct (bounded_inv _ _ Hv) as (He & _).
    pose proof (units_pos mx ex ltac:(lia)).
    cbn [F64.units]. 
    replace (Z.abs (cond_Zopp sx (Zpos mx * 2 ^ (ex + 1075))))
      with (Zpos mx * 2 ^ (ex + 1075))
      by (destruct sx; cbn [cond_Zopp]; lia).
    now apply (representable_units sx).
Qed.

(** The midpoint of two floats lies between them, when their sum is
    finite. *)
Lemma midpoint_between_floats (lo hi : F64.float) :
  F64.valid lo = true -> F64.valid hi = true ->
  F64.leb lo hi = true ->
  F64.is_finite (F64.add lo hi) = true ->
  F64.leb lo (F64.midpoint lo hi) = true
  /\ F64.leb (F64.midpoint lo hi) hi = true.
Proof.
  intros Hvlo Hvhi Hle Hfin.
  destruct (add_finite_args lo hi Hfin) as [Hflo Hfhi].
  assert (Hlo : F64.fin_valid lo) by (split; assumption).
  assert (Hhi : F64.fin_valid hi) by (split; assumption).
  apply (leb_units lo hi Hlo Hhi) in Hle.
  destruct (add_faithful lo hi Hlo Hhi) as (Hvs & _ & Hs).
  specialize (Hs Hfin).
  assert (Hsum : F64.fin_valid (F64.add lo hi)) by (split; assumption).
  destruct (div_two_faithful (F64.add lo hi) Hsum) as (Hmid & Hh).
  fold (F64.midpoint lo hi) in Hmid, Hh.
  pose proof (representable_abs_units lo Hlo) as Hrlo.
  pose proof (representable_abs_units hi Hhi) as Hrhi.
  assert (Hr2lo : F64.representable (Z.abs (2 * F64.units lo))).
  { rewrite Z.abs_mul. now apply representable_double. }
  assert (Hr2hi : F64.representable (Z.abs (2 * F64.units hi))).
  { rewrite Z.abs_mul. now apply representable_double. }
  destruct (Hs _ Hr2lo) as [Hs1 _]. destruct (Hs _ Hr2hi) as [_ Hs2].
  destruct (Hh _ Hrlo) as [Hh1 _]. destruct (Hh _ Hrhi) as [_ Hh2].
  split.
  - apply (leb_units lo _ Hlo Hmid). apply Hh1. apply Hs1. lia.
  - apply (leb_units _ hi Hmid Hhi). apply Hh2. apply Hs2. lia.
Qed.

(** The claim of C3 fails where the sum overflows.  Every coordinate of the
    box is the float 1.7e308: the sum of two of them rounds to infinity, so
    does its half, and the centroid lies above the maxima of the box. *)
Lemma centroid_overflows :
  F64.well_formed Ex.f64_box_huge = true
  /\ F64.leb (F64.min_lon Ex.f64_box_huge) (F64.max_lon Ex.f64_box_huge)
     = true
  /\ F64.leb (F64.min_lat Ex.f64_box_huge) (F64.max_lat Ex.f64_box_huge)
     = true
  /\ F64.bbox_center Ex.f64_box_huge
     = {| F64.lon := S754_infinity false; F64.lat := S754_infinity false |}
  /\ F64.leb (F64.lon (F64.bbox_center Ex.f64_box_huge))
             (F64.max_lon Ex.f64_box_huge) = false
  /\ F64.within Ex.f64_box_huge (F64.bbox_center Ex.f64_box_huge) = false.
Proof. repeat split; reflexivity. Qed.

(** C3, amended.  The centroid of a bounding box lies within the box when
    the coordinates of the box are floats whose minima do not exceed their
    maxima and neither sum [min_lon + max_lon], [min_lat + max_lat]
    overflows.  The sums and their halves are rounded as binary64 rounds
    them. *)
Theorem centroid_within_bbox (b : F64.BBox) :
  F64.well_formed b = true ->
  F64.leb (F64.min_lon b) (F64.max_lon b) = true ->
  F64.leb (F64.min_lat b) (F64.max_lat b) = true ->
  F64.is_finite (F64.add (F64.min_lon b) (F64.max_lon b)) = true ->
  F64.is_finite (F64.add (F64.min_lat b) (F64.max_lat b)) = true ->
  F64.within b (F64.bbox_center b) = true.
Proof.
  unfold F64.well_formed. intros Hwf Hlon Hlat Hflon Hflat.
  apply andb_true_iff in Hwf. destruct Hwf as [H1 H2].
  apply andb_true_iff in H1. destruct H1 as [Hv1 Hv2].
  apply andb_true_iff in H2. destruct H2 as [Hv3 Hv4].
  destruct (midpoint_between_floats _ _ Hv1 Hv3 Hlon Hflon) as [Ha Hb].
  destruct (midpoint_between_floats _ _ Hv2 Hv4 Hlat Hflat) as [Hc Hd].
  unfold F64.within, F64.bbox_center. cbn [F64.lon F64.lat].
  now rewrite Ha, Hb, Hc, Hd.
Qed.

Lemma centroid_within_bbox_witness :
  F64.bbox_center Ex.f64_box_rome = Ex.f64_center_rome
  /\ F64.within Ex.f64_box_rome (F64.bbox_center Ex.f64_box_rome) = true.
Proof.
  split; [reflexivity|].
  apply (centroid_within_bbox Ex.f64_box_rome); reflexivity.
Defined.

(** ** Outcomes *)

Lemma bind_return_inv {A B : Type} (m : outcome A) (k : A -> outcome B)
      (b : B) :
  bind m k = Return b -> exists a, m = Return a /\ k a = Return b.
Proof.
  destruct m as [a| |]; simpl; intros H; try discriminate. now exists a.
Qed.

Lemma bind_settled {A B : Type} (m : outcome A) (k : A -> outcome B) :
  m <> Blocked -> (forall a, k a <> Blocked) -> bind m k <> Blocked.
Proof.
  intros Hm Hk. destruct m as [a| |]; simpl.
  - apply Hk.
  - discriminate.
  - now contradiction Hm.
Qed.

Lemma of_option_settled {A : Type} (o : option A) : of_option o <> Blocked.
Proof. destruct o; discriminate. Qed.

Ltac bind_inv H :=
  let a := fresh "v" in
  let Ha := fresh "Hv" in
  apply bind_return_inv in H; destruct H as (a & Ha & H).

(** ** Centroid and bounding box of a record *)

Section ParseFacts.
Variable py_int : string -> option Z.
Variable py_float : string -> option Q.

Lemma parse_changeset_shape (e : Xml.element) (cs : Rest.changeset) :
  Rest.parse_changeset py_int py_float e = Return cs ->
  (Rest.has_bbox e = true
   /\ exists b, Rest.parse_bbox py_float e = Return b
                /\ Rest.bbox cs = Some b
                /\ Rest.center cs = Some (Rest.bbox_center b))
  \/ (Rest.has_bbox e = false
      /\ Rest.bbox cs = None /\ Rest.center cs = None).
Proof.
  unfold Rest.parse_changeset. intros H.
  bind_inv H. bind_inv H. bind_inv H. bind_inv H.
  destruct (Rest.has_bbox e).
  - left. split; [reflexivity|]. bind_inv H.
    injection H as <-. exists v3. simpl. auto.
  - right. injection H as <-. simpl. auto.
Qed.

Lemma parse_changeset_fields (e : Xml.element) (cs : Rest.changeset) :
  Rest.parse_changeset py_int py_float e = Return cs ->
  Rest.created_at cs = Xml.get e "created_at"
  /\ Rest.tags cs = match Rest.parse_tags e with
                    | [] => None
                    | t => Some t
                    end
  /\ Rest.city cs = None.
Proof.
  unfold Rest.parse_changeset. intros H.
  bind_inv H. bind_inv H. bind_inv H. bind_inv H.
  destruct (Rest.has_bbox e).
  - bind_inv H. injection H as <-. simpl.
    destruct (Rest.parse_tags e); auto.
  - injection H as <-. simpl. destruct (Rest.parse_tags e); auto.
Qed.

End ParseFacts.

(** X19.  REST fetcher: a parsed record has the key ['center'] exactly when
    it has the key ['bbox'], which is exactly when the element has a
    non-empty [min_lon] attribute, and the centroid is the one of that
    box. *)
Theorem rest_center_iff_bbox
        (py_int : string -> option Z) (py_float : string -> option Q)
        (e : Xml.element) (cs : Rest.changeset) :
  Rest.parse_changeset py_int py_float e = Return cs ->
  (Rest.center cs <> None <-> Rest.bbox cs <> None)
  /\ (Rest.bbox cs <> None <-> Rest.has_bbox e = true)
  /\ (forall b, Rest.bbox cs = Some b ->
                Rest.center cs = Some (Rest.bbox_center b)).
Proof.
  intros Hp.
  destruct (parse_changeset_shape _ _ _ _ Hp)
    as [(Hb & b & _ & Hbox & Hc) | (Hb & Hbox & Hc)];
    rewrite Hbox, Hc, Hb.
  - split; [split; intros _; discriminate|].
    split; [split; intros _; [reflexivity | discriminate]|].
    intros b' [= <-]. reflexivity.
  - split; [split; congruence|]. split; [split; congruence|]. intros b' [=].
Qed.

Lemma rest_center_iff_bbox_witness :
  (Rest.bbox (Ex.record 101 (Some Ex.bbox_manchester)) <> None
   <-> Rest.has_bbox Ex.elem_manchester = true)
  /\ Rest.center (Ex.record 101 (Some Ex.bbox_manchester))
     = Some (Rest.bbox_center Ex.bbox_manchester)
  /\ (Rest.center (Ex.record 102 None) <> None
      <-> Rest.bbox (Ex.record 102 None) <> None)
  /\ (Rest.bbox (Ex.record 102 None) <> None
      <-> Rest.has_bbox Ex.elem_no_bbox = true).
Proof.
  destruct (rest_center_iff_bbox Lib.py_int Lib.py_float
              Ex.elem_manchester (Ex.record 101 (Some Ex.bbox_manchester))
              eq_refl) as (_ & H2 & H3).
  destruct (rest_center_iff_bbox Lib.py_int Lib.py_float
              Ex.elem_no_bbox (Ex.record 102 None) eq_refl)
    as (H4 & H5 & _).
  split; [exact H2|]. split; [exact (H3 Ex.bbox_manchester eq_refl)|].
  exact (conj H4 H5).
Defined.

(** The cells of a row that [fetchdf] delivers are never [None]. *)
Lemma fetchdf_cell_not_None (A : Type) (o : option A) :
  Duck.is_not_None (Duck.fetchdf_cell o) = true.
Proof. destruct o; reflexivity. Qed.

Lemma center_of_fetchdf (lo hi : option Q) :
  Duck.center_of (Duck.fetchdf_cell lo) (Duck.fetchdf_cell hi)
  = Return (null_midpoint lo hi).
Proof. destruct lo, hi; reflexivity. Qed.

Lemma changes_of_value (n : Z) : Duck.changes_of (Duck.Value n) = Return n.
Proof.
  cbn [Duck.changes_of]. destruct (Z.eqb_spec n 0) as [->|]; reflexivity.
Qed.

(** What the loop body does with a row of the DataFrame that [fetchdf]
    built. *)
Lemma process_row_fetchdf (q : Duck.sql_row) :
  Duck.process_row (Duck.fetchdf_row q)
  = match Duck.q_num_changes q with
    | Some n =>
        Return (Some
          {| Duck.cs_id := Duck.q_id q;
             Duck.user := Duck.q_username q;
             Duck.uid := Duck.q_uid q;
             Duck.lon := null_midpoint (Duck.q_min_lon q) (Duck.q_max_lon q);
             Duck.lat := null_midpoint (Duck.q_min_lat q) (Duck.q_max_lat q);
             Duck.changes_count := n;
             Duck.city :=
               Duck.classify
                 (null_midpoint (Duck.q_min_lon q) (Duck.q_max_lon q))
                 (null_midpoint (Duck.q_min_lat q) (Duck.q_max_lat q));
             Duck.created_at := Calendar.isoformat (Duck.q_created_at q);
             Duck.comment := Duck.comment_of (Duck.q_tags q) |})
    | None => Raise
    end.
Proof.
  unfold Duck.process_row.
  cbn [Duck.fetchdf_row Duck.r_min_lon Duck.r_min_lat Duck.r_max_lon
       Duck.r_max_lat Duck.r_num_changes Duck.r_id Duck.r_uid
       Duck.r_username Duck.r_created_at Duck.r_tags].
  rewrite !fetchdf_cell_not_None, !center_of_fetchdf. cbn [andb bind].
  destruct (Duck.q_num_changes q) as [n|]; cbn [Duck.fetchdf_cell].
  - rewrite changes_of_value. reflexivity.
  - reflexivity.
Qed.

(** C6.  The bulk fetcher computes a centroid for a row without a bounding
    box.  In the DataFrame a NULL of a numeric column is the missing-value
    marker, not [None], so the test of line 97 holds for every row that
    [fetchdf] delivers: no row is skipped, and where a coordinate of the
    box is NULL the centroid coordinate is [NaN].  A record with a [NaN]
    centroid is labelled ['Other']. *)
Theorem bulk_row_without_bbox_gets_a_centroid
        (q : Duck.sql_row) (n : Z) :
  Duck.q_num_changes q = Some n ->
  exists d,
    Duck.process_row (Duck.fetchdf_row q) = Return (Some d)
    /\ Duck.lon d = null_midpoint (Duck.q_min_lon q) (Duck.q_max_lon q)
    /\ Duck.lat d = null_midpoint (Duck.q_min_lat q) (Duck.q_max_lat q)
    /\ (Duck.q_min_lon q = None \/ Duck.q_max_lon q = None ->
        Duck.lon d = Duck.NaN /\ Duck.city d = "Other")
    /\ (Duck.q_min_lat q = None \/ Duck.q_max_lat q = None ->
        Duck.lat d = Duck.NaN /\ Duck.city d = "Other").
Proof.
  intros Hn. rewrite process_row_fetchdf, Hn. eexists.
  split; [reflexivity|]. cbn [Duck.lon Duck.lat Duck.city].
  split; [reflexivity|]. split; [reflexivity|]. split.
  - intros H.
    assert (Hnan : null_midpoint (Duck.q_min_lon q) (Duck.q_max_lon q)
                   = Duck.NaN).
    { destruct H as [-> | ->]; [reflexivity|].
      destruct (Duck.q_min_lon q); reflexivity. }
    split; [exact Hnan|]. unfold Duck.classify. apply city_scan_nan.
    now left.
  - intros H.
    assert (Hnan : null_midpoint (Duck.q_min_lat q) (Duck.q_max_lat q)
                   = Duck.NaN).
    { destruct H as [-> | ->]; [reflexivity|].
      destruct (Duck.q_min_lat q); reflexivity. }
    split; [exact Hnan|]. unfold Duck.classify. apply city_scan_nan.
    now right.
Qed.

Lemma bulk_row_without_bbox_gets_a_centroid_witness :
  Duck.process_row (Duck.fetchdf_row Ex.sql_row_no_box)
  = Return (Some Ex.duck_no_box)
  /\ exists d,
      Duck.process_row (Duck.fetchdf_row Ex.sql_row_no_box) = Return (Some d)
      /\ Duck.lon d = Duck.NaN
      /\ Duck.lat d = Duck.NaN
      /\ Duck.city d = "Other".
Proof.
  split; [reflexivity|].
  destruct (bulk_row_without_bbox_gets_a_centroid Ex.sql_row_no_box 12
              eq_refl) as (d & Hd & _ & _ & Hlon & Hlat).
  exists d. split; [exact Hd|].
  destruct (Hlon (or_introl eq_refl)) as [H1 H2].
  destruct (Hlat (or_introl eq_refl)) as [H3 _].
  auto.
Defined.

(** ** The two fetchers compared *)

Example parse_manchester :
  Rest.parse_changeset Lib.py_int Lib.py_float Ex.elem_manchester
  = Return (Ex.record 101 (Some Ex.bbox_manchester)).
Proof. reflexivity. Qed.

Example one_table_only_names :
  map fst Tables.one_table_only
  = ["Manchester, UK"; "Atlanta, GA"; "Austin, TX"; "Scottsdale, AZ"].
Proof. reflexivity. Qed.

(** The claim of C7 fails on a bounding box around Manchester: the REST
    fetcher labels the record ['Manchester, UK'], the bulk fetcher, whose
    table has no such city, labels it ['Other']. *)
Lemma labels_differ_in_manchester :
  Rest.bbox (Ex.record 101 (Some Ex.bbox_manchester))
  = Some Ex.bbox_manchester
  /\ Duck.process_row Ex.row_manchester = Return (Some Ex.duck_manchester)
  /\ Rest.classify_changeset_location
       (Ex.record 101 (Some Ex.bbox_manchester)) = Some "Manchester, UK"
  /\ Duck.city Ex.duck_manchester = "Other"
  /\ Rest.classify_changeset_location
       (Ex.record 101 (Some Ex.bbox_manchester))
     <> Some (Duck.city Ex.duck_manchester).
Proof.
  split; [reflexivity|]. split; [reflexivity|]. split; [reflexivity|].
  split; [reflexivity|]. discriminate.
Qed.

(** C7, amended.  For a bounding box that both scripts receive, the bulk
    fetcher computes the centroid the REST fetcher computes, and each labels
    it by the same rule, the first box of its own [CITIES] table that holds
    the centroid, else ['Other'].  The two tables differ, so the labels
    agree for every centroid outside the boxes of the cities that only one
    table lists (Manchester, Atlanta, Austin; Scottsdale). *)
Theorem bulk_matches_rest_up_to_tables
        (cs : Rest.changeset) (b : Rest.BBox) (r : Duck.row) :
  Rest.bbox cs = Some b ->
  Rest.center cs = Some (Rest.bbox_center b) ->
  Duck.r_min_lon r = Duck.Value (Rest.min_lon b) ->
  Duck.r_min_lat r = Duck.Value (Rest.min_lat b) ->
  Duck.r_max_lon r = Duck.Value (Rest.max_lon b) ->
  Duck.r_max_lat r = Duck.Value (Rest.max_lat b) ->
  Duck.r_num_changes r <> Duck.Missing ->
  exists d,
    Duck.process_row r = Return (Some d)
    /\ Duck.lon d = Duck.Num (Rest.lon (Rest.bbox_center b))
    /\ Duck.lat d = Duck.Num (Rest.lat (Rest.bbox_center b))
    /\ Rest.classify_changeset_location cs
       = Some (Rest.classify_in Rest.CITIES
                 (Rest.lon (Rest.bbox_center b))
                 (Rest.lat (Rest.bbox_center b)))
    /\ Duck.city d
       = Rest.classify_in Duck.CITIES
           (Rest.lon (Rest.bbox_center b)) (Rest.lat (Rest.bbox_center b))
    /\ ((forall name box,
            In (name, box) Tables.one_table_only ->
            ~ Geo.In_box box (Rest.lon (Rest.bbox_center b))
                         (Rest.lat (Rest.bbox_center b))) ->
        Rest.classify_changeset_location cs = Some (Duck.city d)).
Proof.
  intros Hb Hc H1 H2 H3 H4 Hn. unfold Duck.process_row.
  rewrite H1, H2, H3, H4.
  cbn [Duck.is_not_None andb Duck.center_of bind].
  assert (Hch : exists n, Duck.changes_of (Duck.r_num_changes r) = Return n).
  { destruct (Duck.r_num_changes r); cbn [Duck.changes_of]; eauto.
    congruence. }
  destruct Hch as (n & ->). cbn [bind].
  eexists. split; [reflexivity|].
  cbn [Duck.lon Duck.lat Duck.city].
  change (Rest.lon (Rest.bbox_center b))
    with (Geo.midpoint (Rest.min_lon b) (Rest.max_lon b)).
  change (Rest.lat (Rest.bbox_center b))
    with (Geo.midpoint (Rest.min_lat b) (Rest.max_lat b)).
  set (x := Geo.midpoint (Rest.min_lon b) (Rest.max_lon b)).
  set (y := Geo.midpoint (Rest.min_lat b) (Rest.max_lat b)).
  unfold Rest.classify_changeset_location. rewrite Hc.
  change (Rest.lon (Rest.bbox_center b)) with x.
  change (Rest.lat (Rest.bbox_center b)) with y.
  unfold Duck.classify. rewrite city_scan_classify_in.
  split; [reflexivity|]. split; [reflexivity|]. split; [reflexivity|].
  split; [reflexivity|].
  intros Hout. f_equal.
  assert (Hf : forall name box, In (name, box) Tables.one_table_only ->
                                Geo.in_box box x y = false).
  { intros name box Hin. apply in_box_false. exact (Hout name box Hin). }
  unfold Rest.CITIES, Duck.CITIES. rewrite !classify_in_cons.
  rewrite (Hf "Manchester, UK" (-2.35, 53.35, -2.15, 53.55)%Q)
    by (simpl; auto).
  rewrite (Hf "Atlanta, GA" (-84.55, 33.65, -84.29, 33.89)%Q)
    by (simpl; auto).
  rewrite (Hf "Austin, TX" (-97.95, 30.10, -97.60, 30.50)%Q)
    by (simpl; auto).
  rewrite (Hf "Scottsdale, AZ" (-111.96, 33.40, -111.68, 33.85)%Q)
    by (simpl; auto 6).
  reflexivity.
Qed.

Lemma bulk_matches_rest_up_to_tables_witness :
  exists d,
    Duck.process_row (Ex.row_of (Some 12.4%Q) (Some 41.8%Q)
                                (Some 12.6%Q) (Some 42.0%Q))
    = Return (Some d)
    /\ Duck.lon d = Duck.Num (Rest.lon (Rest.bbox_center Ex.bbox_rome))
    /\ Duck.lat d = Duck.Num (Rest.lat (Rest.bbox_center Ex.bbox_rome))
    /\ Rest.classify_changeset_location (Ex.record 1 (Some Ex.bbox_rome))
       = Some (Duck.city d).
Proof.
  assert (Hn : Duck.r_num_changes (Ex.row_of (Some 12.4%Q) (Some 41.8%Q)
                                             (Some 12.6%Q) (Some 42.0%Q))
               <> Duck.Missing) by discriminate.
  destruct (bulk_matches_rest_up_to_tables
              (Ex.record 1 (Some Ex.bbox_rome)) Ex.bbox_rome
              (Ex.row_of (Some 12.4%Q) (Some 41.8%Q)
                         (Some 12.6%Q) (Some 42.0%Q))
              eq_refl eq_refl eq_refl eq_refl eq_refl eq_refl Hn)
    as (d & Hrow & Hlon & Hlat & _ & _ & Hsame).
  exists d. split; [exact Hrow|]. split; [exact Hlon|]. split; [exact Hlat|].
  apply Hsame. intros name box Hin.
  apply in_box_false. simpl in Hin.
  destruct Hin as [[= <- <-]|[[= <- <-]|[[= <- <-]|[[= <- <-]|[]]]]];
    reflexivity.
Defined.

(** ** The calendar *)

Import CalendarAux.

Lemma all_from_spec f start count :
  all_from f start count = true ->
  forall z, start <= z < start + Z.of_nat count -> f z = true.
Proof.
  revert start. induction count as [|c IH]; intros start H z Hz.
  - simpl in Hz. lia.
  - simpl in H. apply andb_true_iff in H. destruct H as [H0 H1].
    destruct (Z.eq_dec z start) as [->|Hne]; [exact H0|].
    apply (IH (start + 1) H1). lia.
Qed.

Lemma tail_checked (leapyear : bool) (n : Z) :
  0 <= n < 365 + (if leapyear then 1 else 0) -> tail_ok leapyear n = true.
Proof.
  intros Hn. destruct leapyear.
  - apply (all_from_spec (tail_ok true) 0 366); [vm_compute; reflexivity|lia].
  - apply (all_from_spec (tail_ok false) 0 365); [vm_compute; reflexivity|lia].
Qed.

Lemma tail_year (year n : Z) (leapyear : bool) :
  tail year n leapyear = let '(_, m, d) := tail 0 n leapyear in (year, m, d).
Proof. unfold tail. cbv zeta. destruct (_ <? _); reflexivity. Qed.

Lemma days_before_year_split (a b c e : Z) :
  0 <= a -> 0 <= b <= 3 -> 0 <= c <= 24 -> 0 <= e <= 3 ->
  Calendar.days_before_year (400 * a + 100 * b + 4 * c + e + 1)
  = 146097 * a + 36524 * b + 1461 * c + 365 * e.
Proof.
  intros Ha Hb Hc He. unfold Calendar.days_before_year. cbv zeta.
  replace (400 * a + 100 * b + 4 * c + e + 1 - 1)
    with (400 * a + 100 * b + 4 * c + e) by lia.
  replace ((400 * a + 100 * b + 4 * c + e) / 4) with (100 * a + 25 * b + c)
    by (Z.div_mod_to_equations; lia).
  replace ((400 * a + 100 * b + 4 * c + e) / 100) with (4 * a + b)
    by (Z.div_mod_to_equations; lia).
  replace ((400 * a + 100 * b + 4 * c + e) / 400) with a
    by (Z.div_mod_to_equations; lia).
  lia.
Qed.

Lemma is_leap_split (a b c e : Z) :
  0 <= a -> 0 <= b <= 3 -> 0 <= c <= 24 -> 0 <= e <= 3 ->
  Calendar.is_leap (400 * a + 100 * b + 4 * c + e + 1)
  = (e =? 3) && (negb (c =? 24) || (b =? 3)).
Proof.
  intros Ha Hb Hc He. unfold Calendar.is_leap.
  replace ((400 * a + 100 * b + 4 * c + e + 1) mod 4) with ((e + 1) mod 4)
    by (Z.div_mod_to_equations; lia).
  replace ((400 * a + 100 * b + 4 * c + e + 1) mod 100)
    with ((4 * c + e + 1) mod 100) by (Z.div_mod_to_equations; lia).
  replace ((400 * a + 100 * b + 4 * c + e + 1) mod 400)
    with ((100 * b + 4 * c + e + 1) mod 400)
    by (Z.div_mod_to_equations; lia).
  destruct (e =? 3) eqn:E3; destruct (c =? 24) eqn:E24;
    destruct (b =? 3) eqn:Eb; cbn [andb orb negb];
    repeat match goal with
           | |- context [?x mod ?y =? 0] =>
               let E := fresh "E" in destruct (x mod y =? 0) eqn:E
           end; cbn [andb orb negb]; try reflexivity; exfalso;
    repeat match goal with
           | H : (_ =? _) = true |- _ => apply Z.eqb_eq in H
           | H : (_ =? _) = false |- _ => apply Z.eqb_neq in H
           end; Z.div_mod_to_equations; lia.
Qed.

Lemma valid_date_intro (y m d : Z) :
  1 <= y <= Calendar.MAXYEAR -> 1 <= m <= 12 ->
  1 <= d <= Calendar.days_in_month y m ->
  Calendar.valid_date y m d = true.
Proof.
  intros Hy Hm Hd. unfold Calendar.valid_date.
  repeat (apply andb_true_intro; split); apply Z.leb_le; lia.
Qed.

Lemma ord2ymd_sound (n : Z) :
  1 <= n <= Calendar.MAXORDINAL ->
  let '(y, m, d) := Calendar.ord2ymd n in
  Calendar.valid_date y m d = true /\ Calendar.ymd2ord y m d = n.
Proof.
  intros Hn. unfold Calendar.MAXORDINAL in Hn.
  unfold Calendar.ord2ymd. cbv zeta.
  unfold Calendar.DI400Y, Calendar.DI100Y, Calendar.DI4Y.
  set (n400 := (n - 1) / 146097). set (r400 := (n - 1) mod 146097).
  set (n100 := r400 / 36524). set (r100 := r400 mod 36524).
  set (n4 := r100 / 1461). set (r4 := r100 mod 1461).
  set (n1 := r4 / 365). set (r1 := r4 mod 365).
  assert (H400 : n - 1 = 146097 * n400 + r400 /\ 0 <= r400 < 146097)
    by (subst n400 r400; Z.div_mod_to_equations; lia).
  assert (H100 : r400 = 36524 * n100 + r100 /\ 0 <= r100 < 36524)
    by (subst n100 r100; Z.div_mod_to_equations; lia).
  assert (H4 : r100 = 1461 * n4 + r4 /\ 0 <= r4 < 1461)
    by (subst n4 r4; Z.div_mod_to_equations; lia).
  assert (H1 : r4 = 365 * n1 + r1 /\ 0 <= r1 < 365)
    by (subst n1 r1; Z.div_mod_to_equations; lia).
  clearbody n400 r400 n100 r100 n4 r4 n1 r1.
  destruct ((n1 =? 4) || (n100 =? 4)) eqn:Edge.
  - apply orb_true_iff in Edge. rewrite !Z.eqb_eq in Edge.
    assert (Hy : exists a b c,
               0 <= a /\ 0 <= b <= 3 /\ 0 <= c <= 24
               /\ (c <> 24 \/ b = 3)
               /\ n400 * 400 + 1 + n100 * 100 + n4 * 4 + n1 - 1
                  = 400 * a + 100 * b + 4 * c + 3 + 1
               /\ n = 146097 * a + 36524 * b + 1461 * c + 365 * 3 + 366).
    { destruct Edge as [E|E].
      - exists n400, n100, n4. lia.
      - exists n400, 3, 24. lia. }
    destruct Hy as (a & b & c & Ha & Hb & Hc & Hcb & Hyear & Hord).
    rewrite Hyear.
    assert (Hleap : Calendar.is_leap (400 * a + 100 * b + 4 * c + 3 + 1) = true).
    { rewrite is_leap_split by lia. cbn [Z.eqb Pos.eqb andb].
      destruct Hcb as [Hcb|Hcb].
      - apply Z.eqb_neq in Hcb. now rewrite Hcb.
      - apply Z.eqb_eq in Hcb. rewrite Hcb. apply orb_true_r. }
    split.
    + apply valid_date_intro; unfold Calendar.MAXYEAR; try lia.
      unfold Calendar.days_in_month.
      change (Calendar.DAYS_IN_MONTH 12) with 31.
      change (12 =? 2) with false. cbn [andb]. lia.
    + unfold Calendar.ymd2ord, Calendar.days_before_month.
      rewrite Hleap, days_before_year_split by lia.
      change (Calendar.DAYS_BEFORE_MONTH 12) with 334.
      change (2 <? 12) with true. cbn [andb]. lia.
  - apply orb_false_iff in Edge. rewrite !Z.eqb_neq in Edge.
    set (leapyear := (n1 =? 3) && (negb (n4 =? 24) || (n100 =? 3))).
    set (year := n400 * 400 + 1 + n100 * 100 + n4 * 4 + n1).
    change (let '(y, m, d) := tail year r1 leapyear in
            Calendar.valid_date y m d = true /\ Calendar.ymd2ord y m d = n).
    rewrite tail_year.
    assert (Hr : 0 <= r1 < 365 + (if leapyear then 1 else 0))
      by (destruct leapyear; lia).
    pose proof (tail_checked leapyear r1 Hr) as Hok. unfold tail_ok in Hok.
    destruct (tail 0 r1 leapyear) as [[y0 m] d].
    rewrite !andb_true_iff, !Z.leb_le, Z.eqb_eq in Hok.
    destruct Hok as ((((Hm1 & Hm2) & Hd1) & Hd2) & Hsum).
    assert (Hyear : year = 400 * n400 + 100 * n100 + 4 * n4 + n1 + 1)
      by (subst year; lia).
    assert (Hleap : Calendar.is_leap year = leapyear)
      by (rewrite Hyear; apply is_leap_split; lia).
    split.
    + apply valid_date_intro; unfold Calendar.MAXYEAR; try lia.
      unfold Calendar.days_in_month. rewrite Hleap.
      destruct ((m =? 2) && leapyear) eqn:E2.
      * apply andb_true_iff in E2. destruct E2 as [E2 _].
        apply Z.eqb_eq in E2. subst m.
        change (Calendar.DAYS_IN_MONTH 2) with 28 in Hd2 |- *. lia.
      * lia.
    + unfold Calendar.ymd2ord, Calendar.days_before_month.
      rewrite Hleap, Hyear, days_before_year_split by lia. lia.
Qed.

Lemma month_cases (m : Z) :
  1 <= m <= 12 ->
  m = 1 \/ m = 2 \/ m = 3 \/ m = 4 \/ m = 5 \/ m = 6
  \/ m = 7 \/ m = 8 \/ m = 9 \/ m = 10 \/ m = 11 \/ m = 12.
Proof. lia. Qed.

Lemma valid_date_inv (y m d : Z) :
  Calendar.valid_date y m d = true ->
  1 <= y <= Calendar.MAXYEAR /\ 1 <= m <= 12
  /\ 1 <= d <= Calendar.days_in_month y m.
Proof.
  unfold Calendar.valid_date. rewrite !andb_true_iff, !Z.leb_le. tauto.
Qed.

Lemma day_of_year_bound (y m d : Z) :
  1 <= m <= 12 -> 1 <= d <= Calendar.days_in_month y m ->
  1 <= Calendar.days_before_month y m + d
  <= 365 + (if Calendar.is_leap y then 1 else 0).
Proof.
  intros Hm Hd. unfold Calendar.days_in_month in Hd.
  unfold Calendar.days_before_month.
  destruct (Calendar.is_leap y);
    destruct (month_cases m Hm)
      as [->|[->|[->|[->|[->|[->|[->|[->|[->|[->|[->| ->]]]]]]]]]]];
    cbv [Calendar.DAYS_IN_MONTH Calendar.DAYS_BEFORE_MONTH Z.eqb Z.ltb
         Z.compare Pos.compare Pos.compare_cont Pos.eqb andb] in Hd |- *;
    lia.
Qed.

Lemma ymd2ord_range (y m d : Z) :
  Calendar.valid_date y m d = true ->
  1 <= Calendar.ymd2ord y m d <= Calendar.MAXORDINAL.
Proof.
  intros H. apply valid_date_inv in H. destruct H as (Hy & Hm & Hd).
  pose proof (day_of_year_bound y m d Hm Hd) as Hdoy.
  unfold Calendar.MAXYEAR in Hy. unfold Calendar.ymd2ord, Calendar.MAXORDINAL.
  assert (Hleap : Calendar.is_leap 9999 = false) by reflexivity.
  assert (Hb : 0 <= Calendar.days_before_year y
               /\ (y <= 9998 -> Calendar.days_before_year y <= 3651329)
               /\ (y = 9999 -> Calendar.days_before_year y = 3651694)).
  { unfold Calendar.days_before_year. cbv zeta. split; [|split].
    - Z.div_mod_to_equations. lia.
    - intros Hy'. Z.div_mod_to_equations. lia.
    - intros ->. reflexivity. }
  destruct Hb as (Hb0 & Hb1 & Hb2).
  destruct (Z.eq_dec y 9999) as [->|Hne].
  - rewrite Hleap in Hdoy. specialize (Hb2 eq_refl). lia.
  - specialize (Hb1 ltac:(lia)). destruct (Calendar.is_leap y); lia.
Qed.

(** The week start computed from a valid date: a valid date, a Monday, and
    the only one in the seven days that end on the given date. *)
Lemma monday_of_week (y m d : Z) :
  Calendar.valid_date y m d = true ->
  exists y' m' d',
    Calendar.sub_days y m d (Calendar.weekday y m d) = Some (y', m', d')
    /\ Calendar.valid_date y' m' d' = true
    /\ Calendar.weekday y' m' d' = 0
    /\ Calendar.ymd2ord y' m' d' <= Calendar.ymd2ord y m d
       < Calendar.ymd2ord y' m' d' + 7.
Proof.
  intros Hv. pose proof (ymd2ord_range y m d Hv) as Hn.
  unfold Calendar.sub_days, Calendar.weekday.
  set (n := Calendar.ymd2ord y m d) in *.
  assert (Hw : 0 <= (n + 6) mod 7 <= 6 /\ (n + 6) mod 7 <= n - 1
               /\ (n - (n + 6) mod 7 + 6) mod 7 = 0)
    by (Z.div_mod_to_equations; lia).
  set (w := (n + 6) mod 7) in *.
  assert (Ho : 1 <= n - w <= Calendar.MAXORDINAL) by lia.
  pose proof (ord2ymd_sound (n - w) Ho) as Hs.
  destruct (Calendar.ord2ymd (n - w)) as [[y' m'] d'] eqn:E.
  destruct Hs as [Hvalid Hord].
  exists y', m', d'.
  replace ((1 <=? n - w) && (n - w <=? Calendar.MAXORDINAL)) with true.
  - split; [reflexivity|]. split; [exact Hvalid|]. rewrite Hord.
    split; [tauto|lia].
  - symmetry. apply andb_true_iff. rewrite !Z.leb_le. lia.
Qed.

Lemma week_start_year (y m d y' m' d' : Z) :
  Calendar.valid_date y m d = true ->
  Calendar.valid_date y' m' d' = true ->
  1000 < y ->
  Calendar.ymd2ord y m d < Calendar.ymd2ord y' m' d' + 7 ->
  1000 <= y'.
Proof.
  intros Hv Hv' Hy Hlt.
  apply valid_date_inv in Hv. destruct Hv as (_ & Hm & Hd).
  apply valid_date_inv in Hv'. destruct Hv' as (Hy' & Hm' & Hd').
  pose proof (day_of_year_bound y m d Hm Hd) as H1.
  pose proof (day_of_year_bound y' m' d' Hm' Hd') as H2.
  unfold Calendar.ymd2ord in Hlt.
  destruct (Z.lt_ge_cases y' 1000) as [Hlow|]; [exfalso|assumption].
  assert (Ha : 365242 <= Calendar.days_before_year y)
    by (unfold Calendar.days_before_year; cbv zeta;
        Z.div_mod_to_equations; lia).
  assert (Hb : Calendar.days_before_year y' <= 364512)
    by (unfold Calendar.days_before_year; cbv zeta;
        Z.div_mod_to_equations; lia).
  destruct (Calendar.is_leap y'); lia.
Qed.

(** ** Dicts *)

Section DictFacts.
Context {K V : Type}.
Variable eqb : K -> K -> bool.
Hypothesis eqb_eq : forall a b, eqb a b = true <-> a = b.

Lemma dict_get_In (d : list (K * V)) (k : K) (v : V) :
  Dict.get eqb d k = Some v -> In (k, v) d.
Proof.
  induction d as [|[k' v'] d IH]; simpl; [discriminate|].
  destruct (eqb k' k) eqn:E.
  - intros [= ->]. apply eqb_eq in E. subst. now left.
  - intros H. right. now apply IH.
Qed.

Lemma dict_set_In (d : list (K * V)) (k k' : K) (v v' : V) :
  In (k', v') (Dict.set eqb d k v) -> (k' = k /\ v' = v) \/ In (k', v') d.
Proof.
  induction d as [|[k0 v0] d IH]; simpl.
  - intros [[= <- <-]|[]]. now left.
  - destruct (eqb k0 k) eqn:E.
    + apply eqb_eq in E. subst k0. intros [[= <- <-]|H]; auto.
    + intros [H|H]; auto. destruct (IH H); auto.
Qed.

Lemma dict_set_keys (d : list (K * V)) (k k' : K) (v : V) :
  In k' (map fst (Dict.set eqb d k v)) <-> k' = k \/ In k' (map fst d).
Proof.
  induction d as [|[k0 v0] d IH]; simpl.
  - intuition congruence.
  - destruct (eqb k0 k) eqn:E; simpl.
    + apply eqb_eq in E. subst k0. intuition congruence.
    + rewrite IH. tauto.
Qed.

Lemma dict_set_NoDup (d : list (K * V)) (k : K) (v : V) :
  NoDup (map fst d) -> NoDup (map fst (Dict.set eqb d k v)).
Proof.
  induction d as [|[k0 v0] d IH]; simpl; intros H.
  - constructor; [simpl; tauto|constructor].
  - inversion H as [|? ? Hnin Hnd]; subst.
    destruct (eqb k0 k) eqn:E; simpl.
    + constructor; assumption.
    + constructor; [|now apply IH].
      rewrite dict_set_keys. intros [->|Hin]; [|contradiction].
      assert (eqb k k = true) by now apply eqb_eq. congruence.
Qed.

End DictFacts.

Lemma okey_eqb_eq (a b : option string) :
  Dict.okey_eqb a b = true <-> a = b.
Proof.
  destruct a as [x|], b as [y|]; simpl; try (split; congruence).
  rewrite String.eqb_eq. split; congruence.
Qed.

(** ** Buckets *)

Lemma rest_bucket_append_In (w : Rest.weekly) (k k' : string)
      (e : Rest.entry) (b' : list Rest.entry) :
  In (k', b') (Rest.bucket_append w k e) ->
  (k' = k /\ forall x, In x b' ->
                       x = e \/ exists b0, In (k, b0) w /\ In x b0)
  \/ In (k', b') w.
Proof.
  unfold Rest.bucket_append.
  destruct (Dict.get String.eqb w k) as [bucket|] eqn:G; intros H;
    apply (dict_set_In String.eqb String.eqb_eq) in H;
    destruct H as [[-> ->]|H]; auto; left; split; auto; intros x Hx.
  - apply in_app_or in Hx. destruct Hx as [Hx|[<-|[]]]; auto.
    right. exists bucket. split; auto.
    now apply (dict_get_In String.eqb String.eqb_eq).
  - destruct Hx as [<-|[]]. now left.
Qed.

Lemma duck_bucket_append_In (w : Duck.monthly) (k k' : string)
      (e : Duck.changeset) (b' : list Duck.changeset) :
  In (k', b') (Duck.bucket_append w k e) ->
  (k' = k /\ forall x, In x b' ->
                       x = e \/ exists b0, In (k, b0) w /\ In x b0)
  \/ In (k', b') w.
Proof.
  unfold Duck.bucket_append.
  destruct (Dict.get String.eqb w k) as [bucket|] eqn:G; intros H;
    apply (dict_set_In String.eqb String.eqb_eq) in H;
    destruct H as [[-> ->]|H]; auto; left; split; auto; intros x Hx.
  - apply in_app_or in Hx. destruct Hx as [Hx|[<-|[]]]; auto.
    right. exists bucket. split; auto.
    now apply (dict_get_In String.eqb String.eqb_eq).
  - destruct Hx as [<-|[]]. now left.
Qed.

(** Every entry of the weekly aggregation was already in the dict the loop
    started from, or was made from a changeset that has a centroid, and sits
    under the week key of that changeset. *)
Lemma weekly_loop_entries (fromisoformat : string -> option (Z * Z * Z))
      (css : list Rest.changeset) (acc w : Rest.weekly) :
  Rest.weekly_loop fromisoformat acc css = Return w ->
  forall k b e, In (k, b) w -> In e b ->
    (exists b0, In (k, b0) acc /\ In e b0)
    \/ (exists cs c, In cs css /\ Rest.center cs = Some c
                     /\ e = Rest.entry_of cs c
                     /\ Rest.week_key fromisoformat (Rest.created_at cs)
                        = Return k).
Proof.
  revert acc. induction css as [|cs css IH]; simpl; intros acc H k b e Hb He.
  - injection H as <-. left. eauto.
  - destruct (Rest.center cs) as [c|] eqn:Hc.
    + bind_inv H.
      destruct (IH _ H k b e Hb He) as [(b0 & Hb0 & He0)|(cs' & c' & Hin & R)].
      * apply rest_bucket_append_In in Hb0.
        destruct Hb0 as [[-> Hall]|Hb0]; [|left; eauto].
        destruct (Hall e He0) as [->|(b1 & Hb1 & He1)]; [|left; eauto].
        right. exists cs, c. auto.
      * right. exists cs', c'. tauto.
    + destruct (IH _ H k b e Hb He) as [L|(cs' & c' & Hin & R)]; auto.
      right. exists cs', c'. tauto.
Qed.

Lemma monthly_loop_entries (css : list Duck.changeset) (acc : Duck.monthly) :
  forall k b e,
    In (k, b)
       (fold_left (fun monthly_data cs =>
                     Duck.bucket_append monthly_data
                       (Duck.month_key (Duck.created_at cs)) cs) css acc) ->
    In e b ->
    (exists b0, In (k, b0) acc /\ In e b0)
    \/ (In e css /\ Duck.month_key (Duck.created_at e) = k).
Proof.
  revert acc. induction css as [|cs css IH]; simpl; intros acc k b e Hb He.
  - left. eauto.
  - destruct (IH _ k b e Hb He) as [(b0 & Hb0 & He0)|[Hin R]]; [|auto].
    apply duck_bucket_append_In in Hb0.
    destruct Hb0 as [[-> Hall]|Hb0]; [|left; eauto].
    destruct (Hall e He0) as [->|(b1 & Hb1 & He1)]; [|left; eauto].
    right. auto.
Qed.

(** ** Aggregation keys *)

Example week_key_2024_03_14 :
  Rest.week_key Lib.fromisoformat (Some "2024-03-14T10:30:00Z")
  = Return "2024-03-11".
Proof. reflexivity. Qed.

Example month_key_2024_03_14 :
  Duck.month_key (Calendar.isoformat Ex.stamp) = "2024-03".
Proof. reflexivity. Qed.

(** C2.  The aggregation key is a function of ['created_at'] alone.
    REST fetcher: when the timestamp parses to the date [y-m-d] (a year
    after 1000, so that the key has a four-digit year), the week key is
    ['YYYY-MM-DD'] of a valid date that is a Monday and is the one Monday in
    the seven days ending on [y-m-d]; every entry of the weekly aggregation
    sits under the week key of its own timestamp.  Bulk fetcher: the month
    key of a timestamp is its ['YYYY-MM'] prefix, and every entry of the
    monthly aggregation sits under the month key of its own timestamp. *)
Theorem aggregation_key_of_timestamp
        (fromisoformat : string -> option (Z * Z * Z))
        (ts : string) (y m d : Z) :
  fromisoformat (Rest.replace_Z ts) = Some (y, m, d) ->
  Calendar.valid_date y m d = true ->
  1000 < y ->
  (exists y' m' d',
      Rest.week_key fromisoformat (Some ts)
      = Return (Calendar.format_date y' m' d')
      /\ Calendar.valid_date y' m' d' = true
      /\ 1000 <= y'
      /\ Calendar.weekday y' m' d' = 0
      /\ Calendar.ymd2ord y' m' d' <= Calendar.ymd2ord y m d
         < Calendar.ymd2ord y' m' d' + 7)
  /\ (forall css w k b e,
         Rest.weekly_loop fromisoformat [] css = Return w ->
         In (k, b) w -> In e b ->
         Rest.week_key fromisoformat (Rest.e_created_at e) = Return k)
  /\ (forall t,
         Duck.month_key (Calendar.isoformat t)
         = (Calendar.pad4 (Calendar.year t) ++ "-"
            ++ Calendar.pad2 (Calendar.month t))%string)
  /\ (forall css k b e,
         In (k, b) (Duck.monthly_loop css) -> In e b ->
         Duck.month_key (Duck.created_at e) = k).
Proof.
  intros Hparse Hvalid Hy. split; [|split; [|split]].
  - destruct (monday_of_week y m d Hvalid)
      as (y' & m' & d' & Hsub & Hv' & Hw & Hord).
    exists y', m', d'. unfold Rest.week_key. rewrite Hparse, Hsub.
    split; [reflexivity|]. split; [exact Hv'|].
    split; [|split; assumption].
    apply (week_start_year y m d y' m' d' Hvalid Hv' Hy). lia.
  - intros css w k b e Hloop Hb He.
    destruct (weekly_loop_entries _ _ _ _ Hloop k b e Hb He)
      as [(b0 & [] & _)|(cs & c & _ & _ & -> & Hk)].
    exact Hk.
  - intros t. reflexivity.
  - intros css k b e Hb He. unfold Duck.monthly_loop in Hb.
    destruct (monthly_loop_entries _ _ k b e Hb He) as [(b0 & [] & _)|[_ H]].
    exact H.
Qed.

Lemma aggregation_key_of_timestamp_witness :
  exists y' m' d',
    Rest.week_key Lib.fromisoformat (Some "2024-03-14T10:30:00Z")
    = Return (Calendar.format_date y' m' d')
    /\ Calendar.valid_date y' m' d' = true
    /\ 1000 <= y'
    /\ Calendar.weekday y' m' d' = 0
    /\ Calendar.ymd2ord y' m' d' <= Calendar.ymd2ord 2024 3 14
       < Calendar.ymd2ord y' m' d' + 7.
Proof.
  apply (aggregation_key_of_timestamp
           Lib.fromisoformat "2024-03-14T10:30:00Z" 2024 3 14).
  - reflexivity.
  - reflexivity.
  - lia.
Defined.

(** ** The pagination loop *)

Section FetchFacts.
Variable py_int : string -> option Z.
Variable py_float : string -> option Q.

Let fetch_loop := Rest.fetch_loop py_int py_float.
Let full_page := Rest.full_page py_int py_float.

Lemma fetch_loop_sent_head (username start_time time : string)
      (acc : list Rest.changeset) (responses : list Rest.response) :
  exists more,
    Rest.sent (fetch_loop username start_time time acc responses)
    = Rest.mkRequest username time :: more.
Proof.
  unfold fetch_loop.
  destruct responses as [|[| |root] rest]; cbn [Rest.fetch_loop Rest.sent];
    eauto.
  destruct (Rest.parse_batch py_int py_float root) as [[|cs batch]| |];
    cbn [Rest.sent]; eauto.
  destruct (length (cs :: batch) <? 100)%nat; cbn [Rest.sent]; eauto.
  destruct (Rest.oldest (cs :: batch)); cbn [Rest.sent]; eauto.
Qed.

(** One round on a full page: the batch is collected and the loop goes on
    with the next response. *)
Lemma fetch_loop_full_page (username start_time time : string)
      (acc : list Rest.changeset) (r : Rest.response)
      (batch : list Rest.changeset) (rest : list Rest.response) :
  full_page r batch ->
  exists next,
    let f := fetch_loop username start_time time acc (r :: rest) in
    let g := fetch_loop username start_time next (acc ++ batch)%list rest in
    Rest.result f = Rest.result g
    /\ Rest.sent f = Rest.mkRequest username time :: Rest.sent g
    /\ Rest.unread f = Rest.unread g.
Proof.
  intros (root & o & -> & Hparse & Hlen & Hold).
  exists (start_time ++ "," ++ Rest.key_text (Rest.created_at o)).
  unfold fetch_loop. cbn [Rest.fetch_loop]. rewrite Hparse.
  destruct batch as [|cs batch]; [simpl in Hlen; lia|].
  assert (Hlt : (length (cs :: batch) <? 100)%nat = false)
    by (apply Nat.ltb_ge; exact Hlen).
  rewrite Hlt, Hold. cbn [Rest.result Rest.sent Rest.unread]. auto.
Qed.

Lemma fetch_loop_full_pages (username start_time : string)
      (pre : list Rest.response) (batches : list (list Rest.changeset)) :
  Forall2 full_page pre batches ->
  forall (time : string) (acc : list Rest.changeset)
         (rest : list Rest.response),
  exists next,
    let f := fetch_loop username start_time time acc (pre ++ rest)%list in
    let g := fetch_loop username start_time next
                        (acc ++ concat batches)%list rest in
    Rest.result f = Rest.result g
    /\ length (Rest.sent f) = (length pre + length (Rest.sent g))%nat
    /\ Rest.unread f = Rest.unread g.
Proof.
  induction 1 as [|r batch pre batches Hfull _ IH]; intros time acc rest.
  - exists time. simpl. rewrite app_nil_r. auto.
  - destruct (fetch_loop_full_page username start_time time acc r batch
                (pre ++ rest)%list Hfull) as (next & H1 & H2 & H3).
    destruct (IH next (acc ++ batch)%list rest) as (next' & I1 & I2 & I3).
    exists next'. cbv zeta in *. simpl app. simpl concat.
    rewrite H1, H2, H3, I1, I3, app_assoc. simpl length. rewrite I2.
    auto.
Qed.

Lemma fetch_loop_short_page (username start_time time : string)
      (acc : list Rest.changeset) (root : Xml.element)
      (batch : list Rest.changeset) (post : list Rest.response) :
  Rest.parse_batch py_int py_float root = Return batch ->
  (length batch < 100)%nat ->
  fetch_loop username start_time time acc (Rest.Document root :: post)
  = Rest.mkFetched (Return (acc ++ batch)%list)
                   [Rest.mkRequest username time] post.
Proof.
  intros Hparse Hlen. unfold fetch_loop. cbn [Rest.fetch_loop].
  rewrite Hparse. destruct batch as [|cs batch].
  - now rewrite app_nil_r.
  - assert (Hlt : (length (cs :: batch) <? 100)%nat = true)
      by (apply Nat.ltb_lt; exact Hlen).
    now rewrite Hlt.
Qed.

Lemma parse_changeset_settled (e : Xml.element) :
  Rest.parse_changeset py_int py_float e <> Blocked.
Proof.
  assert (Hi : forall name, Rest.int_attr py_int e name <> Blocked)
    by (intros name; unfold Rest.int_attr; destruct (Xml.get e name);
        [apply of_option_settled|discriminate]).
  assert (Hz : forall name, Rest.int_attr_or_0 py_int e name <> Blocked)
    by (intros name; unfold Rest.int_attr_or_0; destruct (Xml.get e name);
        [apply of_option_settled|discriminate]).
  assert (Hf : forall name, Rest.float_attr py_float e name <> Blocked)
    by (intros name; unfold Rest.float_attr; destruct (Xml.get e name);
        [apply of_option_settled|discriminate]).
  unfold Rest.parse_changeset, Rest.parse_bbox.
  repeat (apply bind_settled; [auto|intros ?]).
  destruct (Rest.has_bbox e); [|discriminate].
  repeat (apply bind_settled; [auto|intros ?]); discriminate.
Qed.

Lemma parse_batch_settled (root : Xml.element) :
  Rest.parse_batch py_int py_float root <> Blocked.
Proof.
  unfold Rest.parse_batch.
  induction (Xml.findall root "changeset") as [|e l IH]; simpl;
    [discriminate|].
  apply bind_settled; [apply parse_changeset_settled|intros cs].
  apply bind_settled; [exact IH|discriminate].
Qed.

Lemma oldest_settled (batch : list Rest.changeset) :
  Rest.oldest batch <> Blocked.
Proof.
  destruct batch as [|cs batch]; simpl; [discriminate|].
  revert cs. induction batch as [|x batch IH]; simpl; intros c;
    [discriminate|].
  apply bind_settled; [|intros lt; apply IH].
  destruct (Rest.created_at x), (Rest.created_at c); discriminate.
Qed.

(** The loop is left waiting only by a script that ran out after nothing
    but full pages: it has then read every response and sent one request
    more. *)
Lemma fetch_loop_blocked (username start_time : string)
      (responses : list Rest.response) :
  forall (time : string) (acc : list Rest.changeset),
    Rest.result (fetch_loop username start_time time acc responses)
    = Blocked ->
    Rest.unread (fetch_loop username start_time time acc responses) = []
    /\ length (Rest.sent (fetch_loop username start_time time acc responses))
       = S (length responses)
    /\ exists batches, Forall2 full_page responses batches.
Proof.
  unfold fetch_loop.
  induction responses as [|r responses IH]; intros time acc;
    cbn [Rest.fetch_loop].
  - cbn [Rest.result Rest.sent Rest.unread length]. intros _.
    split; [reflexivity|]. split; [reflexivity|]. exists []. constructor.
  - destruct r as [| |root]; cbn [Rest.result]; try discriminate.
    destruct (Rest.parse_batch py_int py_float root) as [batch| |] eqn:Hp;
      [|cbn [Rest.result]; discriminate|].
    + destruct batch as [|cs batch]; cbn [Rest.result]; try discriminate.
      destruct (length (cs :: batch) <? 100)%nat eqn:Hlen;
        cbn [Rest.result]; try discriminate.
      destruct (Rest.oldest (cs :: batch)) as [o| |] eqn:Ho;
        [|cbn [Rest.result]; discriminate|].
      * cbn [Rest.result Rest.sent Rest.unread]. intros H.
        destruct (IH _ _ H) as (Hu & Hs & batches & Hb).
        split; [exact Hu|]. split; [cbn [length]; f_equal; exact Hs|].
        exists ((cs :: batch) :: batches). constructor; [|exact Hb].
        exists root, o. apply Nat.ltb_ge in Hlen. auto.
      * exfalso. revert Ho. apply oldest_settled.
    + exfalso. revert Hp. apply parse_batch_settled.
Qed.

End FetchFacts.

(** C4.  The pagination loop stops with the first page that holds fewer than
    a hundred changesets, an empty page included: after any number of full
    pages it returns what it collected, has sent one request per page it
    read, and leaves every later response unread.  On a finite script of
    responses the loop always comes to an outcome, and it is left waiting
    for a further response only when every page of the script was full. *)
Theorem pagination_stops_on_short_page
        (py_int : string -> option Z) (py_float : string -> option Q)
        (username : string)
        (pre : list Rest.response) (batches : list (list Rest.changeset))
        (root : Xml.element) (batch : list Rest.changeset)
        (post : list Rest.response) :
  Forall2 (Rest.full_page py_int py_float) pre batches ->
  Rest.parse_batch py_int py_float root = Return batch ->
  (length batch < 100)%nat ->
  Rest.result (Rest.fetch_user_changesets py_int py_float username
                 (pre ++ Rest.Document root :: post))
  = Return (concat batches ++ batch)%list
  /\ length (Rest.sent (Rest.fetch_user_changesets py_int py_float username
                          (pre ++ Rest.Document root :: post)))
     = S (length pre)
  /\ Rest.unread (Rest.fetch_user_changesets py_int py_float username
                    (pre ++ Rest.Document root :: post))
     = post
  /\ (forall responses,
         Rest.result (Rest.fetch_user_changesets py_int py_float username
                        responses) = Blocked ->
         Rest.unread (Rest.fetch_user_changesets py_int py_float username
                        responses) = []
         /\ exists batches,
              Forall2 (Rest.full_page py_int py_float) responses batches).
Proof.
  intros Hpre Hparse Hlen.
  assert (Hwait : forall responses,
             Rest.result (Rest.fetch_user_changesets py_int py_float username
                            responses) = Blocked ->
             Rest.unread (Rest.fetch_user_changesets py_int py_float username
                            responses) = []
             /\ exists batches,
                  Forall2 (Rest.full_page py_int py_float) responses batches).
  { intros responses H.
    destruct (fetch_loop_blocked py_int py_float username Rest.START_DATE
                responses Rest.START_DATE [] H) as (Hu & _ & Hb).
    split; assumption. }
  split; [|split; [|split; [|exact Hwait]]];
    unfold Rest.fetch_user_changesets;
    destruct (fetch_loop_full_pages py_int py_float username Rest.START_DATE
                pre batches Hpre Rest.START_DATE []
              (Rest.Document root :: post)) as (next & H1 & H2 & H3);
    cbv zeta in H1, H2, H3; rewrite ?H1, ?H2, ?H3;
    rewrite (fetch_loop_short_page py_int py_float username Rest.START_DATE
               next _ root batch post Hparse Hlen);
    cbn [Rest.result Rest.sent Rest.unread length app];
    [reflexivity|lia|reflexivity].
Qed.

Lemma page_full_is_full :
  Rest.full_page Lib.py_int Lib.py_float
                 (Rest.Document Ex.page_full) Ex.batch_full.
Proof.
  exists Ex.page_full, (Ex.record 101 (Some Ex.bbox_manchester)).
  split; [reflexivity|]. split; [vm_compute; reflexivity|].
  split; [apply Nat.leb_le; reflexivity|vm_compute; reflexivity].
Qed.

Lemma pagination_stops_on_short_page_witness :
  Rest.result (Rest.fetch_user_changesets Lib.py_int Lib.py_float "mmann1123"
                 ([Rest.Document Ex.page_full]
                  ++ Rest.Document Ex.page_short
                  :: [Rest.Document Ex.page_full]))
  = Return (concat [Ex.batch_full] ++ [Ex.record 102 None])%list
  /\ length (Rest.sent (Rest.fetch_user_changesets Lib.py_int Lib.py_float
                          "mmann1123"
                          ([Rest.Document Ex.page_full]
                           ++ Rest.Document Ex.page_short
                           :: [Rest.Document Ex.page_full])))
     = 2%nat
  /\ Rest.unread (Rest.fetch_user_changesets Lib.py_int Lib.py_float
                    "mmann1123"
                    ([Rest.Document Ex.page_full]
                     ++ Rest.Document Ex.page_short
                     :: [Rest.Document Ex.page_full]))
     = [Rest.Document Ex.page_full].
Proof.
  assert (Hpre : Forall2 (Rest.full_page Lib.py_int Lib.py_float)
                         [Rest.Document Ex.page_full] [Ex.batch_full])
    by (constructor; [exact page_full_is_full|constructor]).
  assert (Hlen : (length [Ex.record 102 None] < 100)%nat) by (simpl; lia).
  destruct (pagination_stops_on_short_page Lib.py_int Lib.py_float
              "mmann1123" [Rest.Document Ex.page_full] [Ex.batch_full]
              Ex.page_short [Ex.record 102 None]
              [Rest.Document Ex.page_full] Hpre eq_refl Hlen)
    as (H1 & H2 & H3 & _).
  exact (conj H1 (conj H2 H3)).
Defined.

(** ** Request errors *)

Lemma fetch_loop_request_error
      (py_int : string -> option Z) (py_float : string -> option Q)
      (username start_time time : string) (acc : list Rest.changeset)
      (post : list Rest.response) :
  Rest.fetch_loop py_int py_float username start_time time acc
                  (Rest.RequestException :: post)
  = Rest.mkFetched (Return acc) [Rest.mkRequest username time] post.
Proof. reflexivity. Qed.

(** C5.  A request error during the pagination of a user is caught: the
    fetch of that user returns the changesets of the pages read before the
    error, having sent no request after the failed one, and [main]'s loop
    goes on with the remaining users, whose first request follows the failed
    one. *)
Theorem request_error_stops_only_that_user
        (py_int : string -> option Z) (py_float : string -> option Q)
        (username : string) (users : list string)
        (all_changesets : list Rest.changeset)
        (pre : list Rest.response) (batches : list (list Rest.changeset))
        (post : list Rest.response) :
  Forall2 (Rest.full_page py_int py_float) pre batches ->
  let responses := (pre ++ Rest.RequestException :: post)%list in
  let f := Rest.fetch_user_changesets py_int py_float username responses in
  let all := Rest.fetch_users py_int py_float (username :: users)
                              all_changesets responses in
  let others :=
    Rest.fetch_users py_int py_float users
      (all_changesets ++ map Rest.set_city (concat batches))%list post in
  Rest.result f = Return (concat batches)
  /\ length (Rest.sent f) = S (length pre)
  /\ Rest.unread f = post
  /\ Rest.result all = Rest.result others
  /\ Rest.sent all = (Rest.sent f ++ Rest.sent others)%list
  /\ Rest.unread all = Rest.unread others
  /\ (forall next later, users = next :: later ->
        exists more,
          Rest.sent all
          = (Rest.sent f
             ++ Rest.mkRequest next Rest.START_DATE :: more)%list).
Proof.
  intros Hpre responses f all others.
  assert (Hf : Rest.result f = Return (concat batches)
               /\ length (Rest.sent f) = S (length pre)
               /\ Rest.unread f = post).
  { subst f responses. unfold Rest.fetch_user_changesets.
    destruct (fetch_loop_full_pages py_int py_float username Rest.START_DATE
                pre batches Hpre Rest.START_DATE []
                (Rest.RequestException :: post)) as (next & H1 & H2 & H3).
    cbv zeta in H1, H2, H3. rewrite H1, H2, H3.
    rewrite fetch_loop_request_error.
    cbn [Rest.result Rest.sent Rest.unread length app].
    split; [reflexivity|]. split; [lia|reflexivity]. }
  destruct Hf as (Hres & Hsent & Hunread).
  assert (Hall : Rest.result all = Rest.result others
                 /\ Rest.sent all = (Rest.sent f ++ Rest.sent others)%list
                 /\ Rest.unread all = Rest.unread others).
  { subst all others. cbn [Rest.fetch_users]. fold f.
    rewrite Hres, Hunread. cbn [Rest.result Rest.sent Rest.unread]. auto. }
  destruct Hall as (A1 & A2 & A3).
  repeat (split; [assumption|]).
  intros next later ->. rewrite A2. subst others.
  cbn [Rest.fetch_users]. unfold Rest.fetch_user_changesets.
  destruct (fetch_loop_sent_head py_int py_float next Rest.START_DATE
              Rest.START_DATE [] post) as (more & Hhead).
  destruct (Rest.result (Rest.fetch_loop py_int py_float next Rest.START_DATE
                           Rest.START_DATE [] post));
    cbn [Rest.sent]; rewrite Hhead; simpl; eauto.
Qed.

Lemma request_error_stops_only_that_user_witness :
  Rest.result (Rest.fetch_user_changesets Lib.py_int Lib.py_float "Amac239"
                 [Rest.Document Ex.page_full; Rest.RequestException;
                  Rest.Document Ex.page_short])
  = Return Ex.batch_full
  /\ Rest.result (Rest.fetch_users Lib.py_int Lib.py_float
                    ["Amac239"; "AndromedaL"] []
                    [Rest.Document Ex.page_full; Rest.RequestException;
                     Rest.Document Ex.page_short])
     = Return (map Rest.set_city Ex.batch_full
               ++ map Rest.set_city [Ex.record 102 None])%list.
Proof.
  destruct (request_error_stops_only_that_user Lib.py_int Lib.py_float
              "Amac239" ["AndromedaL"] []
              [Rest.Document Ex.page_full] [Ex.batch_full]
              [Rest.Document Ex.page_short]
              (Forall2_cons _ _ page_full_is_full (Forall2_nil _)))
    as (H1 & _ & _ & H4 & _).
  split.
  - exact H1.
  - etransitivity; [exact H4|]. vm_compute. reflexivity.
Defined.

(** ** The run of the REST fetcher *)

Lemma insert_sorted_In (x y : Rest.changeset) (l : list Rest.changeset) :
  In y (Rest.insert_sorted x l) <-> y = x \/ In y l.
Proof.
  induction l as [|z l IH]; simpl.
  - intuition congruence.
  - destruct (Rest.key_leb (Rest.created_at x) (Rest.created_at z)); simpl.
    + intuition congruence.
    + rewrite IH. intuition congruence.
Qed.

Lemma stable_sort_In (y : Rest.changeset) (l : list Rest.changeset) :
  In y (Rest.stable_sort l) <-> In y l.
Proof.
  induction l as [|x l IH]; simpl; [tauto|].
  rewrite insert_sorted_In, IH. intuition congruence.
Qed.

Lemma sort_by_created_at_In (l s : list Rest.changeset) :
  Rest.sort_by_created_at l = Return s ->
  forall y, In y s <-> In y l.
Proof.
  unfold Rest.sort_by_created_at.
  destruct (length l <=? 1)%nat.
  - intros [= <-]. tauto.
  - destruct (forallb Rest.has_key l); [|discriminate].
    intros [= <-] y. apply stable_sort_In.
Qed.

Lemma set_city_center (cs : Rest.changeset) :
  Rest.center (Rest.set_city cs) = Rest.center cs.
Proof. reflexivity. Qed.

Section RunFacts.
Variable py_int : string -> option Z.
Variable py_float : string -> option Q.
Variable fromisoformat : string -> option (Z * Z * Z).

(** Whatever [main]'s loop over the users appends went through
    [classify_changeset_location]. *)
Lemma fetch_users_classified (users : list string)
      (acc : list Rest.changeset) (responses : list Rest.response)
      (all : list Rest.changeset) :
  Rest.result (Rest.fetch_users py_int py_float users acc responses)
  = Return all ->
  forall x, In x all -> In x acc \/ exists x0, x = Rest.set_city x0.
Proof.
  revert acc responses. induction users as [|u users IH];
    intros acc responses; cbn [Rest.fetch_users].
  - cbn [Rest.result]. intros [= <-]. auto.
  - destruct (Rest.result (Rest.fetch_user_changesets py_int py_float u
                             responses)) as [changesets| |];
      cbn [Rest.result]; try discriminate.
    intros H x Hx. destruct (IH _ _ H x Hx) as [Hin|Hin]; [|now right].
    apply in_app_or in Hin. destruct Hin as [Hin|Hin]; [now left|].
    apply in_map_iff in Hin. destruct Hin as (x0 & <- & _). right. eauto.
Qed.

(** A changeset without a centroid leaves the weekly aggregation as it
    would be without that changeset. *)
Lemma weekly_loop_skips (cs : Rest.changeset)
      (pre post : list Rest.changeset) (acc : Rest.weekly) :
  Rest.center cs = None ->
  Rest.weekly_loop fromisoformat acc (pre ++ cs :: post)
  = Rest.weekly_loop fromisoformat acc (pre ++ post).
Proof.
  intros Hc. revert acc. induction pre as [|x pre IH]; intros acc; simpl.
  - now rewrite Hc.
  - destruct (Rest.center x); [|apply IH].
    destruct (Rest.week_key fromisoformat (Rest.created_at x));
      simpl; auto.
Qed.

(** The files of a run that got as far as the weekly aggregation. *)
Lemma main_with_written (users : list string)
      (responses : list Rest.response)
      (fetched_all all_changesets : list Rest.changeset) :
  Rest.result (Rest.fetch_users py_int py_float users [] responses)
  = Return fetched_all ->
  Rest.sort_by_created_at fetched_all = Return all_changesets ->
  exists rest,
    Rest.written (Rest.main_with py_int py_float fromisoformat users responses)
    = ("changesets.json", Py.VList (map Rest.changeset_value all_changesets))
      :: rest.
Proof.
  intros Hf Hs. unfold Rest.main_with. rewrite Hf, Hs.
  destruct (Rest.weekly_loop fromisoformat [] all_changesets);
    cbn [Rest.written]; eauto.
Qed.

Lemma main_with_completed (users : list string)
      (responses : list Rest.response) (result : list Rest.changeset) :
  Rest.status (Rest.main_with py_int py_float fromisoformat users responses)
  = Return result ->
  exists fetched_all weekly_data,
    Rest.result (Rest.fetch_users py_int py_float users [] responses)
    = Return fetched_all
    /\ Rest.sort_by_created_at fetched_all = Return result
    /\ Rest.weekly_loop fromisoformat [] result = Return weekly_data
    /\ Rest.written
         (Rest.main_with py_int py_float fromisoformat users responses)
       = [ ("changesets.json", Py.VList (map Rest.changeset_value result));
           ("weekly_changesets.json", Rest.weekly_value weekly_data);
           ("cities.json", Rest.cities_value) ].
Proof.
  unfold Rest.main_with.
  destruct (Rest.result (Rest.fetch_users py_int py_float users []
                           responses)) as [fetched_all| |];
    cbn [Rest.status]; try discriminate.
  destruct (Rest.sort_by_created_at fetched_all) as [all| |] eqn:Hs;
    cbn [Rest.status]; try discriminate.
  destruct (Rest.weekly_loop fromisoformat [] all) as [w| |] eqn:Hw;
    cbn [Rest.status Rest.written]; try discriminate.
  intros Hsum. assert (all = result) as ->.
  { unfold Rest.summary in Hsum. destruct all as [|first rest].
    - congruence.
    - destruct (Rest.has_key first && _); congruence. }
  exists fetched_all, w. auto.
Qed.

End RunFacts.

(** C10.  A changeset without a centroid gets no city label:
    [classify_changeset_location] returns [None].  In a run it still is in
    the raw output, with ['city'] set to [None], and the weekly aggregation
    is what it would be without it: every weekly entry is made from a
    changeset that has a centroid. *)
Theorem no_center_no_city_no_week
        (py_int : string -> option Z) (py_float : string -> option Q)
        (fromisoformat : string -> option (Z * Z * Z))
        (users : list string) (responses : list Rest.response)
        (fetched_all all_changesets : list Rest.changeset)
        (cs : Rest.changeset) :
  Rest.result (Rest.fetch_users py_int py_float users [] responses)
  = Return fetched_all ->
  Rest.sort_by_created_at fetched_all = Return all_changesets ->
  In cs fetched_all ->
  Rest.center cs = None ->
  Rest.classify_changeset_location cs = None
  /\ Rest.city cs = Some None
  /\ (exists rest,
         Rest.written
           (Rest.main_with py_int py_float fromisoformat users responses)
         = ("changesets.json",
            Py.VList (map Rest.changeset_value all_changesets)) :: rest)
  /\ In (Rest.changeset_value cs) (map Rest.changeset_value all_changesets)
  /\ (exists front,
         Rest.changeset_value cs
         = Py.VDict (front ++ [(Some "city", Py.VNone)])%list)
  /\ (forall acc pre post,
         Rest.weekly_loop fromisoformat acc (pre ++ cs :: post)
         = Rest.weekly_loop fromisoformat acc (pre ++ post))
  /\ (forall weekly_data k b e,
         Rest.weekly_loop fromisoformat [] all_changesets
         = Return weekly_data ->
         In (k, b) weekly_data -> In e b ->
         exists cs' c,
           In cs' all_changesets /\ Rest.center cs' = Some c
           /\ e = Rest.entry_of cs' c).
Proof.
  intros Hfetch Hsort Hin Hc.
  assert (Hclass : Rest.classify_changeset_location cs = None)
    by (unfold Rest.classify_changeset_location; now rewrite Hc).
  assert (Hcity : Rest.city cs = Some None).
  { destruct (fetch_users_classified _ _ _ _ _ _ Hfetch cs Hin)
      as [[]|(x0 & ->)].
    rewrite set_city_center in Hc. simpl.
    unfold Rest.classify_changeset_location. now rewrite Hc. }
  split; [exact Hclass|]. split; [exact Hcity|].
  split; [now apply main_with_written with (fetched_all := fetched_all)|].
  split.
  { apply in_map. now apply (sort_by_created_at_In _ _ Hsort). }
  split.
  { unfold Rest.changeset_value. rewrite Hcity. cbn [Rest.optional_key Py.ostr].
    eexists. rewrite !app_assoc. reflexivity. }
  split.
  { intros acc pre post. now apply weekly_loop_skips. }
  intros w k b e Hloop Hb He.
  destruct (weekly_loop_entries _ _ _ _ Hloop k b e Hb He)
    as [(b0 & [] & _)|(cs' & c & Hin' & Hc' & -> & _)].
  exists cs', c. auto.
Qed.

Lemma no_center_no_city_no_week_witness :
  Rest.classify_changeset_location (Rest.set_city (Ex.record 102 None)) = None
  /\ Rest.city (Rest.set_city (Ex.record 102 None)) = Some None
  /\ In (Rest.changeset_value (Rest.set_city (Ex.record 102 None)))
        (map Rest.changeset_value [Rest.set_city (Ex.record 102 None)]).
Proof.
  destruct (no_center_no_city_no_week Lib.py_int Lib.py_float
              Lib.fromisoformat ["mmann1123"]
              [Rest.Document Ex.page_short]
              [Rest.set_city (Ex.record 102 None)]
              [Rest.set_city (Ex.record 102 None)]
              (Rest.set_city (Ex.record 102 None))
              eq_refl eq_refl (or_introl eq_refl) eq_refl)
    as (H1 & H2 & _ & H4 & _).
  exact (conj H1 (conj H2 H4)).
Defined.

(** ** The files of a run *)

(** A run of the REST fetcher in which every request fails retrieves no
    record and writes its three files. *)
Example rest_run_without_records :
  Rest.main Lib.py_int Lib.py_float Lib.fromisoformat
            (repeat Rest.RequestException 32)
  = Rest.mkRun
      [ ("changesets.json", Py.VList []);
        ("weekly_changesets.json", Py.VDict []);
        ("cities.json", Rest.cities_value) ]
      (map (fun u => Rest.mkRequest u Rest.START_DATE) Rest.USERS)
      (Return []).
Proof. vm_compute. reflexivity. Qed.

(** The claim of C9 fails for the bulk fetcher when the query returns no
    row: [main] prints a notice and returns before any file is written. *)
Lemma bulk_run_without_rows_writes_nothing :
  Duck.status (Duck.main []) = Return tt
  /\ Duck.written (Duck.main []) = []
  /\ length (Duck.written (Duck.main [])) <> 3%nat.
Proof. split; [reflexivity|]. split; [reflexivity|]. discriminate. Qed.

Lemma main_eq (py_int : string -> option Z) (py_float : string -> option Q)
      (fromisoformat : string -> option (Z * Z * Z))
      (responses : list Rest.response) :
  Rest.main py_int py_float fromisoformat responses
  = Rest.main_with py_int py_float fromisoformat Rest.USERS responses.
Proof. reflexivity. Qed.

(** C9, amended.  A run of the REST fetcher that completes writes exactly
    its three files, whatever the number of records, none included.  A run
    of the bulk fetcher that completes writes exactly its three files when
    the query returned at least one row, and no file when it returned
    none. *)
Theorem three_files_unless_bulk_result_is_empty
        (py_int : string -> option Z) (py_float : string -> option Q)
        (fromisoformat : string -> option (Z * Z * Z))
        (responses : list Rest.response) (result : list Rest.changeset)
        (rows : list Duck.row) :
  Rest.status (Rest.main py_int py_float fromisoformat responses)
  = Return result ->
  Duck.status (Duck.main rows) = Return tt ->
  map fst (Rest.written (Rest.main py_int py_float fromisoformat responses))
  = rest_files
  /\ (result = [] ->
      Rest.written (Rest.main py_int py_float fromisoformat responses)
      = [ ("changesets.json", Py.VList []);
          ("weekly_changesets.json", Py.VDict []);
          ("cities.json", Rest.cities_value) ])
  /\ (rows <> [] -> map fst (Duck.written (Duck.main rows)) = duck_files)
  /\ (rows = [] -> Duck.written (Duck.main rows) = []).
Proof.
  intros Hrest Hduck. rewrite main_eq in Hrest |- *.
  destruct (main_with_completed py_int py_float fromisoformat Rest.USERS
              responses result Hrest)
    as (fetched_all & w & _ & _ & Hloop & Hw).
  rewrite Hw. split; [reflexivity|]. split; [|split].
  - intros ->. cbn [Rest.weekly_loop] in Hloop. injection Hloop as <-.
    reflexivity.
  - intros Hrows. destruct rows as [|r rows]; [congruence|].
    unfold Duck.main in Hduck |- *.
    destruct (Duck.process_rows (r :: rows));
      cbn [Duck.status Duck.written] in Hduck |- *; try discriminate.
    reflexivity.
  - intros ->. reflexivity.
Qed.

Lemma three_files_unless_bulk_result_is_empty_witness :
  map fst (Rest.written (Rest.main Lib.py_int Lib.py_float Lib.fromisoformat
                           (repeat Rest.RequestException 32)))
  = rest_files
  /\ map fst (Duck.written (Duck.main [Ex.row_manchester])) = duck_files.
Proof.
  assert (Hrest : Rest.status
                    (Rest.main Lib.py_int Lib.py_float Lib.fromisoformat
                               (repeat Rest.RequestException 32))
                  = Return []) by (vm_compute; reflexivity).
  assert (Hduck : Duck.status (Duck.main [Ex.row_manchester]) = Return tt)
    by reflexivity.
  destruct (three_files_unless_bulk_result_is_empty
              Lib.py_int Lib.py_float Lib.fromisoformat
              (repeat Rest.RequestException 32) [] [Ex.row_manchester]
              Hrest Hduck)
    as (H1 & _ & H3 & _).
  split; [exact H1|]. apply H3. discriminate.
Defined.

(** ** JSON round trips *)

Section ValueInduction.
Variable P : Py.value -> Prop.
Hypothesis HNone : P Py.VNone.
Hypothesis HBool : forall b, P (Py.VBool b).
Hypothesis HInt : forall z, P (Py.VInt z).
Hypothesis HFloat : forall q, P (Py.VFloat q).
Hypothesis HNaN : P Py.VNaN.
Hypothesis HStr : forall s, P (Py.VStr s).
Hypothesis HList : forall items, Forall P items -> P (Py.VList items).
Hypothesis HTuple : forall items, Forall P items -> P (Py.VTuple items).
Hypothesis HDict :
  forall entries, Forall (fun kv => P (snd kv)) entries -> P (Py.VDict entries).

Fixpoint value_nested_ind (v : Py.value) : P v :=
  match v with
  | Py.VNone => HNone
  | Py.VBool b => HBool b
  | Py.VInt z => HInt z
  | Py.VFloat q => HFloat q
  | Py.VNaN => HNaN
  | Py.VStr s => HStr s
  | Py.VList items =>
      HList items
        ((fix go (l : list Py.value) : Forall P l :=
            match l with
            | [] => Forall_nil P
            | x :: r => Forall_cons x (value_nested_ind x) (go r)
            end) items)
  | Py.VTuple items =>
      HTuple items
        ((fix go (l : list Py.value) : Forall P l :=
            match l with
            | [] => Forall_nil P
            | x :: r => Forall_cons x (value_nested_ind x) (go r)
            end) items)
  | Py.VDict entries =>
      HDict entries
        ((fix go (l : list (option string * Py.value))
            : Forall (fun kv => P (snd kv)) l :=
            match l with
            | [] => Forall_nil _
            | x :: r => Forall_cons x (value_nested_ind (snd x)) (go r)
            end) entries)
  end.

End ValueInduction.

Lemma distinct_NoDup (keys : list (option string)) :
  Py.distinct keys = true <-> NoDup keys.
Proof.
  induction keys as [|k keys IH]; simpl.
  - split; [constructor|reflexivity].
  - rewrite andb_true_iff, negb_true_iff, IH. split.
    + intros [Hk Hd]. constructor; [|exact Hd]. intros Hin.
      assert (existsb (Dict.okey_eqb k) keys = true); [|congruence].
      apply existsb_exists. exists k. split; [exact Hin|].
      now apply okey_eqb_eq.
    + intros H. inversion H as [|? ? Hnin Hd]; subst. split; [|exact Hd].
      destruct (existsb (Dict.okey_eqb k) keys) eqn:E; [|reflexivity].
      apply existsb_exists in E. destruct E as (k' & Hin & Heq).
      apply okey_eqb_eq in Heq. subst. contradiction.
Qed.

Section DictOfPairs.
Context {K V : Type}.
Variable eqb : K -> K -> bool.
Hypothesis eqb_eq : forall a b, eqb a b = true <-> a = b.

Lemma dict_set_fresh (d : list (K * V)) (k : K) (v : V) :
  ~ In k (map fst d) -> Dict.set eqb d k v = (d ++ [(k, v)])%list.
Proof.
  induction d as [|[k0 v0] d IH]; simpl; intros H; [reflexivity|].
  destruct (eqb k0 k) eqn:E.
  - apply eqb_eq in E. tauto.
  - rewrite IH; tauto.
Qed.

Lemma fold_set_fresh (pairs acc : list (K * V)) :
  NoDup (map fst (acc ++ pairs)) ->
  fold_left (fun d kv => Dict.set eqb d (fst kv) (snd kv)) pairs acc
  = (acc ++ pairs)%list.
Proof.
  revert acc. induction pairs as [|[k v] pairs IH]; intros acc H; simpl.
  - now rewrite app_nil_r.
  - rewrite dict_set_fresh.
    + rewrite IH; rewrite <- app_assoc; [reflexivity|exact H].
    + rewrite map_app in H. simpl in H. apply NoDup_remove_2 in H.
      intros Hin. apply H. apply in_or_app. now left.
Qed.

Lemma of_pairs_distinct (pairs : list (K * V)) :
  NoDup (map fst pairs) -> Dict.of_pairs eqb pairs = pairs.
Proof. intros H. unfold Dict.of_pairs. now rewrite fold_set_fresh. Qed.

End DictOfPairs.

(** What [json.load] returns for what [json.dump] wrote: the data with its
    tuples turned into lists and its [None] keys into ["null"]. *)
Lemma load_dump_normal (v : Py.value) :
  Py.well_keyed v = true -> Py.load (Py.dump v) = Py.normal v.
Proof.
  induction v as [| | | | | |items IH|items IH|entries IH]
    using value_nested_ind; simpl; intros Hw; try reflexivity.
  - f_equal. rewrite map_map. apply map_ext_in. intros x Hx.
    rewrite Forall_forall in IH. apply IH; [exact Hx|].
    rewrite forallb_forall in Hw. now apply Hw.
  - f_equal. rewrite map_map. apply map_ext_in. intros x Hx.
    rewrite Forall_forall in IH. apply IH; [exact Hx|].
    rewrite forallb_forall in Hw. now apply Hw.
  - apply andb_true_iff in Hw. destruct Hw as [Hd Hw].
    f_equal. rewrite map_map. cbn [fst snd].
    rewrite (of_pairs_distinct Dict.okey_eqb okey_eqb_eq).
    + apply map_ext_in. intros [k x] Hx. cbn [fst snd]. f_equal.
      rewrite Forall_forall in IH. apply (IH (k, x) Hx).
      rewrite forallb_forall in Hw. now apply (Hw (k, x)).
    + rewrite map_map. cbn [fst]. now apply distinct_NoDup.
Qed.

Lemma plain_normal (v : Py.value) :
  Py.plain v = true -> Py.well_keyed v = true /\ Py.normal v = v.
Proof.
  induction v as [| | | | | |items IH|items IH|entries IH]
    using value_nested_ind; simpl; intros Hp; auto; try discriminate.
  - rewrite forallb_forall in Hp. rewrite Forall_forall in IH. split.
    + apply forallb_forall. intros x Hx. now apply IH, Hp.
    + f_equal. rewrite <- (map_id items) at 2. apply map_ext_in.
      intros x Hx. now apply IH, Hp.
  - apply andb_true_iff in Hp. destruct Hp as [Hd Hp].
    rewrite forallb_forall in Hp. rewrite Forall_forall in IH.
    assert (Hkeys : forall kv, In kv entries ->
                               Some (Py.key_text (fst kv)) = fst kv).
    { intros [k x] Hx. specialize (Hp _ Hx). cbn [fst snd] in *.
      destruct k; [reflexivity|discriminate]. }
    assert (Hvals : forall kv, In kv entries -> Py.plain (snd kv) = true).
    { intros kv Hx. specialize (Hp _ Hx).
      apply andb_true_iff in Hp. tauto. }
    split.
    + apply andb_true_iff. split.
      * erewrite map_ext_in; [exact Hd|]. exact Hkeys.
      * apply forallb_forall. intros kv Hx. now apply IH, Hvals.
    + f_equal. rewrite <- (map_id entries) at 2. apply map_ext_in.
      intros [k x] Hx. cbn [fst snd]. f_equal.
      * exact (Hkeys (k, x) Hx).
      * exact (proj2 (IH (k, x) Hx (Hvals (k, x) Hx))).
Qed.

(** Plain data reads back as it was written. *)
Lemma load_dump_plain (v : Py.value) :
  Py.plain v = true -> Py.load (Py.dump v) = v.
Proof.
  intros Hp. destruct (plain_normal v Hp) as [Hw Hn].
  now rewrite load_dump_normal, Hn.
Qed.

(** ** The data the scripts write *)

Lemma plain_ostr (o : option string) : Py.plain (Py.ostr o) = true.
Proof. destruct o; reflexivity. Qed.

Lemma plain_list (A : Type) (f : A -> Py.value) (l : list A) :
  (forall x, In x l -> Py.plain (f x) = true) ->
  Py.plain (Py.VList (map f l)) = true.
Proof.
  intros H. simpl. apply forallb_forall. intros v Hv.
  apply in_map_iff in Hv. destruct Hv as (x & <- & Hx). now apply H.
Qed.

Lemma NoDup_map_Some (A : Type) (l : list A) :
  NoDup l -> NoDup (map Some l).
Proof.
  induction 1 as [|x l Hnin _ IH]; simpl; constructor; [|exact IH].
  intros Hin. apply in_map_iff in Hin. destruct Hin as (y & [= ->] & Hy).
  contradiction.
Qed.

(** A dict from string keys that do not repeat, with plain values. *)
Lemma plain_keyed_dict (A : Type) (f : A -> Py.value)
      (d : list (string * A)) :
  NoDup (map fst d) ->
  (forall k x, In (k, x) d -> Py.plain (f x) = true) ->
  Py.plain (Py.VDict (map (fun kv => (Some (fst kv), f (snd kv))) d)) = true.
Proof.
  intros Hnd Hf. simpl. apply andb_true_iff. split.
  - apply distinct_NoDup. rewrite map_map. cbn [fst].
    rewrite <- (map_map fst Some). now apply NoDup_map_Some.
  - apply forallb_forall. intros kv Hkv. apply in_map_iff in Hkv.
    destruct Hkv as ([k x] & <- & Hx). cbn [fst snd Py.is_some andb].
    now apply (Hf k x).
Qed.

Lemma rest_entry_value_plain (e : Rest.entry) :
  Py.plain (Rest.entry_value e) = true.
Proof.
  destruct e as [i [u|] lo la c [ci|] [cr|] [co|]]; reflexivity.
Qed.

Lemma duck_changeset_value_plain (cs : Duck.changeset) :
  Py.plain (Duck.changeset_value cs) = true.
Proof. destruct cs as [i u ui [x|] [y|] n c t m]; reflexivity. Qed.

Lemma duck_entry_value_plain (cs : Duck.changeset) :
  Py.plain (Duck.entry_value cs) = true.
Proof. destruct cs as [i u ui [x|] [y|] n c t m]; reflexivity. Qed.

Lemma duck_cities_value_plain : Py.plain Duck.cities_value = true.
Proof. reflexivity. Qed.

Lemma rest_tags_value_plain (t : list (option string * option string)) :
  NoDup (map fst t) ->
  forallb (fun kv => Py.is_some (fst kv)) t = true ->
  Py.plain (Rest.tags_value t) = true.
Proof.
  intros Hnd Hk. unfold Rest.tags_value. simpl. apply andb_true_iff. split.
  - apply distinct_NoDup. rewrite map_map. exact Hnd.
  - apply forallb_forall. intros kv Hkv. apply in_map_iff in Hkv.
    destruct Hkv as ([k v] & <- & Hx). cbn [fst snd].
    rewrite plain_ostr, andb_true_r.
    rewrite forallb_forall in Hk. exact (Hk (k, v) Hx).
Qed.

Lemma rest_changeset_value_plain (cs : Rest.changeset) :
  Rest.tags_distinct cs -> Rest.tags_keyed cs = true ->
  Py.plain (Rest.changeset_value cs) = true.
Proof.
  unfold Rest.tags_distinct, Rest.tags_keyed, Rest.changeset_value.
  destruct cs as [i u ui cr cl o cc cm b c t ci]. cbn [Rest.tags Rest.bbox
    Rest.center Rest.city Rest.cs_id Rest.user Rest.uid Rest.created_at
    Rest.closed_at Rest.cs_open Rest.changes_count Rest.comments_count].
  intros Hnd Hk.
  assert (Ht : forall t', t = Some t' -> Py.plain (Rest.tags_value t') = true).
  { intros t' ->. now apply rest_tags_value_plain. }
  clear Hnd Hk.
  destruct b as [b|], c as [c|], t as [t|], ci as [ci|];
    cbn [Rest.optional_key app];
    try specialize (Ht _ eq_refl);
    cbn [Py.plain map fst snd forallb Py.is_some andb Py.distinct existsb
         Dict.okey_eqb negb orb Rest.bbox_value Rest.point_value];
    rewrite ?plain_ostr, ?Ht; reflexivity.
Qed.

Lemma rest_bucket_append_NoDup (w : Rest.weekly) (k : string) (e : Rest.entry) :
  NoDup (map fst w) -> NoDup (map fst (Rest.bucket_append w k e)).
Proof.
  intros H. unfold Rest.bucket_append.
  destruct (Dict.get String.eqb w k);
    now apply (dict_set_NoDup String.eqb String.eqb_eq).
Qed.

Lemma duck_bucket_append_NoDup (w : Duck.monthly) (k : string)
      (cs : Duck.changeset) :
  NoDup (map fst w) -> NoDup (map fst (Duck.bucket_append w k cs)).
Proof.
  intros H. unfold Duck.bucket_append.
  destruct (Dict.get String.eqb w k);
    now apply (dict_set_NoDup String.eqb String.eqb_eq).
Qed.

Lemma weekly_loop_NoDup (fromisoformat : string -> option (Z * Z * Z))
      (css : list Rest.changeset) (acc w : Rest.weekly) :
  Rest.weekly_loop fromisoformat acc css = Return w ->
  NoDup (map fst acc) -> NoDup (map fst w).
Proof.
  revert acc. induction css as [|cs css IH]; simpl; intros acc H Hnd.
  - now injection H as <-.
  - destruct (Rest.center cs) as [c|]; [|now apply (IH acc)].
    bind_inv H. apply (IH _ H). now apply rest_bucket_append_NoDup.
Qed.

Lemma monthly_loop_NoDup (css : list Duck.changeset) :
  NoDup (map fst (Duck.monthly_loop css)).
Proof.
  unfold Duck.monthly_loop.
  assert (H : forall acc, NoDup (map fst acc) ->
            NoDup (map fst (fold_left
              (fun monthly_data cs =>
                 Duck.bucket_append monthly_data
                   (Duck.month_key (Duck.created_at cs)) cs) css acc))).
  { induction css as [|cs css IH]; simpl; intros acc Hnd; [exact Hnd|].
    apply IH. now apply duck_bucket_append_NoDup. }
  apply H. constructor.
Qed.

Section Provenance.
Variable py_int : string -> option Z.
Variable py_float : string -> option Q.

Lemma parse_tags_NoDup (e : Xml.element) :
  NoDup (map fst (Rest.parse_tags e)).
Proof.
  unfold Rest.parse_tags.
  assert (H : forall l acc, NoDup (map fst acc) ->
            NoDup (map fst (fold_left
              (fun tags tag =>
                 Dict.set Dict.okey_eqb tags (Xml.get tag "k")
                          (Xml.get tag "v")) l acc))).
  { induction l as [|x l IH]; simpl; intros acc Hnd; [exact Hnd|].
    apply IH. now apply (dict_set_NoDup Dict.okey_eqb okey_eqb_eq). }
  apply H. constructor.
Qed.

Lemma parse_changeset_tags_distinct (e : Xml.element) (cs : Rest.changeset) :
  Rest.parse_changeset py_int py_float e = Return cs ->
  Rest.tags_distinct cs.
Proof.
  intros H. destruct (parse_changeset_fields _ _ _ _ H) as (_ & Ht & _).
  unfold Rest.tags_distinct. rewrite Ht.
  pose proof (parse_tags_NoDup e) as Hnd.
  destruct (Rest.parse_tags e); [exact I|exact Hnd].
Qed.

Lemma parse_all_tags_distinct (elements : list Xml.element)
      (batch : list Rest.changeset) :
  Rest.parse_all py_int py_float elements = Return batch ->
  Forall Rest.tags_distinct batch.
Proof.
  revert batch. induction elements as [|e elements IH]; simpl; intros batch H.
  - injection H as <-. constructor.
  - bind_inv H. bind_inv H. injection H as <-. constructor.
    + now apply (parse_changeset_tags_distinct e).
    + now apply IH.
Qed.

Lemma fetch_loop_tags_distinct (username start_time : string)
      (responses : list Rest.response) :
  forall (time : string) (acc all : list Rest.changeset),
    Rest.result (Rest.fetch_loop py_int py_float username start_time time
                                 acc responses) = Return all ->
    Forall Rest.tags_distinct acc -> Forall Rest.tags_distinct all.
Proof.
  induction responses as [|r responses IH]; intros time acc all;
    cbn [Rest.fetch_loop].
  - cbn [Rest.result]. discriminate.
  - destruct r as [| |root]; cbn [Rest.result]; try discriminate.
    + intros [= <-]. auto.
    + destruct (Rest.parse_batch py_int py_float root)
        as [batch| |] eqn:Hp; cbn [Rest.result]; try discriminate.
      apply parse_all_tags_distinct in Hp.
      destruct batch as [|cs batch]; cbn [Rest.result].
      * intros [= <-]. auto.
      * destruct (length (cs :: batch) <? 100)%nat; cbn [Rest.result].
        -- intros [= <-] Hacc. apply Forall_app. auto.
        -- destruct (Rest.oldest (cs :: batch)); cbn [Rest.result];
             try discriminate.
           intros H Hacc. apply (IH _ _ _ H). apply Forall_app. auto.
Qed.

Lemma set_city_tags_distinct (cs : Rest.changeset) :
  Rest.tags_distinct cs -> Rest.tags_distinct (Rest.set_city cs).
Proof. exact (fun H => H). Qed.

Lemma fetch_users_tags_distinct (users : list string) :
  forall (acc : list Rest.changeset) (responses : list Rest.response)
         (all : list Rest.changeset),
    Rest.result (Rest.fetch_users py_int py_float users acc responses)
    = Return all ->
    Forall Rest.tags_distinct acc -> Forall Rest.tags_distinct all.
Proof.
  induction users as [|u users IH]; intros acc responses all;
    cbn [Rest.fetch_users].
  - cbn [Rest.result]. intros [= <-]. auto.
  - destruct (Rest.result (Rest.fetch_user_changesets py_int py_float u
                             responses)) as [changesets| |] eqn:Hf;
      cbn [Rest.result]; try discriminate.
    intros H Hacc. apply (IH _ _ _ H). apply Forall_app. split; [exact Hacc|].
    assert (Hc : Forall Rest.tags_distinct changesets)
      by (apply (fetch_loop_tags_distinct _ _ _ _ _ _ Hf); constructor).
    rewrite Forall_forall in *. intros x Hx. apply in_map_iff in Hx.
    destruct Hx as (x0 & <- & Hx0). apply set_city_tags_distinct. auto.
Qed.

End Provenance.

Lemma plain_round_trip (v : Py.value) :
  Py.plain v = true ->
  Py.load (Py.dump v) = Py.normal v /\ Py.load (Py.dump v) = v.
Proof.
  intros Hp. destruct (plain_normal v Hp) as [Hw Hn].
  rewrite load_dump_normal by exact Hw. rewrite Hn. auto.
Qed.

Lemma rest_cities_read_back :
  Py.load (Py.dump Rest.cities_value) = Py.normal Rest.cities_value
  /\ Py.normal Rest.cities_value
     = Py.VDict (map (fun kv => (Some (fst kv), Duck.city_value (snd kv)))
                     Rest.CITIES).
Proof. split; reflexivity. Qed.

(** The claim of C8 fails for the city definitions of the REST fetcher,
    which every complete run writes: each ['bbox'] is handed to [json.dump]
    as a tuple and comes back from [json.load] as a list. *)
Lemma rest_cities_do_not_round_trip :
  In ("cities.json", Rest.cities_value)
     (Rest.written (Rest.main Lib.py_int Lib.py_float Lib.fromisoformat
                              (repeat Rest.RequestException 32)))
  /\ Py.load (Py.dump Rest.cities_value) <> Rest.cities_value.
Proof.
  split.
  - rewrite rest_run_without_records. simpl. auto.
  - destruct rest_cities_read_back as [-> ->]. discriminate.
Qed.

(** C8, amended.  Parsing back what [json.dump] wrote yields the data that
    was written with each tuple turned into the list of its elements.  The
    raw records of the REST fetcher (when every tag of a record has its key)
    and of the bulk fetcher, both time-bucketed aggregations and the city
    definitions of the bulk fetcher hold no tuple and come back identical;
    the city definitions of the REST fetcher come back with each ['bbox']
    tuple as a list, which is the form the bulk fetcher writes. *)
Theorem json_round_trip_up_to_tuples
        (py_int : string -> option Z) (py_float : string -> option Q)
        (fromisoformat : string -> option (Z * Z * Z))
        (users : list string) (responses : list Rest.response)
        (fetched_all : list Rest.changeset) (rows : list Duck.row) :
  Rest.result (Rest.fetch_users py_int py_float users [] responses)
  = Return fetched_all ->
  (forall cs, In cs fetched_all -> Rest.tags_keyed cs = true) ->
  (forall name v,
      In (name, v)
         (Rest.written
            (Rest.main_with py_int py_float fromisoformat users responses)) ->
      Py.load (Py.dump v) = Py.normal v
      /\ (name <> "cities.json" -> Py.load (Py.dump v) = v))
  /\ (forall name v,
         In (name, v) (Duck.written (Duck.main rows)) ->
         Py.load (Py.dump v) = v)
  /\ Py.load (Py.dump Rest.cities_value)
     = Py.VDict (map (fun kv => (Some (fst kv), Duck.city_value (snd kv)))
                     Rest.CITIES).
Proof.
  intros Hfetch Hkeys. split; [|split].
  - intros name v Hin. unfold Rest.main_with in Hin. rewrite Hfetch in Hin.
    destruct (Rest.sort_by_created_at fetched_all) as [all| |] eqn:Hsort;
      cbn [Rest.written] in Hin; try contradiction.
    assert (Hraw : Py.plain (Py.VList (map Rest.changeset_value all)) = true).
    { apply plain_list. intros cs Hcs.
      apply (sort_by_created_at_In _ _ Hsort) in Hcs.
      apply rest_changeset_value_plain; [|now apply Hkeys].
      pose proof (fetch_users_tags_distinct py_int py_float users [] responses
                    fetched_all Hfetch (Forall_nil _)) as Hd.
      rewrite Forall_forall in Hd. now apply Hd. }
    destruct (Rest.weekly_loop fromisoformat [] all) as [w| |] eqn:Hloop;
      cbn [Rest.written] in Hin.
    + destruct Hin as [[= <- <-]|[[= <- <-]|[[= <- <-]|[]]]].
      * destruct (plain_round_trip _ Hraw). auto.
      * assert (Hw : Py.plain (Rest.weekly_value w) = true).
        { unfold Rest.weekly_value.
          apply (plain_keyed_dict _
                   (fun b => Py.VList (map Rest.entry_value b))).
          - apply (weekly_loop_NoDup _ _ _ _ Hloop). constructor.
          - intros k b _. apply plain_list. intros e _.
            apply rest_entry_value_plain. }
        destruct (plain_round_trip _ Hw). auto.
      * split; [apply rest_cities_read_back|]. congruence.
    + destruct Hin as [[= <- <-]|[]]. destruct (plain_round_trip _ Hraw). auto.
    + destruct Hin as [[= <- <-]|[]]. destruct (plain_round_trip _ Hraw). auto.
  - intros name v Hin. unfold Duck.main in Hin.
    destruct rows as [|r rows]; [contradiction|].
    destruct (Duck.process_rows (r :: rows)) as [changesets| |];
      cbn [Duck.written] in Hin; try contradiction.
    apply load_dump_plain.
    destruct Hin as [[= <- <-]|[[= <- <-]|[[= <- <-]|[]]]].
    + apply plain_list. intros cs _. apply duck_changeset_value_plain.
    + unfold Duck.monthly_value.
      apply (plain_keyed_dict _ (fun b => Py.VList (map Duck.entry_value b))).
      * apply monthly_loop_NoDup.
      * intros k b _. apply plain_list. intros e _.
        apply duck_entry_value_plain.
    + apply duck_cities_value_plain.
  - destruct rest_cities_read_back as [-> ->]. reflexivity.
Qed.

Lemma json_round_trip_up_to_tuples_witness :
  (forall name v,
      In (name, v)
         (Rest.written
            (Rest.main_with Lib.py_int Lib.py_float Lib.fromisoformat
                            ["mmann1123"] [Rest.Document Ex.page_short])) ->
      Py.load (Py.dump v) = Py.normal v
      /\ (name <> "cities.json" -> Py.load (Py.dump v) = v))
  /\ (forall name v,
         In (name, v) (Duck.written (Duck.main [Ex.row_manchester])) ->
         Py.load (Py.dump v) = v).
Proof.
  assert (Hfetch : Rest.result
                     (Rest.fetch_users Lib.py_int Lib.py_float ["mmann1123"]
                                       [] [Rest.Document Ex.page_short])
                   = Return [Rest.set_city (Ex.record 102 None)])
    by reflexivity.
  assert (Hkeys : forall cs,
             In cs [Rest.set_city (Ex.record 102 None)] ->
             Rest.tags_keyed cs = true)
    by (intros cs [<-|[]]; reflexivity).
  destruct (json_round_trip_up_to_tuples
              Lib.py_int Lib.py_float Lib.fromisoformat
              ["mmann1123"] [Rest.Document Ex.page_short]
              [Rest.set_city (Ex.record 102 None)] [Ex.row_manchester]
              Hfetch Hkeys) as (H1 & H2 & _).
  exact (conj H1 H2).
Defined.

(* ================================================================== *)
(** * Part III: further properties of the code                         *)
(* ================================================================== *)

(** ** The order of strings *)

Lemma string_compare_refl (s : string) : String.compare s s = Eq.
Proof.
  induction s as [|a s IH]; simpl; [reflexivity|].
  unfold Ascii.compare. now rewrite N.compare_refl.
Qed.

Lemma string_lt_trans (s1 s2 s3 : string) :
  String.compare s1 s2 = Lt -> String.compare s2 s3 = Lt ->
  String.compare s1 s3 = Lt.
Proof.
  revert s2 s3. induction s1 as [|a s1 IH]; intros [|b s2] [|c s3]; simpl;
    try discriminate; auto.
  unfold Ascii.compare.
  destruct (N.compare_spec (N_of_ascii a) (N_of_ascii b)) as [Hab|Hab|Hab];
    destruct (N.compare_spec (N_of_ascii b) (N_of_ascii c)) as [Hbc|Hbc|Hbc];
    try discriminate; intros H1 H2.
  - rewrite Hab, Hbc, N.compare_refl. now apply IH with s2.
  - rewrite Hab. now apply N.compare_lt_iff in Hbc as ->.
  - rewrite <- Hbc. now apply N.compare_lt_iff in Hab as ->.
  - assert (H : (N_of_ascii a < N_of_ascii c)%N) by lia.
    now apply N.compare_lt_iff in H as ->.
Qed.

Lemma string_ltb_irrefl (s : string) : String.ltb s s = false.
Proof. unfold String.ltb. now rewrite string_compare_refl. Qed.

Lemma string_ltb_trans (s1 s2 s3 : string) :
  String.ltb s1 s2 = true -> String.ltb s2 s3 = true ->
  String.ltb s1 s3 = true.
Proof.
  unfold String.ltb. intros H1 H2.
  destruct (String.compare s1 s2) eqn:E1; try discriminate.
  destruct (String.compare s2 s3) eqn:E2; try discriminate.
  now rewrite (string_lt_trans _ _ _ E1 E2).
Qed.

(** [s1 <= s2] written with [<], as [min] and [sort] see it. *)
Lemma string_ltb_le_trans (s1 s2 s3 : string) :
  String.ltb s1 s2 = true -> String.ltb s3 s2 = false ->
  String.ltb s1 s3 = true.
Proof.
  unfold String.ltb. intros H1 H2.
  destruct (String.compare s1 s2) eqn:E1; try discriminate.
  destruct (String.compare s3 s2) eqn:E2; try discriminate.
  - apply String.compare_eq_iff in E2. subst. now rewrite E1.
  - rewrite String.compare_antisym in E2.
    destruct (String.compare s2 s3) eqn:E3; try discriminate.
    now rewrite (string_lt_trans _ _ _ E1 E3).
Qed.

Lemma string_le_ltb_trans (s1 s2 s3 : string) :
  String.ltb s2 s1 = false -> String.ltb s2 s3 = true ->
  String.ltb s1 s3 = true.
Proof.
  unfold String.ltb. intros H1 H2.
  destruct (String.compare s2 s3) eqn:E2; try discriminate.
  destruct (String.compare s2 s1) eqn:E1; try discriminate.
  - apply String.compare_eq_iff in E1. subst. now rewrite E2.
  - rewrite String.compare_antisym in E1.
    destruct (String.compare s1 s2) eqn:E3; try discriminate.
    now rewrite (string_lt_trans _ _ _ E3 E2).
Qed.

Lemma string_ltb_asym (s1 s2 : string) :
  String.ltb s1 s2 = true -> String.ltb s2 s1 = false.
Proof.
  unfold String.ltb. rewrite (String.compare_antisym s1 s2).
  destruct (String.compare s2 s1); simpl; congruence.
Qed.

Lemma string_leb_ltb (s1 s2 : string) :
  String.leb s1 s2 = negb (String.ltb s2 s1).
Proof.
  unfold String.leb, String.ltb. rewrite (String.compare_antisym s2 s1).
  destruct (String.compare s1 s2); reflexivity.
Qed.

Lemma string_leb_refl (s : string) : String.leb s s = true.
Proof. unfold String.leb. now rewrite string_compare_refl. Qed.

Lemma string_leb_trans (s1 s2 s3 : string) :
  String.leb s1 s2 = true -> String.leb s2 s3 = true ->
  String.leb s1 s3 = true.
Proof.
  rewrite !string_leb_ltb, !negb_true_iff. intros H1 H2.
  destruct (String.ltb s3 s1) eqn:E; [|reflexivity].
  rewrite (string_ltb_le_trans s3 s1 s2 E H1) in H2. discriminate.
Qed.

(** ** Sorting the fetched records *)

Lemma insert_sorted_Permutation (x : Rest.changeset)
      (l : list Rest.changeset) :
  Permutation (x :: l) (Rest.insert_sorted x l).
Proof.
  induction l as [|y l IH]; simpl; [reflexivity|].
  destruct (Rest.key_leb (Rest.created_at x) (Rest.created_at y)).
  - reflexivity.
  - rewrite perm_swap. now constructor.
Qed.

Lemma stable_sort_Permutation (l : list Rest.changeset) :
  Permutation l (Rest.stable_sort l).
Proof.
  induction l as [|x l IH]; simpl; [constructor|].
  rewrite <- insert_sorted_Permutation. now constructor.
Qed.

Lemma key_leb_false (x y : Rest.changeset) :
  Rest.key_leb (Rest.created_at x) (Rest.created_at y) = false ->
  exists kx ky,
    Rest.created_at x = Some kx /\ Rest.created_at y = Some ky
    /\ String.ltb ky kx = true.
Proof.
  unfold Rest.key_leb.
  destruct (Rest.created_at x) as [kx|], (Rest.created_at y) as [ky|];
    try discriminate.
  rewrite string_leb_ltb, negb_false_iff. eauto.
Qed.

Lemma insert_sorted_filter (k : option string) (x : Rest.changeset)
      (l : list Rest.changeset) :
  filter (same_key k) (Rest.insert_sorted x l)
  = filter (same_key k) (x :: l).
Proof.
  induction l as [|y l IH]; [reflexivity|].
  cbn [Rest.insert_sorted].
  destruct (Rest.key_leb (Rest.created_at x) (Rest.created_at y)) eqn:E;
    [reflexivity|].
  destruct (key_leb_false x y E) as (kx & ky & Hx & Hy & Hlt).
  cbn [filter] in IH |- *. rewrite IH. unfold same_key. rewrite Hx, Hy.
  destruct k as [k|]; cbn [Dict.okey_eqb]; [|reflexivity].
  destruct (String.eqb_spec kx k) as [->|Hx'];
    destruct (String.eqb_spec ky k) as [->|Hy']; try reflexivity.
  rewrite string_ltb_irrefl in Hlt. discriminate.
Qed.

Lemma stable_sort_filter (k : option string) (l : list Rest.changeset) :
  filter (same_key k) (Rest.stable_sort l) = filter (same_key k) l.
Proof.
  induction l as [|x l IH]; [reflexivity|].
  cbn [Rest.stable_sort]. rewrite insert_sorted_filter.
  cbn [filter]. now rewrite IH.
Qed.

Lemma not_after_trans (a b c : Rest.changeset) :
  not_after a b -> not_after b c -> not_after a c.
Proof.
  intros (ka & kb & Ha & Hb & H1) (kb' & kc & Hb' & Hc & H2).
  rewrite Hb in Hb'. injection Hb' as <-.
  exists ka, kc. repeat split; auto. now apply string_leb_trans with kb.
Qed.

Lemma insert_sorted_Sorted (x : Rest.changeset) (l : list Rest.changeset) :
  Rest.has_key x = true -> forallb Rest.has_key l = true ->
  Sorted not_after l -> Sorted not_after (Rest.insert_sorted x l).
Proof.
  intros Hx Hl Hs. induction l as [|y l IH]; simpl.
  - repeat constructor.
  - simpl in Hl. apply andb_true_iff in Hl. destruct Hl as [Hy Hl].
    unfold Rest.has_key in Hx, Hy.
    destruct (Rest.created_at x) as [kx|] eqn:Ex; [|discriminate].
    destruct (Rest.created_at y) as [ky|] eqn:Ey; [|discriminate].
    cbn [Rest.key_leb]. destruct (String.leb kx ky) eqn:E.
    + constructor; [exact Hs|]. constructor. exists kx, ky. auto.
    + inversion Hs as [|? ? Hs' Hhd]; subst.
      constructor; [now apply IH|].
      assert (Hyx : not_after y x).
      { exists ky, kx. repeat split; auto.
        destruct (String.leb_total ky kx) as [H|H]; congruence. }
      destruct l as [|z l]; simpl.
      * now constructor.
      * destruct (Rest.key_leb (Rest.created_at x) (Rest.created_at z));
          constructor; [exact Hyx|now inversion Hhd].
Qed.

Lemma stable_sort_Sorted (l : list Rest.changeset) :
  forallb Rest.has_key l = true -> Sorted not_after (Rest.stable_sort l).
Proof.
  induction l as [|x l IH]; simpl; intros H; [constructor|].
  apply andb_true_iff in H. destruct H as [Hx Hl].
  apply insert_sorted_Sorted; auto.
  apply forallb_forall. intros y Hy. rewrite forallb_forall in Hl.
  apply Hl. now apply stable_sort_In.
Qed.

(** X1.  [all_changesets.sort(key=lambda x: x['created_at'])], when it does
    not raise, rearranges the fetched records without losing or adding one,
    leaves them in ascending order of ['created_at'], and keeps records with
    equal timestamps in the order they were fetched. *)
Theorem sort_by_created_at_ordered_stable
        (l s : list Rest.changeset) :
  Rest.sort_by_created_at l = Return s ->
  Permutation l s
  /\ StronglySorted not_after s
  /\ (forall k, filter (same_key k) s = filter (same_key k) l).
Proof.
  unfold Rest.sort_by_created_at.
  destruct (length l <=? 1)%nat eqn:Hlen.
  - intros [= <-]. split; [reflexivity|]. split; [|reflexivity].
    apply Nat.leb_le in Hlen.
    destruct l as [|x [|y l]]; simpl in Hlen; try lia;
      repeat constructor.
  - destruct (forallb Rest.has_key l) eqn:Hk; [|discriminate].
    intros [= <-]. split; [apply stable_sort_Permutation|].
    split; [|intros k; apply stable_sort_filter].
    apply Sorted_StronglySorted; [|now apply stable_sort_Sorted].
    intros a b c. apply not_after_trans.
Qed.

Lemma sort_by_created_at_ordered_stable_witness :
  Permutation [Ex.stamped 1 "2024-03-02T08:00:00Z";
               Ex.stamped 2 "2024-03-01T08:00:00Z";
               Ex.stamped 3 "2024-03-02T08:00:00Z"]
              [Ex.stamped 2 "2024-03-01T08:00:00Z";
               Ex.stamped 1 "2024-03-02T08:00:00Z";
               Ex.stamped 3 "2024-03-02T08:00:00Z"]
  /\ StronglySorted not_after
       [Ex.stamped 2 "2024-03-01T08:00:00Z";
        Ex.stamped 1 "2024-03-02T08:00:00Z";
        Ex.stamped 3 "2024-03-02T08:00:00Z"].
Proof.
  destruct (sort_by_created_at_ordered_stable
              [Ex.stamped 1 "2024-03-02T08:00:00Z";
               Ex.stamped 2 "2024-03-01T08:00:00Z";
               Ex.stamped 3 "2024-03-02T08:00:00Z"]
              [Ex.stamped 2 "2024-03-01T08:00:00Z";
               Ex.stamped 1 "2024-03-02T08:00:00Z";
               Ex.stamped 3 "2024-03-02T08:00:00Z"] eq_refl)
    as (H1 & H2 & _).
  exact (conj H1 H2).
Defined.

(** ** The oldest record of a page *)

Lemma key_lt_inv (a b : option string) (t : bool) :
  Rest.key_lt a b = Return t ->
  exists ka kb, a = Some ka /\ b = Some kb /\ String.ltb ka kb = t.
Proof.
  destruct a as [ka|], b as [kb|]; simpl; try discriminate.
  intros [= <-]. eauto.
Qed.

Lemma key_lt_trans (a b c : option string) :
  Rest.key_lt a b = Return true -> Rest.key_lt b c = Return true ->
  Rest.key_lt a c = Return true.
Proof.
  intros H1 H2.
  destruct (key_lt_inv _ _ _ H1) as (ka & kb & -> & -> & L1).
  destruct (key_lt_inv _ _ _ H2) as (kb' & kc & [= <-] & -> & L2).
  simpl. f_equal. now apply string_ltb_trans with kb.
Qed.

Lemma key_lt_ge_trans (a b c : option string) :
  Rest.key_lt a b = Return true -> Rest.key_lt c b = Return false ->
  Rest.key_lt a c = Return true.
Proof.
  intros H1 H2.
  destruct (key_lt_inv _ _ _ H1) as (ka & kb & -> & -> & L1).
  destruct (key_lt_inv _ _ _ H2) as (kc & kb' & -> & [= <-] & L2).
  simpl. f_equal. now apply string_ltb_le_trans with kb.
Qed.

Lemma min_from_spec (rest : list Rest.changeset) :
  forall (cur o : Rest.changeset),
    Rest.min_from cur rest = Return o ->
    (o = cur
     /\ forall x, In x rest ->
          Rest.key_lt (Rest.created_at x) (Rest.created_at cur)
          = Return false)
    \/ (Rest.key_lt (Rest.created_at o) (Rest.created_at cur) = Return true
        /\ exists r1 r2,
            rest = (r1 ++ o :: r2)%list
            /\ (forall x, In x r1 ->
                  Rest.key_lt (Rest.created_at o) (Rest.created_at x)
                  = Return true)
            /\ (forall x, In x r2 ->
                  Rest.key_lt (Rest.created_at x) (Rest.created_at o)
                  = Return false)).
Proof.
  induction rest as [|x rest IH]; intros cur o H; simpl in H.
  - injection H as <-. left. split; [reflexivity|]. intros x [].
  - bind_inv H. destruct v.
    + destruct (IH _ _ H) as [[-> Hall]|(Hlt & r1 & r2 & -> & H1 & H2)].
      * right. split; [exact Hv|]. exists [], rest. simpl. split; auto.
        split; [intros y []|exact Hall].
      * right. split; [now apply key_lt_trans with (Rest.created_at x)|].
        exists (x :: r1), r2. split; [reflexivity|]. split; [|exact H2].
        intros y [<-|Hy]; auto.
    + destruct (IH _ _ H) as [[-> Hall]|(Hlt & r1 & r2 & -> & H1 & H2)].
      * left. split; [reflexivity|]. intros y [<-|Hy]; auto.
      * right. split; [exact Hlt|].
        exists (x :: r1), r2. split; [reflexivity|]. split; [|exact H2].
        intros y [<-|Hy]; auto.
        now apply key_lt_ge_trans with (Rest.created_at cur).
Qed.

(** X2.  [min(batch, key=lambda x: x['created_at'])], when it does not
    raise, picks a record of the batch: the first one whose ['created_at']
    is the least.  Every record before it has a strictly greater timestamp,
    no record after it has a smaller one. *)
Theorem oldest_is_first_minimum
        (batch : list Rest.changeset) (o : Rest.changeset) :
  Rest.oldest batch = Return o ->
  exists pre post,
    batch = (pre ++ o :: post)%list
    /\ (forall x, In x pre ->
          Rest.key_lt (Rest.created_at o) (Rest.created_at x) = Return true)
    /\ (forall x, In x post ->
          Rest.key_lt (Rest.created_at x) (Rest.created_at o) = Return false).
Proof.
  destruct batch as [|x rest]; simpl; [discriminate|]. intros H.
  destruct (min_from_spec _ _ _ H) as [[-> Hall]|(Hlt & r1 & r2 & -> & H1 & H2)].
  - exists [], rest. simpl. split; [reflexivity|]. split; [intros y []|auto].
  - exists (x :: r1), r2. split; [reflexivity|]. split; [|exact H2].
    intros y [<-|Hy]; auto.
Qed.

Lemma oldest_is_first_minimum_witness :
  exists pre post,
    [Ex.stamped 1 "2024-03-02T08:00:00Z";
     Ex.stamped 2 "2024-03-01T08:00:00Z";
     Ex.stamped 3 "2024-03-01T08:00:00Z"]
    = (pre ++ Ex.stamped 2 "2024-03-01T08:00:00Z" :: post)%list
    /\ (forall x, In x pre ->
          Rest.key_lt (Some "2024-03-01T08:00:00Z") (Rest.created_at x)
          = Return true)
    /\ (forall x, In x post ->
          Rest.key_lt (Rest.created_at x) (Some "2024-03-01T08:00:00Z")
          = Return false).
Proof.
  apply (oldest_is_first_minimum
           [Ex.stamped 1 "2024-03-02T08:00:00Z";
            Ex.stamped 2 "2024-03-01T08:00:00Z";
            Ex.stamped 3 "2024-03-01T08:00:00Z"]
           (Ex.stamped 2 "2024-03-01T08:00:00Z")).
  reflexivity.
Defined.

(** ** The requests of a fetch *)

Section RequestFacts.
Variable py_int : string -> option Z.
Variable py_float : string -> option Q.

Lemma fetch_loop_display_name (username start_time : string)
      (responses : list Rest.response) :
  forall (time : string) (acc : list Rest.changeset),
    Forall (fun q => Rest.display_name q = username)
           (Rest.sent (Rest.fetch_loop py_int py_float username start_time
                                       time acc responses)).
Proof.
  induction responses as [|r responses IH]; intros time acc;
    cbn [Rest.fetch_loop].
  - repeat constructor.
  - destruct r as [| |root]; cbn [Rest.sent]; try (repeat constructor).
    destruct (Rest.parse_batch py_int py_float root) as [[|cs batch]| |];
      cbn [Rest.sent]; try (repeat constructor).
    destruct (length (cs :: batch) <? 100)%nat; cbn [Rest.sent];
      try (repeat constructor).
    destruct (Rest.oldest (cs :: batch)); cbn [Rest.sent];
      try (repeat constructor).
    apply IH.
Qed.

Lemma fetch_loop_page_with_oldest (username start_time time : string)
      (acc : list Rest.changeset) (r : Rest.response)
      (page : list Rest.changeset * Rest.changeset)
      (rest : list Rest.response) :
  page_with_oldest py_int py_float r page ->
  Rest.sent (Rest.fetch_loop py_int py_float username start_time time acc
                             (r :: rest))
  = Rest.mkRequest username time
    :: Rest.sent (Rest.fetch_loop py_int py_float username start_time
                    (cursor start_time (snd page))
                    (acc ++ fst page)%list rest).
Proof.
  destruct page as [batch o]. intros (root & -> & Hparse & Hlen & Hold).
  cbn [fst snd] in *. cbn [Rest.fetch_loop]. rewrite Hparse.
  destruct batch as [|cs batch]; [simpl in Hlen; lia|].
  assert (Hlt : (length (cs :: batch) <? 100)%nat = false)
    by (apply Nat.ltb_ge; exact Hlen).
  rewrite Hlt, Hold. reflexivity.
Qed.

Lemma fetch_loop_cursors (username start_time : string)
      (pre : list Rest.response)
      (pages : list (list Rest.changeset * Rest.changeset)) :
  Forall2 (page_with_oldest py_int py_float) pre pages ->
  forall (time : string) (acc : list Rest.changeset)
         (rest : list Rest.response),
  exists more,
    Rest.sent (Rest.fetch_loop py_int py_float username start_time time acc
                               (pre ++ rest))
    = (map (Rest.mkRequest username)
           (time :: map (fun page => cursor start_time (snd page)) pages)
       ++ more)%list.
Proof.
  induction 1 as [|r page pre pages Hpage _ IH]; intros time acc rest.
  - destruct (fetch_loop_sent_head py_int py_float username start_time time
                acc rest) as (more & Hm).
    exists more. simpl. exact Hm.
  - simpl app. rewrite (fetch_loop_page_with_oldest _ _ _ _ _ _ _ Hpage).
    destruct (IH (cursor start_time (snd page)) (acc ++ fst page)%list rest)
      as (more & Hm).
    exists more. rewrite Hm. reflexivity.
Qed.


End RequestFacts.

(** X3.  Every request of [fetch_user_changesets] asks for the user it was
    called for.  The first request has [time] set to the start date, and
    the request sent after a full page has [time] set to the start date, a
    comma and the ['created_at'] of the record [min] picked from that
    page. *)
Theorem requests_follow_the_cursor
        (py_int : string -> option Z) (py_float : string -> option Q)
        (username : string) (pre rest : list Rest.response)
        (pages : list (list Rest.changeset * Rest.changeset)) :
  Forall2 (page_with_oldest py_int py_float) pre pages ->
  Forall (fun q => Rest.display_name q = username)
         (Rest.sent (Rest.fetch_user_changesets py_int py_float username
                       (pre ++ rest)))
  /\ exists more,
      Rest.sent (Rest.fetch_user_changesets py_int py_float username
                   (pre ++ rest))
      = (map (Rest.mkRequest username)
             (Rest.START_DATE
              :: map (fun page => cursor Rest.START_DATE (snd page)) pages)
         ++ more)%list.
Proof.
  intros Hpages. unfold Rest.fetch_user_changesets. split.
  - apply fetch_loop_display_name.
  - now apply fetch_loop_cursors.
Qed.

Lemma requests_follow_the_cursor_witness :
  exists more,
    Rest.sent (Rest.fetch_user_changesets Lib.py_int Lib.py_float "mmann1123"
                 ([Rest.Document Ex.page_full]
                  ++ [Rest.Document Ex.page_short]))
    = (map (Rest.mkRequest "mmann1123")
           [Rest.START_DATE;
            "2024-01-01T00:00:00Z,2024-03-14T10:30:00Z"]
       ++ more)%list.
Proof.
  assert (Hpages : Forall2 (page_with_oldest Lib.py_int Lib.py_float)
                     [Rest.Document Ex.page_full]
                     [(Ex.batch_full,
                       Ex.record 101 (Some Ex.bbox_manchester))]).
  { constructor; [|constructor]. exists Ex.page_full.
    split; [reflexivity|]. split; [vm_compute; reflexivity|].
    split; [apply Nat.leb_le; reflexivity|vm_compute; reflexivity]. }
  destruct (requests_follow_the_cursor Lib.py_int Lib.py_float "mmann1123"
              [Rest.Document Ex.page_full] [Rest.Document Ex.page_short]
              [(Ex.batch_full, Ex.record 101 (Some Ex.bbox_manchester))]
              Hpages) as (_ & more & Hm).
  exists more. exact Hm.
Defined.


(** ** What the buckets hold *)

Section DictLookup.
Context {K V : Type}.
Variable eqb : K -> K -> bool.
Hypothesis eqb_eq : forall a b, eqb a b = true <-> a = b.

Lemma dict_get_set_same (d : list (K * V)) (k : K) (v : V) :
  Dict.get eqb (Dict.set eqb d k v) k = Some v.
Proof.
  assert (Hk : eqb k k = true) by now apply eqb_eq.
  induction d as [|[k0 v0] d IH]; simpl; [now rewrite Hk|].
  destruct (eqb k0 k) eqn:E; simpl; rewrite E; [reflexivity|exact IH].
Qed.

Lemma dict_get_set_other (d : list (K * V)) (k k' : K) (v : V) :
  k <> k' -> Dict.get eqb (Dict.set eqb d k v) k' = Dict.get eqb d k'.
Proof.
  intros Hne.
  assert (Hk : eqb k k' = false).
  { destruct (eqb k k') eqn:E; [|reflexivity]. apply eqb_eq in E. tauto. }
  induction d as [|[k0 v0] d IH]; simpl; [now rewrite Hk|].
  destruct (eqb k0 k) eqn:E; simpl.
  - apply eqb_eq in E. subst k0. now rewrite Hk.
  - now rewrite IH.
Qed.

End DictLookup.

Section Buckets.
Context {A : Type}.

(** The step both aggregations take: make the bucket if the key is new,
    then append. *)
Let append_to (w : list (string * list A)) (k : string) (e : A) :=
  match Dict.get String.eqb w k with
  | Some bucket => Dict.set String.eqb w k (bucket ++ [e])%list
  | None => Dict.set String.eqb w k [e]
  end.

Lemma bucket_of_append (w : list (string * list A)) (k k' : string) (e : A) :
  bucket_of (append_to w k e) k'
  = if String.eqb k k' then (bucket_of w k ++ [e])%list else bucket_of w k'.
Proof.
  unfold append_to, bucket_of.
  destruct (String.eqb_spec k k') as [<-|Hne].
  - destruct (Dict.get String.eqb w k);
      now rewrite (dict_get_set_same String.eqb String.eqb_eq).
  - destruct (Dict.get String.eqb w k);
      now rewrite (dict_get_set_other String.eqb String.eqb_eq).
Qed.

Lemma total_entries_set (w : list (string * list A)) (k : string)
      (b : list A) :
  (total_entries (Dict.set String.eqb w k b) + length (bucket_of w k)
   = total_entries w + length b)%nat.
Proof.
  unfold total_entries, bucket_of.
  induction w as [|[k0 b0] w IH]; simpl.
  - rewrite app_nil_r. lia.
  - destruct (String.eqb k0 k) eqn:E; simpl; rewrite !length_app.
    + lia.
    + lia.
Qed.

Lemma total_entries_append (w : list (string * list A)) (k : string) (e : A) :
  total_entries (append_to w k e) = S (total_entries w).
Proof.
  unfold append_to.
  pose proof (total_entries_set w k) as H. unfold bucket_of in H.
  destruct (Dict.get String.eqb w k) as [b|].
  - specialize (H (b ++ [e])%list). rewrite length_app in H. simpl in H. lia.
  - specialize (H [e]). simpl in H. lia.
Qed.

Lemma append_to_nonempty (w : list (string * list A)) (k : string) (e : A) :
  (forall k' b, In (k', b) w -> b <> []) ->
  forall k' b, In (k', b) (append_to w k e) -> b <> [].
Proof.
  intros Hw k' b Hin. unfold append_to in Hin.
  destruct (Dict.get String.eqb w k) as [b0|];
    apply (dict_set_In String.eqb String.eqb_eq) in Hin;
    destruct Hin as [[_ ->]|Hin]; try (now apply (Hw k' b)).
  - destruct b0; discriminate.
  - discriminate.
Qed.

End Buckets.

Lemma rest_bucket_of_append (w : Rest.weekly) (k k' : string)
      (e : Rest.entry) :
  bucket_of (Rest.bucket_append w k e) k'
  = if String.eqb k k' then (bucket_of w k ++ [e])%list else bucket_of w k'.
Proof. exact (bucket_of_append w k k' e). Qed.

Lemma rest_total_entries_append (w : Rest.weekly) (k : string)
      (e : Rest.entry) :
  total_entries (Rest.bucket_append w k e) = S (total_entries w).
Proof. exact (total_entries_append w k e). Qed.

Lemma rest_append_nonempty (w : Rest.weekly) (k : string) (e : Rest.entry) :
  (forall k' b, In (k', b) w -> b <> []) ->
  forall k' b, In (k', b) (Rest.bucket_append w k e) -> b <> [].
Proof. exact (append_to_nonempty w k e). Qed.

Lemma duck_bucket_of_append (w : Duck.monthly) (k k' : string)
      (e : Duck.changeset) :
  bucket_of (Duck.bucket_append w k e) k'
  = if String.eqb k k' then (bucket_of w k ++ [e])%list else bucket_of w k'.
Proof. exact (bucket_of_append w k k' e). Qed.

Lemma duck_total_entries_append (w : Duck.monthly) (k : string)
      (e : Duck.changeset) :
  total_entries (Duck.bucket_append w k e) = S (total_entries w).
Proof. exact (total_entries_append w k e). Qed.

Lemma duck_append_nonempty (w : Duck.monthly) (k : string)
      (e : Duck.changeset) :
  (forall k' b, In (k', b) w -> b <> []) ->
  forall k' b, In (k', b) (Duck.bucket_append w k e) -> b <> [].
Proof. exact (append_to_nonempty w k e). Qed.

Section WeeklyFacts.
Variable fromisoformat : string -> option (Z * Z * Z).

Lemma weekly_loop_contents (css : list Rest.changeset) :
  forall (acc w : Rest.weekly),
    Rest.weekly_loop fromisoformat acc css = Return w ->
    (forall k, bucket_of w k
               = (bucket_of acc k
                  ++ weekly_entries_for fromisoformat k css)%list)
    /\ total_entries w
       = (total_entries acc + length (filter has_center css))%nat
    /\ ((forall k b, In (k, b) acc -> b <> []) ->
        forall k b, In (k, b) w -> b <> []).
Proof.
  induction css as [|cs css IH]; intros acc w H; simpl in H.
  - injection H as <-. split; [|split].
    + intros k. simpl. now rewrite app_nil_r.
    + simpl. lia.
    + auto.
  - unfold weekly_entries_for, has_center in *. cbn [flat_map filter].
    destruct (Rest.center cs) as [c|] eqn:Hc.
    + bind_inv H. rewrite Hv.
      destruct (IH _ _ H) as (H1 & H2 & H3). split; [|split].
      * intros k. rewrite H1, rest_bucket_of_append.
        destruct (String.eqb v k) eqn:E.
        -- apply String.eqb_eq in E. subst. now rewrite <- app_assoc.
        -- reflexivity.
      * rewrite H2, rest_total_entries_append. simpl. lia.
      * intros Hacc. apply H3. now apply rest_append_nonempty.
    + destruct (IH _ _ H) as (H1 & H2 & H3). auto.
Qed.

End WeeklyFacts.

(** X5.  The weekly aggregation holds, under each week key, the entries of
    exactly the changesets that have a centroid and that week key, in the
    order of the sorted list; no bucket is empty, and the buckets together
    hold as many entries as there are changesets with a centroid. *)
Theorem weekly_buckets_hold_their_week
        (fromisoformat : string -> option (Z * Z * Z))
        (all_changesets : list Rest.changeset) (weekly_data : Rest.weekly) :
  Rest.weekly_loop fromisoformat [] all_changesets = Return weekly_data ->
  (forall k, bucket_of weekly_data k
             = weekly_entries_for fromisoformat k all_changesets)
  /\ (forall k b, In (k, b) weekly_data -> b <> [])
  /\ total_entries weekly_data = length (filter has_center all_changesets).
Proof.
  intros H. destruct (weekly_loop_contents _ _ _ _ H) as (H1 & H2 & H3).
  split; [exact H1|]. split; [|exact H2].
  apply H3. intros k b [].
Qed.

Lemma weekly_buckets_hold_their_week_witness :
  (forall k,
      bucket_of
        [("2024-03-11",
          [Rest.entry_of (Ex.record 1 (Some Ex.bbox_rome))
                         (Rest.bbox_center Ex.bbox_rome);
           Rest.entry_of (Ex.record 2 (Some Ex.bbox_manchester))
                         (Rest.bbox_center Ex.bbox_manchester)])] k
      = weekly_entries_for Lib.fromisoformat k
          [Ex.record 1 (Some Ex.bbox_rome); Ex.record 102 None;
           Ex.record 2 (Some Ex.bbox_manchester)])
  /\ total_entries
       [("2024-03-11",
         [Rest.entry_of (Ex.record 1 (Some Ex.bbox_rome))
                        (Rest.bbox_center Ex.bbox_rome);
          Rest.entry_of (Ex.record 2 (Some Ex.bbox_manchester))
                        (Rest.bbox_center Ex.bbox_manchester)])]
     = 2%nat.
Proof.
  destruct (weekly_buckets_hold_their_week Lib.fromisoformat
              [Ex.record 1 (Some Ex.bbox_rome); Ex.record 102 None;
               Ex.record 2 (Some Ex.bbox_manchester)]
              [("2024-03-11",
                [Rest.entry_of (Ex.record 1 (Some Ex.bbox_rome))
                               (Rest.bbox_center Ex.bbox_rome);
                 Rest.entry_of (Ex.record 2 (Some Ex.bbox_manchester))
                               (Rest.bbox_center Ex.bbox_manchester)])]
              eq_refl) as (H1 & _ & H3).
  exact (conj H1 H3).
Defined.

Lemma monthly_fold_contents (css : list Duck.changeset) :
  forall (acc : Duck.monthly),
    let w := fold_left
               (fun monthly_data cs =>
                  Duck.bucket_append monthly_data
                    (Duck.month_key (Duck.created_at cs)) cs) css acc in
    (forall k,
        bucket_of w k
        = (bucket_of acc k
           ++ filter (fun cs =>
                        String.eqb (Duck.month_key (Duck.created_at cs)) k)
                     css)%list)
    /\ total_entries w = (total_entries acc + length css)%nat
    /\ ((forall k b, In (k, b) acc -> b <> []) ->
        forall k b, In (k, b) w -> b <> []).
Proof.
  induction css as [|cs css IH]; intros acc; cbn [fold_left].
  - split; [|split].
    + intros k. simpl. now rewrite app_nil_r.
    + simpl. lia.
    + auto.
  - destruct (IH (Duck.bucket_append acc
                    (Duck.month_key (Duck.created_at cs)) cs))
      as (H1 & H2 & H3).
    split; [|split].
    + intros k. rewrite H1, duck_bucket_of_append. cbn [filter].
      destruct (String.eqb (Duck.month_key (Duck.created_at cs)) k) eqn:E.
      * apply String.eqb_eq in E. rewrite E. now rewrite <- app_assoc.
      * reflexivity.
    + rewrite H2, duck_total_entries_append. simpl. lia.
    + intros Hacc. apply H3. now apply duck_append_nonempty.
Qed.

(** X6.  The monthly aggregation of the bulk fetcher holds, under each month
    key, exactly the records whose ['created_at'] starts with that month, in
    the order of the records; no bucket is empty, and the buckets together
    hold every record once. *)
Theorem monthly_buckets_hold_their_month (changesets : list Duck.changeset) :
  (forall k,
      bucket_of (Duck.monthly_loop changesets) k
      = filter (fun cs => String.eqb (Duck.month_key (Duck.created_at cs)) k)
               changesets)
  /\ (forall k b, In (k, b) (Duck.monthly_loop changesets) -> b <> [])
  /\ total_entries (Duck.monthly_loop changesets) = length changesets.
Proof.
  unfold Duck.monthly_loop.
  destruct (monthly_fold_contents changesets []) as (H1 & H2 & H3).
  split; [exact H1|]. split; [|exact H2].
  apply H3. intros k b [].
Qed.

(** ** Dates and their text *)

Lemma digit_inj (a b : Z) :
  Calendar.digit a = Calendar.digit b -> a mod 10 = b mod 10.
Proof.
  unfold Calendar.digit. intros H.
  apply (f_equal nat_of_ascii) in H.
  assert (Ha : 0 <= a mod 10 < 10) by (apply Z.mod_pos_bound; lia).
  assert (Hb : 0 <= b mod 10 < 10) by (apply Z.mod_pos_bound; lia).
  rewrite !nat_ascii_embedding in H by lia. lia.
Qed.

Lemma pad2_inj (n n' : Z) (s s' : string) :
  0 <= n < 100 -> 0 <= n' < 100 ->
  (Calendar.pad2 n ++ s)%string = (Calendar.pad2 n' ++ s')%string ->
  n = n' /\ s = s'.
Proof.
  intros Hn Hn' H. unfold Calendar.pad2 in H. simpl in H.
  injection H as H1 H2 H3. apply digit_inj in H1, H2.
  split; [|exact H3]. Z.div_mod_to_equations. lia.
Qed.

Lemma pad4_inj (n n' : Z) (s s' : string) :
  0 <= n < 10000 -> 0 <= n' < 10000 ->
  (Calendar.pad4 n ++ s)%string = (Calendar.pad4 n' ++ s')%string ->
  n = n' /\ s = s'.
Proof.
  intros Hn Hn' H. unfold Calendar.pad4, Calendar.pad2 in H. simpl in H.
  injection H as H1 H2 H3 H4 H5. apply digit_inj in H1, H2, H3, H4.
  split; [|exact H5]. Z.div_mod_to_equations. lia.
Qed.

Lemma valid_date_bounds (y m d : Z) :
  Calendar.valid_date y m d = true ->
  0 <= y < 10000 /\ 0 <= m < 100 /\ 0 <= d < 100.
Proof.
  intros H. apply valid_date_inv in H. destruct H as (Hy & Hm & Hd).
  unfold Calendar.MAXYEAR in Hy. split; [lia|]. split; [lia|].
  pose proof (day_of_year_bound y m d Hm Hd) as Hb.
  unfold Calendar.days_in_month in Hd.
  destruct ((m =? 2) && Calendar.is_leap y); [lia|].
  destruct (month_cases m Hm)
    as [->|[->|[->|[->|[->|[->|[->|[->|[->|[->|[->| ->]]]]]]]]]]];
    cbv [Calendar.DAYS_IN_MONTH] in Hd; lia.
Qed.

Lemma string_cons_inj (c : ascii) (s s' : string) :
  String c s = String c s' -> s = s'.
Proof. now intros [= ->]. Qed.

(** The text of a date names one date only. *)
Lemma format_date_inj (y m d y' m' d' : Z) :
  Calendar.valid_date y m d = true -> Calendar.valid_date y' m' d' = true ->
  Calendar.format_date y m d = Calendar.format_date y' m' d' ->
  y = y' /\ m = m' /\ d = d'.
Proof.
  intros Hv Hv' H.
  destruct (valid_date_bounds _ _ _ Hv) as (Hy & Hm & Hd).
  destruct (valid_date_bounds _ _ _ Hv') as (Hy' & Hm' & Hd').
  unfold Calendar.format_date in H.
  apply pad4_inj in H; [|assumption..]. destruct H as [-> H].
  cbn [append] in H. apply string_cons_inj in H.
  apply pad2_inj in H; [|assumption..]. destruct H as [-> H].
  apply string_cons_inj in H.
  assert (H' : (Calendar.pad2 d ++ "")%string = (Calendar.pad2 d' ++ "")%string)
    by (unfold Calendar.pad2 in *; simpl; exact H).
  apply pad2_inj in H'; [|assumption..]. tauto.
Qed.

Lemma days_before_year_next (y : Z) :
  1 <= y ->
  Calendar.days_before_year (y + 1)
  = Calendar.days_before_year y + 365
    + (if Calendar.is_leap y then 1 else 0).
Proof.
  intros Hy. unfold Calendar.days_before_year, Calendar.is_leap. cbv zeta.
  replace (y + 1 - 1) with y by lia.
  destruct (y mod 4 =? 0) eqn:E4; destruct (y mod 100 =? 0) eqn:E100;
    destruct (y mod 400 =? 0) eqn:E400; cbn [andb orb negb];
    repeat match goal with
           | H : (_ =? _) = true |- _ => apply Z.eqb_eq in H
           | H : (_ =? _) = false |- _ => apply Z.eqb_neq in H
           end; Z.div_mod_to_equations; lia.
Qed.

Lemma days_before_year_mono (y y' : Z) :
  1 <= y <= y' ->
  Calendar.days_before_year y <= Calendar.days_before_year y'.
Proof.
  intros H. unfold Calendar.days_before_year. cbv zeta.
  Z.div_mod_to_equations. lia.
Qed.

Lemma ymd2ord_year_lt (y m d y' m' d' : Z) :
  Calendar.valid_date y m d = true -> Calendar.valid_date y' m' d' = true ->
  y < y' -> Calendar.ymd2ord y m d < Calendar.ymd2ord y' m' d'.
Proof.
  intros Hv Hv' Hlt.
  apply valid_date_inv in Hv. destruct Hv as (Hy & Hm & Hd).
  apply valid_date_inv in Hv'. destruct Hv' as (Hy' & Hm' & Hd').
  pose proof (day_of_year_bound y m d Hm Hd) as H1.
  pose proof (day_of_year_bound y' m' d' Hm' Hd') as H2.
  pose proof (days_before_year_next y ltac:(lia)) as Hn.
  pose proof (days_before_year_mono (y + 1) y' ltac:(lia)) as Hmono.
  unfold Calendar.ymd2ord. lia.
Qed.

Lemma day_of_year_inj (y m d m' d' : Z) :
  1 <= m <= 12 -> 1 <= d <= Calendar.days_in_month y m ->
  1 <= m' <= 12 -> 1 <= d' <= Calendar.days_in_month y m' ->
  Calendar.days_before_month y m + d = Calendar.days_before_month y m' + d' ->
  m = m' /\ d = d'.
Proof.
  intros Hm Hd Hm' Hd'.
  unfold Calendar.days_in_month in Hd, Hd'. unfold Calendar.days_before_month.
  destruct (Calendar.is_leap y);
    destruct (month_cases m Hm)
      as [->|[->|[->|[->|[->|[->|[->|[->|[->|[->|[->| ->]]]]]]]]]]];
    destruct (month_cases m' Hm')
      as [->|[->|[->|[->|[->|[->|[->|[->|[->|[->|[->| ->]]]]]]]]]]];
    cbv [Calendar.DAYS_IN_MONTH Calendar.DAYS_BEFORE_MONTH Z.eqb Z.ltb
         Z.compare Pos.compare Pos.compare_cont Pos.eqb andb] in Hd, Hd' |- *;
    lia.
Qed.

(** A date has one ordinal, and an ordinal one date. *)
Lemma ymd2ord_inj (y m d y' m' d' : Z) :
  Calendar.valid_date y m d = true -> Calendar.valid_date y' m' d' = true ->
  Calendar.ymd2ord y m d = Calendar.ymd2ord y' m' d' ->
  y = y' /\ m = m' /\ d = d'.
Proof.
  intros Hv Hv' H.
  destruct (Z.lt_trichotomy y y') as [Hlt|[->|Hgt]].
  - pose proof (ymd2ord_year_lt _ _ _ _ _ _ Hv Hv' Hlt). lia.
  - split; [reflexivity|].
    apply valid_date_inv in Hv. destruct Hv as (Hy & Hm & Hd).
    apply valid_date_inv in Hv'. destruct Hv' as (Hy' & Hm' & Hd').
    apply (day_of_year_inj y'); auto. unfold Calendar.ymd2ord in H. lia.
  - pose proof (ymd2ord_year_lt _ _ _ _ _ _ Hv' Hv Hgt). lia.
Qed.

Lemma ord2ymd_ymd2ord (y m d : Z) :
  Calendar.valid_date y m d = true ->
  Calendar.ord2ymd (Calendar.ymd2ord y m d) = (y, m, d).
Proof.
  intros Hv. pose proof (ymd2ord_range y m d Hv) as Hr.
  pose proof (ord2ymd_sound _ Hr) as Hs.
  destruct (Calendar.ord2ymd (Calendar.ymd2ord y m d)) as [[y' m'] d'].
  destruct Hs as [Hv' Ho].
  destruct (ymd2ord_inj _ _ _ _ _ _ Hv' Hv Ho) as (-> & -> & ->).
  reflexivity.
Qed.

(** ** Weeks *)

Lemma return_inj {A : Type} (a b : A) : Return a = Return b -> a = b.
Proof. now intros [= ->]. Qed.

Lemma week_key_value (fromisoformat : string -> option (Z * Z * Z))
      (ts : string) (y m d : Z) :
  fromisoformat (Rest.replace_Z ts) = Some (y, m, d) ->
  Calendar.valid_date y m d = true ->
  exists y' m' d',
    Rest.week_key fromisoformat (Some ts)
    = Return (Calendar.format_date y' m' d')
    /\ Calendar.valid_date y' m' d' = true
    /\ Calendar.ymd2ord y' m' d'
       = Calendar.ymd2ord y m d - (Calendar.ymd2ord y m d + 6) mod 7.
Proof.
  intros Hp Hv.
  destruct (monday_of_week y m d Hv) as (y' & m' & d' & Hsub & Hv' & _ & _).
  exists y', m', d'. unfold Rest.week_key. rewrite Hp, Hsub.
  split; [reflexivity|]. split; [exact Hv'|].
  unfold Calendar.sub_days, Calendar.weekday in Hsub.
  destruct ((1 <=? _) && (_ <=? _)) eqn:E; [|discriminate].
  injection Hsub as Hsub.
  apply andb_true_iff in E. rewrite !Z.leb_le in E.
  pose proof (ord2ymd_sound _ E) as Hs. rewrite Hsub in Hs. tauto.
Qed.

(** X7.  Two timestamps get the same week key exactly when their dates lie
    in the same week from Monday to Sunday (day 1 of the calendar being a
    Monday, that is when their ordinals plus six agree after division by
    seven). *)
Theorem same_week_same_key
        (fromisoformat : string -> option (Z * Z * Z))
        (ts1 ts2 : string) (y1 m1 d1 y2 m2 d2 : Z) :
  fromisoformat (Rest.replace_Z ts1) = Some (y1, m1, d1) ->
  Calendar.valid_date y1 m1 d1 = true ->
  fromisoformat (Rest.replace_Z ts2) = Some (y2, m2, d2) ->
  Calendar.valid_date y2 m2 d2 = true ->
  (Rest.week_key fromisoformat (Some ts1)
   = Rest.week_key fromisoformat (Some ts2)
   <-> (Calendar.ymd2ord y1 m1 d1 + 6) / 7
       = (Calendar.ymd2ord y2 m2 d2 + 6) / 7).
Proof.
  intros Hp1 Hv1 Hp2 Hv2.
  destruct (week_key_value _ _ _ _ _ Hp1 Hv1) as (a1 & b1 & c1 & K1 & V1 & O1).
  destruct (week_key_value _ _ _ _ _ Hp2 Hv2) as (a2 & b2 & c2 & K2 & V2 & O2).
  rewrite K1, K2. split.
  - intros H. apply return_inj in H. apply format_date_inj in H; auto.
    destruct H as (-> & -> & ->). rewrite O1 in O2.
    Z.div_mod_to_equations. lia.
  - intros H.
    assert (Ho : Calendar.ymd2ord a1 b1 c1 = Calendar.ymd2ord a2 b2 c2)
      by (rewrite O1, O2; Z.div_mod_to_equations; lia).
    apply ymd2ord_inj in Ho; auto. destruct Ho as (-> & -> & ->).
    reflexivity.
Qed.

Lemma same_week_same_key_witness :
  Rest.week_key Lib.fromisoformat (Some "2024-03-11T00:00:00Z")
  = Rest.week_key Lib.fromisoformat (Some "2024-03-17T23:59:59Z")
  <-> (Calendar.ymd2ord 2024 3 11 + 6) / 7
      = (Calendar.ymd2ord 2024 3 17 + 6) / 7.
Proof.
  apply (same_week_same_key Lib.fromisoformat
           "2024-03-11T00:00:00Z" "2024-03-17T23:59:59Z"
           2024 3 11 2024 3 17); reflexivity.
Defined.

(** X8.  The week key of a timestamp whose date is a Monday of the year
    1000 or later (so that [%Y] gives four digits) is that date itself. *)
Theorem monday_is_its_own_week_start
        (fromisoformat : string -> option (Z * Z * Z))
        (ts : string) (y m d : Z) :
  fromisoformat (Rest.replace_Z ts) = Some (y, m, d) ->
  Calendar.valid_date y m d = true ->
  1000 <= y ->
  Calendar.weekday y m d = 0 ->
  Rest.week_key fromisoformat (Some ts)
  = Return (Calendar.format_date y m d).
Proof.
  intros Hp Hv _ Hw. unfold Rest.week_key. rewrite Hp.
  unfold Calendar.sub_days. rewrite Hw, Z.sub_0_r.
  pose proof (ymd2ord_range y m d Hv) as Hr.
  replace ((1 <=? Calendar.ymd2ord y m d)
           && (Calendar.ymd2ord y m d <=? Calendar.MAXORDINAL)) with true
    by (symmetry; apply andb_true_iff; rewrite !Z.leb_le; lia).
  now rewrite ord2ymd_ymd2ord.
Qed.

Lemma monday_is_its_own_week_start_witness :
  Rest.week_key Lib.fromisoformat (Some "2024-03-11T09:15:00Z")
  = Return (Calendar.format_date 2024 3 11).
Proof.
  apply (monday_is_its_own_week_start Lib.fromisoformat
           "2024-03-11T09:15:00Z" 2024 3 11); try reflexivity. lia.
Defined.

(** ** Runs that end in an exception *)

Section AbortFacts.
Variable py_int : string -> option Z.
Variable py_float : string -> option Q.
Variable fromisoformat : string -> option (Z * Z * Z).



Lemma week_key_settled (created : option string) :
  Rest.week_key fromisoformat created <> Blocked.
Proof.
  unfold Rest.week_key. destruct created as [s|]; [|discriminate].
  destruct (fromisoformat (Rest.replace_Z s)) as [[[y m] d]|];
    [|discriminate].
  destruct (Calendar.sub_days y m d (Calendar.weekday y m d))
    as [[[y' m'] d']|]; discriminate.
Qed.

Lemma weekly_loop_raise (css : list Rest.changeset) (cs : Rest.changeset)
      (c : Rest.Point) :
  In cs css -> Rest.center cs = Some c ->
  Rest.week_key fromisoformat (Rest.created_at cs) = Raise ->
  forall acc, Rest.weekly_loop fromisoformat acc css = Raise.
Proof.
  intros Hin Hc Hk. induction css as [|x css IH]; [contradiction|].
  intros acc. cbn [Rest.weekly_loop]. destruct Hin as [->|Hin].
  - now rewrite Hc, Hk.
  - destruct (Rest.center x); [|now apply IH].
    pose proof (week_key_settled (Rest.created_at x)) as Hx.
    destruct (Rest.week_key fromisoformat (Rest.created_at x)); cbn [bind];
      [now apply IH|reflexivity|contradiction].
Qed.

End AbortFacts.



(** X10.  When the week key of a changeset that has a centroid cannot be
    derived (a ['created_at'] that is missing or that [fromisoformat]
    rejects), the run ends with the exception after [changesets.json] was
    written and before the two other files are. *)
Theorem bad_timestamp_leaves_only_raw_file
        (py_int : string -> option Z) (py_float : string -> option Q)
        (fromisoformat : string -> option (Z * Z * Z))
        (users : list string) (responses : list Rest.response)
        (fetched_all all_changesets : list Rest.changeset)
        (cs : Rest.changeset) (c : Rest.Point) :
  Rest.result (Rest.fetch_users py_int py_float users [] responses)
  = Return fetched_all ->
  Rest.sort_by_created_at fetched_all = Return all_changesets ->
  In cs all_changesets ->
  Rest.center cs = Some c ->
  Rest.week_key fromisoformat (Rest.created_at cs) = Raise ->
  Rest.status (Rest.main_with py_int py_float fromisoformat users responses)
  = Raise
  /\ Rest.written
       (Rest.main_with py_int py_float fromisoformat users responses)
     = [("changesets.json",
         Py.VList (map Rest.changeset_value all_changesets))].
Proof.
  intros Hf Hs Hin Hc Hk. unfold Rest.main_with. rewrite Hf, Hs.
  rewrite (weekly_loop_raise fromisoformat all_changesets cs c Hin Hc Hk).
  cbn [Rest.status Rest.written]. auto.
Qed.

Lemma bad_timestamp_leaves_only_raw_file_witness :
  Rest.status (Rest.main_with Lib.py_int Lib.py_float Lib.fromisoformat
                 ["mmann1123"]
                 [Rest.Document (Ex.osm [Ex.elem_bad_stamp])])
  = Raise
  /\ Rest.written (Rest.main_with Lib.py_int Lib.py_float Lib.fromisoformat
                     ["mmann1123"]
                     [Rest.Document (Ex.osm [Ex.elem_bad_stamp])])
     = [("changesets.json",
         Py.VList (map Rest.changeset_value [Ex.record_bad_stamp]))].
Proof.
  apply (bad_timestamp_leaves_only_raw_file
           Lib.py_int Lib.py_float Lib.fromisoformat ["mmann1123"]
           [Rest.Document (Ex.osm [Ex.elem_bad_stamp])]
           [Ex.record_bad_stamp] [Ex.record_bad_stamp]
           Ex.record_bad_stamp (Rest.bbox_center Ex.bbox_rome)).
  - reflexivity.
  - reflexivity.
  - simpl. auto.
  - reflexivity.
  - reflexivity.
Defined.

(** ** Tags and comments *)

Section LastWins.
Context {A K V : Type}.
Variable eqb : K -> K -> bool.
Hypothesis eqb_eq : forall a b, eqb a b = true <-> a = b.
Variable key : A -> K.
Variable val : A -> V.

Lemma find_app_last (f : A -> bool) (l : list A) (x : A) :
  find f (l ++ [x])
  = match find f l with
    | Some y => Some y
    | None => if f x then Some x else None
    end.
Proof.
  induction l as [|y l IH]; simpl; [reflexivity|].
  destruct (f y); [reflexivity|exact IH].
Qed.

(** Filling a dict from a sequence: a key ends up with the value that came
    last for it. *)
Lemma dict_fill_get (l : list A) :
  forall (acc : list (K * V)) (k : K),
    Dict.get eqb
      (fold_left (fun d x => Dict.set eqb d (key x) (val x)) l acc) k
    = match find (fun x => eqb (key x) k) (rev l) with
      | Some x => Some (val x)
      | None => Dict.get eqb acc k
      end.
Proof.
  induction l as [|x l IH]; intros acc k; simpl; [reflexivity|].
  rewrite IH, find_app_last.
  destruct (find (fun x0 => eqb (key x0) k) (rev l)); [reflexivity|].
  destruct (eqb (key x) k) eqn:E.
  - apply eqb_eq in E. subst k.
    apply (dict_get_set_same eqb eqb_eq).
  - apply (dict_get_set_other eqb eqb_eq). intros H.
    apply eqb_eq in H. congruence.
Qed.

End LastWins.

Lemma parse_tags_fold_keeps (l : list Xml.element) :
  forall (acc : list (option string * option string)) (k : option string),
    In k (map fst acc) ->
    In k (map fst (fold_left
                     (fun tags tag =>
                        Dict.set Dict.okey_eqb tags (Xml.get tag "k")
                                 (Xml.get tag "v")) l acc)).
Proof.
  induction l as [|y l IH]; intros acc k Hk; simpl; [exact Hk|].
  apply IH. apply (dict_set_keys Dict.okey_eqb okey_eqb_eq). now right.
Qed.

Lemma parse_tags_get (e : Xml.element) (k : option string) :
  Dict.get Dict.okey_eqb (Rest.parse_tags e) k
  = option_map (fun tag => Xml.get tag "v") (last_tag e k).
Proof.
  unfold Rest.parse_tags, last_tag.
  rewrite (dict_fill_get Dict.okey_eqb okey_eqb_eq
             (fun tag => Xml.get tag "k") (fun tag => Xml.get tag "v")).
  destruct (find _ _); reflexivity.
Qed.

(** X11.  When an element repeats a tag key, the record keeps the value of
    the last [<tag>] with that key.  The comment that goes into the weekly
    entry is the value of the last [comment] tag, [None] when that tag has
    no [v], and the empty string when the element has no [comment] tag. *)
Theorem last_tag_wins
        (py_int : string -> option Z) (py_float : string -> option Q)
        (e : Xml.element) (cs : Rest.changeset) :
  Rest.parse_changeset py_int py_float e = Return cs ->
  (forall k t, Rest.tags cs = Some t ->
      Dict.get Dict.okey_eqb t k
      = option_map (fun tag => Xml.get tag "v") (last_tag e k))
  /\ (Rest.tags cs = None <-> Xml.findall e "tag" = [])
  /\ Rest.get_comment cs
     = match last_tag e (Some "comment") with
       | Some tag => Xml.get tag "v"
       | None => Some ""
       end.
Proof.
  intros H. destruct (parse_changeset_fields _ _ _ _ H) as (_ & Ht & _).
  assert (Hnil : Rest.parse_tags e = [] <-> Xml.findall e "tag" = []).
  { unfold Rest.parse_tags. destruct (Xml.findall e "tag") as [|x l]; simpl.
    - tauto.
    - split; [|discriminate]. intros Hf. exfalso.
      pose proof (parse_tags_fold_keeps l [(Xml.get x "k", Xml.get x "v")]
                    (Xml.get x "k") (or_introl eq_refl)) as Hin.
      rewrite Hf in Hin. exact Hin. }
  split; [|split].
  - intros k t Hcs. rewrite Ht in Hcs.
    destruct (Rest.parse_tags e) as [|p t'] eqn:Et; [discriminate|].
    injection Hcs as <-. rewrite <- Et. apply parse_tags_get.
  - rewrite Ht. destruct (Rest.parse_tags e) as [|p t'] eqn:Et.
    + split; [intros _; now apply Hnil|reflexivity].
    + split; [discriminate|]. intros Hf. apply Hnil in Hf. discriminate.
  - unfold Rest.get_comment. rewrite Ht.
    pose proof (parse_tags_get e (Some "comment")) as Hg.
    destruct (Rest.parse_tags e) as [|p t'] eqn:Et.
    + simpl in Hg. destruct (last_tag e (Some "comment")); [discriminate|].
      reflexivity.
    + rewrite Hg. destruct (last_tag e (Some "comment")); reflexivity.
Qed.

Lemma last_tag_wins_witness :
  Rest.get_comment
    {| Rest.cs_id := 8; Rest.user := None; Rest.uid := 7;
       Rest.created_at := None; Rest.closed_at := None;
       Rest.cs_open := false; Rest.changes_count := 0;
       Rest.comments_count := 0; Rest.bbox := None; Rest.center := None;
       Rest.tags := Some [(Some "comment", Some "second");
                          (Some "source", None)];
       Rest.city := None |}
  = match last_tag Ex.elem_two_comments (Some "comment") with
    | Some tag => Xml.get tag "v"
    | None => Some ""
    end.
Proof.
  apply (last_tag_wins Lib.py_int Lib.py_float Ex.elem_two_comments).
  reflexivity.
Defined.

(** ** Which city a point gets *)

Ltac scan_boxes Hpoint :=
  repeat (rewrite classify_in_cons;
          match goal with
          | |- context [Geo.in_box ?b ?x ?y] =>
              let E := fresh "E" in
              destruct (Geo.in_box b x y) eqn:E;
              [ try reflexivity; exfalso; apply in_box_spec in E;
                unfold Geo.In_box in E, Hpoint; lra
              | ]
          end).

Lemma rest_boxes_do_not_overlap (name : string) (box : Geo.city_box)
      (lon lat : Q) :
  In (name, box) Rest.CITIES -> Geo.In_box box lon lat ->
  Rest.classify_in Rest.CITIES lon lat = name.
Proof.
  intros Hin Hpoint. pose proof (in_box_true_intro _ _ _ Hpoint) as Hb.
  unfold Rest.CITIES in *. simpl in Hin.
  destruct Hin as [H|[H|[H|[H|[H|[H|[H|[H|[]]]]]]]]];
    injection H as <- <-; scan_boxes Hpoint; try reflexivity; congruence.
Qed.

Lemma classify_in_label (cities : Geo.city_table) (lon lat : Q) :
  Rest.classify_in cities lon lat = "Other"
  \/ exists box,
      In (Rest.classify_in cities lon lat, box) cities
      /\ Geo.In_box box lon lat.
Proof.
  induction cities as [|[n b] cities IH]; simpl; [now left|].
  destruct (Geo.in_box b lon lat) eqn:E.
  - right. exists b. split; [now left|now apply in_box_spec].
  - destruct IH as [IH|(box & Hin & Hbox)]; [now left|].
    right. exists box. auto.
Qed.

(** X12.  The boxes of the REST fetcher's table do not overlap: a centroid
    inside the box of a city is labelled with that city, whatever the order
    of the table, and a label other than ['Other'] names a city of the
    table whose box holds the centroid. *)
Theorem rest_label_is_the_city_of_the_box
        (cs : Rest.changeset) (c : Rest.Point) :
  Rest.center cs = Some c ->
  (forall name box,
      In (name, box) Rest.CITIES ->
      Geo.In_box box (Rest.lon c) (Rest.lat c) ->
      Rest.classify_changeset_location cs = Some name)
  /\ (Rest.classify_changeset_location cs = Some "Other"
      \/ exists name box,
          Rest.classify_changeset_location cs = Some name
          /\ In (name, box) Rest.CITIES
          /\ Geo.In_box box (Rest.lon c) (Rest.lat c)).
Proof.
  intros Hc. unfold Rest.classify_changeset_location. rewrite Hc. split.
  - intros name box Hin Hbox. f_equal.
    now apply rest_boxes_do_not_overlap with box.
  - destruct (classify_in_label Rest.CITIES (Rest.lon c) (Rest.lat c))
      as [H|(box & Hin & Hbox)].
    + left. now rewrite H.
    + right. eauto.
Qed.

Lemma rest_label_is_the_city_of_the_box_witness :
  Rest.classify_changeset_location (Ex.record 101 (Some Ex.bbox_manchester))
  = Some "Manchester, UK".
Proof.
  apply (proj1 (rest_label_is_the_city_of_the_box
                  (Ex.record 101 (Some Ex.bbox_manchester))
                  (Rest.bbox_center Ex.bbox_manchester) eq_refl)
               "Manchester, UK" (-2.35, 53.35, -2.15, 53.55)%Q).
  - simpl. auto.
  - apply in_box_spec. reflexivity.
Defined.

(** X13.  In the bulk fetcher's table only the boxes of Scottsdale and
    Phoenix overlap: a centroid inside the box of a city is labelled with
    that city, except that a centroid inside both is labelled
    ['Scottsdale, AZ'], which the table lists first. *)
Theorem bulk_label_is_the_city_of_the_box
        (name : string) (box : Geo.city_box) (center_lon center_lat : Q) :
  In (name, box) Duck.CITIES ->
  Geo.In_box box center_lon center_lat ->
  Duck.classify (Duck.Num center_lon) (Duck.Num center_lat) = name
  \/ (name = "Phoenix, AZ"
      /\ Geo.In_box (-111.96, 33.40, -111.68, 33.85)%Q center_lon center_lat
      /\ Duck.classify (Duck.Num center_lon) (Duck.Num center_lat)
         = "Scottsdale, AZ").
Proof.
  intros Hin Hpoint. pose proof (in_box_true_intro _ _ _ Hpoint) as Hb.
  unfold Duck.classify. rewrite city_scan_classify_in.
  unfold Duck.CITIES in *. simpl in Hin.
  destruct Hin as [H|[H|[H|[H|[H|[H|[]]]]]]]; injection H as <- <-.
  1-5: left; scan_boxes Hpoint; try reflexivity; congruence.
  rewrite classify_in_cons.
  destruct (Geo.in_box (12.23, 41.65, 12.85, 42.10)%Q center_lon center_lat)
    eqn:E1.
  { exfalso. apply in_box_spec in E1. unfold Geo.In_box in E1, Hpoint. lra. }
  rewrite classify_in_cons.
  destruct (Geo.in_box (-111.96, 33.40, -111.68, 33.85)%Q
                       center_lon center_lat) eqn:E2.
  - right. split; [reflexivity|]. split; [now apply in_box_spec|reflexivity].
  - left. scan_boxes Hpoint; try reflexivity; congruence.
Qed.

Lemma bulk_label_is_the_city_of_the_box_witness :
  Duck.classify (Duck.Num (-111.93)%Q) (Duck.Num 33.5%Q) = "Phoenix, AZ"
  \/ ("Phoenix, AZ" = "Phoenix, AZ"
      /\ Geo.In_box (-111.96, 33.40, -111.68, 33.85)%Q (-111.93)%Q 33.5%Q
      /\ Duck.classify (Duck.Num (-111.93)%Q) (Duck.Num 33.5%Q)
         = "Scottsdale, AZ").
Proof.
  apply (bulk_label_is_the_city_of_the_box
           "Phoenix, AZ" (-112.35, 33.27, -111.90, 33.70)%Q).
  - simpl. auto 8.
  - apply in_box_spec. reflexivity.
Defined.

(** ** The rows of the bulk query *)

Lemma process_row_settled (r : Duck.row) : Duck.process_row r <> Blocked.
Proof.
  unfold Duck.process_row.
  destruct (Duck.is_not_None (Duck.r_min_lon r)
            && Duck.is_not_None (Duck.r_min_lat r)); [|discriminate].
  destruct (Duck.r_min_lon r), (Duck.r_max_lon r);
    cbn [Duck.center_of bind]; try discriminate;
    destruct (Duck.r_min_lat r), (Duck.r_max_lat r);
    cbn [Duck.center_of bind]; try discriminate;
    destruct (Duck.r_num_changes r); cbn [Duck.changes_of bind];
    discriminate.
Qed.

Lemma comment_of_last (pairs : list (string * string)) :
  Duck.comment_of (Some pairs)
  = match last_value pairs "comment" with
    | Some v => v
    | None => ""
    end.
Proof.
  unfold Duck.comment_of, Dict.of_pairs, last_value.
  rewrite (dict_fill_get String.eqb String.eqb_eq fst snd).
  destruct (find _ _); reflexivity.
Qed.

Lemma process_rows_raise (rows : list Duck.row) (r : Duck.row) :
  In r rows -> Duck.process_row r = Raise -> Duck.process_rows rows = Raise.
Proof.
  induction rows as [|x rows IH]; intros Hin Hr; [contradiction|].
  cbn [Duck.process_rows]. destruct Hin as [->|Hin].
  - now rewrite Hr.
  - pose proof (process_row_settled x) as Hx.
    destruct (Duck.process_row x); cbn [bind];
      [|reflexivity|contradiction].
    now rewrite (IH Hin Hr).
Qed.

(** X14.  When the loop over the DataFrame completes, it has made one
    record per row of the relation, in order, none skipped.  A record
    carries the identifiers and the change count of its row, as centroid
    the midpoints of the box, [NaN] where a coordinate is NULL, and as
    comment the value of the last [comment] tag, or the empty string when
    there is none or the tags are NULL. *)
Theorem bulk_records_follow_their_rows
        (relation : list Duck.sql_row) (changesets : list Duck.changeset) :
  Duck.process_rows (Duck.fetchdf relation) = Return changesets ->
  Forall2 (fun q cs =>
             Duck.cs_id cs = Duck.q_id q
             /\ Duck.uid cs = Duck.q_uid q
             /\ Duck.user cs = Duck.q_username q
             /\ Duck.lon cs
                = null_midpoint (Duck.q_min_lon q) (Duck.q_max_lon q)
             /\ Duck.lat cs
                = null_midpoint (Duck.q_min_lat q) (Duck.q_max_lat q)
             /\ Duck.q_num_changes q = Some (Duck.changes_count cs)
             /\ Duck.comment cs
                = match Duck.q_tags q with
                  | Some pairs =>
                      match last_value pairs "comment" with
                      | Some v => v
                      | None => ""
                      end
                  | None => ""
                  end)
          relation changesets.
Proof.
  revert changesets.
  induction relation as [|q relation IH];
    cbn [Duck.fetchdf map Duck.process_rows]; intros css H.
  - injection H as <-. constructor.
  - bind_inv H. bind_inv H. injection H as <-.
    rewrite process_row_fetchdf in Hv.
    destruct (Duck.q_num_changes q) as [n|] eqn:Hn; [|discriminate].
    injection Hv as <-. constructor; [|now apply IH].
    cbn [Duck.cs_id Duck.uid Duck.user Duck.lon Duck.lat
         Duck.changes_count Duck.comment].
    repeat (split; [reflexivity|]). split; [exact Hn|].
    destruct (Duck.q_tags q) as [pairs|]; [apply comment_of_last|].
    reflexivity.
Qed.

Lemma bulk_records_follow_their_rows_witness :
  Forall2 (fun q cs =>
             Duck.cs_id cs = Duck.q_id q
             /\ Duck.uid cs = Duck.q_uid q
             /\ Duck.user cs = Duck.q_username q
             /\ Duck.lon cs
                = null_midpoint (Duck.q_min_lon q) (Duck.q_max_lon q)
             /\ Duck.lat cs
                = null_midpoint (Duck.q_min_lat q) (Duck.q_max_lat q)
             /\ Duck.q_num_changes q = Some (Duck.changes_count cs)
             /\ Duck.comment cs
                = match Duck.q_tags q with
                  | Some pairs =>
                      match last_value pairs "comment" with
                      | Some v => v
                      | None => ""
                      end
                  | None => ""
                  end)
          [Ex.sql_row_no_box; Ex.sql_row_manchester]
          [Ex.duck_no_box; Ex.duck_manchester].
Proof.
  apply (bulk_records_follow_their_rows
           [Ex.sql_row_no_box; Ex.sql_row_manchester]
           [Ex.duck_no_box; Ex.duck_manchester]).
  reflexivity.
Defined.

(** X15.  A row whose [num_changes] is NULL raises at line 120 an exception
    nothing catches: the run of the bulk fetcher ends with it and writes no
    file. *)
Theorem null_change_count_aborts_the_bulk_run
        (relation : list Duck.sql_row) (q : Duck.sql_row) :
  In q relation ->
  Duck.q_num_changes q = None ->
  Duck.status (Duck.main (Duck.fetchdf relation)) = Raise
  /\ Duck.written (Duck.main (Duck.fetchdf relation)) = [].
Proof.
  intros Hin Hn.
  assert (Hr : Duck.process_row (Duck.fetchdf_row q) = Raise)
    by (now rewrite process_row_fetchdf, Hn).
  assert (Hin' : In (Duck.fetchdf_row q) (Duck.fetchdf relation))
    by (now apply in_map).
  unfold Duck.main.
  destruct (Duck.fetchdf relation) as [|x rows]; [contradiction|].
  rewrite (process_rows_raise _ _ Hin' Hr). auto.
Qed.

Lemma null_change_count_aborts_the_bulk_run_witness :
  Duck.status (Duck.main (Duck.fetchdf [Ex.sql_row_manchester;
                                        Ex.sql_row_no_count]))
  = Raise
  /\ Duck.written (Duck.main (Duck.fetchdf [Ex.sql_row_manchester;
                                            Ex.sql_row_no_count]))
     = [].
Proof.
  apply (null_change_count_aborts_the_bulk_run
           [Ex.sql_row_manchester; Ex.sql_row_no_count]
           Ex.sql_row_no_count).
  - simpl. auto.
  - reflexivity.
Defined.

(** ** Counting and ranking *)

Section CountFacts.
Context {A K : Type}.
Variable eqb : K -> K -> bool.
Hypothesis eqb_eq : forall a b, eqb a b = true <-> a = b.
Variable key : A -> K.

Lemma bump_get (counts : list (K * Z)) (k k' : K) :
  Dict.get eqb (Stats.bump eqb counts k) k'
  = if eqb k k'
    then Some (match Dict.get eqb counts k with
               | Some n => n + 1
               | None => 0 + 1
               end)
    else Dict.get eqb counts k'.
Proof.
  unfold Stats.bump. destruct (eqb k k') eqn:E.
  - apply eqb_eq in E. subst k'. apply (dict_get_set_same eqb eqb_eq).
  - apply (dict_get_set_other eqb eqb_eq). intros H.
    apply eqb_eq in H. congruence.
Qed.

Lemma total_set (counts : list (K * Z)) (k : K) (v : Z) :
  Stats.total (Dict.set eqb counts k v)
  + match Dict.get eqb counts k with Some n => n | None => 0 end
  = Stats.total counts + v.
Proof.
  induction counts as [|[k0 v0] counts IH]; simpl; [lia|].
  destruct (eqb k0 k); simpl; lia.
Qed.

Lemma total_bump (counts : list (K * Z)) (k : K) :
  Stats.total (Stats.bump eqb counts k) = Stats.total counts + 1.
Proof.
  unfold Stats.bump. pose proof (total_set counts k) as H.
  destruct (Dict.get eqb counts k) as [n|].
  - specialize (H (n + 1)). lia.
  - specialize (H (0 + 1)). lia.
Qed.

Lemma count_fold (l : list A) :
  forall (acc : list (K * Z)),
    let counts := fold_left (fun c x => Stats.bump eqb c (key x)) l acc in
    (forall k,
        Dict.get eqb counts k
        = match Dict.get eqb acc k with
          | Some m => Some (m + Stats.occurrences eqb key k l)
          | None => Stats.some_if_positive (Stats.occurrences eqb key k l)
          end)
    /\ Stats.total counts = Stats.total acc + Z.of_nat (length l)
    /\ (NoDup (map fst acc) -> NoDup (map fst counts)).
Proof.
  induction l as [|x l IH]; intros acc; cbn [fold_left].
  - split; [|split]; [|simpl; lia|auto].
    intros k. unfold Stats.occurrences. simpl.
    destruct (Dict.get eqb acc k); [f_equal; lia|reflexivity].
  - destruct (IH (Stats.bump eqb acc (key x))) as (H1 & H2 & H3).
    split; [|split].
    + intros k. rewrite H1, bump_get. unfold Stats.occurrences.
      cbn [filter]. destruct (eqb (key x) k) eqn:E.
      * apply eqb_eq in E. subst k. cbn [length].
        destruct (Dict.get eqb acc (key x)); [f_equal; lia|].
        unfold Stats.some_if_positive.
        destruct (Z.eqb_spec
                    (Z.of_nat (S (length (filter (fun x0 => eqb (key x0) (key x)) l))))
                    0) as [H0|H0]; [lia|f_equal; lia].
      * reflexivity.
    + rewrite H2, total_bump. cbn [length]. lia.
    + intros Hnd. apply H3. unfold Stats.bump.
      now apply (dict_set_NoDup eqb eqb_eq).
Qed.

Lemma occurrences_positive (k : K) (l : list A) :
  Stats.occurrences eqb key k l <> 0 <-> exists x, In x l /\ key x = k.
Proof.
  unfold Stats.occurrences. split.
  - intros H. destruct (filter (fun x => eqb (key x) k) l) as [|x f] eqn:E;
      [simpl in H; lia|].
    assert (Hin : In x (filter (fun x => eqb (key x) k) l))
      by (rewrite E; now left).
    apply filter_In in Hin. destruct Hin as [Hin Hk].
    exists x. split; [exact Hin|now apply eqb_eq].
  - intros (x & Hin & Hk).
    assert (Hf : In x (filter (fun x => eqb (key x) k) l))
      by (apply filter_In; split; [exact Hin|now apply eqb_eq]).
    destruct (filter (fun x => eqb (key x) k) l); [contradiction|].
    simpl. lia.
Qed.

(** What a counting loop leaves in its dict. *)
Lemma count_by_spec (l : list A) :
  (forall k,
      Dict.get eqb (Stats.count_by eqb key l) k
      = Stats.some_if_positive (Stats.occurrences eqb key k l))
  /\ Stats.total (Stats.count_by eqb key l) = Z.of_nat (length l)
  /\ NoDup (map fst (Stats.count_by eqb key l)).
Proof.
  unfold Stats.count_by. destruct (count_fold l []) as (H1 & H2 & H3).
  split; [exact H1|]. split; [exact H2|]. apply H3. constructor.
Qed.

Lemma dict_get_keys (counts : list (K * Z)) (k : K) :
  In k (map fst counts) <-> Dict.get eqb counts k <> None.
Proof.
  induction counts as [|[k0 v0] counts IH]; simpl; [tauto|].
  destruct (eqb k0 k) eqn:E.
  - apply eqb_eq in E. split; [discriminate|now left].
  - rewrite <- IH. split; [|tauto].
    intros [H|H]; [|exact H]. apply eqb_eq in H. congruence.
Qed.

(** The keys of the dict are the keys that occur. *)
Lemma count_by_keys (l : list A) (k : K) :
  In k (map fst (Stats.count_by eqb key l)) <-> In k (map key l).
Proof.
  rewrite dict_get_keys. destruct (count_by_spec l) as (H & _). rewrite H.
  assert (Hin : In k (map key l) <-> Stats.occurrences eqb key k l <> 0).
  { rewrite occurrences_positive, in_map_iff.
    split; intros (x & H1 & H2); exists x; tauto. }
  rewrite Hin. unfold Stats.some_if_positive.
  destruct (Z.eqb_spec (Stats.occurrences eqb key k l) 0) as [H0|H0].
  - split; [congruence|tauto].
  - split; [tauto|discriminate].
Qed.

End CountFacts.

(** X16.  The city counts of the REST summary and the user and city counts
    of the bulk summary hold, for every key, the number of records with
    that key, and no entry for a key no record has; each dict has every key
    once and its counts add up to the number of records. *)
Theorem summary_counts_are_exact
        (all_changesets : list Rest.changeset)
        (changesets : list Duck.changeset) :
  ((forall k,
       Dict.get Dict.okey_eqb (RestSummary.city_counts all_changesets) k
       = Stats.some_if_positive
           (Stats.occurrences Dict.okey_eqb RestSummary.city_or_unknown
                              k all_changesets))
   /\ Stats.total (RestSummary.city_counts all_changesets)
      = Z.of_nat (length all_changesets)
   /\ NoDup (map fst (RestSummary.city_counts all_changesets)))
  /\ ((forall k,
         Dict.get String.eqb (DuckSummary.user_counts changesets) k
         = Stats.some_if_positive
             (Stats.occurrences String.eqb Duck.user k changesets))
      /\ Stats.total (DuckSummary.user_counts changesets)
         = Z.of_nat (length changesets)
      /\ NoDup (map fst (DuckSummary.user_counts changesets)))
  /\ ((forall k,
         Dict.get String.eqb (DuckSummary.city_counts changesets) k
         = Stats.some_if_positive
             (Stats.occurrences String.eqb Duck.city k changesets))
      /\ Stats.total (DuckSummary.city_counts changesets)
         = Z.of_nat (length changesets)
      /\ NoDup (map fst (DuckSummary.city_counts changesets))).
Proof.
  split; [|split].
  - apply (count_by_spec Dict.okey_eqb okey_eqb_eq).
  - apply (count_by_spec String.eqb String.eqb_eq).
  - apply (count_by_spec String.eqb String.eqb_eq).
Qed.

Section RankFacts.
Context {K : Type}.

Lemma in_skipn (A : Type) (n : nat) (l : list A) (x : A) :
  In x (skipn n l) -> In x l.
Proof.
  intros H. rewrite <- (firstn_skipn n l). apply in_or_app. now right.
Qed.

Lemma in_firstn (A : Type) (n : nat) (l : list A) (x : A) :
  In x (firstn n l) -> In x l.
Proof.
  intros H. rewrite <- (firstn_skipn n l). apply in_or_app. now left.
Qed.

Lemma insert_ranked_Permutation (x : K * Z) (l : list (K * Z)) :
  Permutation (x :: l) (Stats.insert_ranked x l).
Proof.
  induction l as [|y l IH]; cbn [Stats.insert_ranked]; [reflexivity|].
  destruct (- snd x <=? - snd y); [reflexivity|].
  etransitivity; [apply perm_swap|]. now constructor.
Qed.

Lemma ranked_Permutation (items : list (K * Z)) :
  Permutation items (Stats.ranked items).
Proof.
  induction items as [|x items IH]; cbn [Stats.ranked]; [constructor|].
  etransitivity; [|apply insert_ranked_Permutation]. now constructor.
Qed.

Lemma insert_ranked_In (x y : K * Z) (l : list (K * Z)) :
  In y (Stats.insert_ranked x l) -> y = x \/ In y l.
Proof.
  intros H.
  apply (Permutation_in y (Permutation_sym (insert_ranked_Permutation x l))) in H.
  destruct H as [H|H]; [left; now symmetry|now right].
Qed.

Lemma insert_ranked_Sorted (x : K * Z) (l : list (K * Z)) :
  StronglySorted Stats.not_below l ->
  StronglySorted Stats.not_below (Stats.insert_ranked x l).
Proof.
  induction l as [|y l IH]; intros Hs; cbn [Stats.insert_ranked].
  - constructor; constructor.
  - inversion Hs as [|? ? Hl Hy]; subst.
    destruct (- snd x <=? - snd y) eqn:E.
    + apply Z.leb_le in E. constructor; [exact Hs|].
      constructor; [unfold Stats.not_below; lia|].
      rewrite Forall_forall in Hy |- *. intros z Hz.
      specialize (Hy z Hz). unfold Stats.not_below in *. lia.
    + apply Z.leb_gt in E. constructor; [now apply IH|].
      rewrite Forall_forall in Hy |- *. intros z Hz.
      apply insert_ranked_In in Hz. destruct Hz as [->|Hz].
      * unfold Stats.not_below. lia.
      * now apply Hy.
Qed.

Lemma ranked_Sorted (items : list (K * Z)) :
  StronglySorted Stats.not_below (Stats.ranked items).
Proof.
  induction items as [|x items IH]; cbn [Stats.ranked]; [constructor|].
  now apply insert_ranked_Sorted.
Qed.

Lemma insert_ranked_filter (n : Z) (x : K * Z) (l : list (K * Z)) :
  StronglySorted Stats.not_below l ->
  filter (fun kv => snd kv =? n) (Stats.insert_ranked x l)
  = filter (fun kv => snd kv =? n) (x :: l).
Proof.
  induction l as [|y l IH]; intros Hs; cbn [Stats.insert_ranked];
    [reflexivity|].
  inversion Hs as [|? ? Hl Hy]; subst.
  destruct (- snd x <=? - snd y) eqn:E; [reflexivity|].
  apply Z.leb_gt in E. cbn [filter]. specialize (IH Hl).
  cbn [filter] in IH. rewrite IH.
  destruct (Z.eqb_spec (snd y) n) as [Hyn|Hyn];
    destruct (Z.eqb_spec (snd x) n) as [Hxn|Hxn]; try reflexivity.
  lia.
Qed.

Lemma ranked_filter (n : Z) (items : list (K * Z)) :
  filter (fun kv => snd kv =? n) (Stats.ranked items)
  = filter (fun kv => snd kv =? n) items.
Proof.
  induction items as [|x items IH]; cbn [Stats.ranked]; [reflexivity|].
  rewrite insert_ranked_filter by apply ranked_Sorted.
  cbn [filter]. now rewrite IH.
Qed.

Lemma sorted_split (l : list (K * Z)) (n : nat) :
  StronglySorted Stats.not_below l ->
  forall kept left_out,
    In kept (firstn n l) -> In left_out (skipn n l) ->
    snd left_out <= snd kept.
Proof.
  intros Hs. revert n.
  induction Hs as [|a l Hl IH Ha]; intros n kept left_out Hk Ho.
  - destruct n; simpl in Hk; contradiction.
  - destruct n as [|n]; [simpl in Hk; contradiction|].
    cbn [firstn skipn] in Hk, Ho. destruct Hk as [<-|Hk].
    + rewrite Forall_forall in Ha.
      apply (Ha left_out). eapply in_skipn. exact Ho.
    + now apply (IH n).
Qed.

End RankFacts.

(** X17.  The ranking both summaries print is the count dict reordered:
    the same entries, larger counts first, entries with the same count in
    the order the dict holds them.  The top contributors are at most ten,
    and no user left out has more changesets than a user listed. *)
Theorem ranking_is_descending_and_stable
        (all_changesets : list Rest.changeset)
        (changesets : list Duck.changeset) :
  (Permutation (RestSummary.city_counts all_changesets)
               (RestSummary.cities_by_count all_changesets)
   /\ StronglySorted Stats.not_below (RestSummary.cities_by_count all_changesets)
   /\ forall n,
       filter (fun kv => snd kv =? n)
              (RestSummary.cities_by_count all_changesets)
       = filter (fun kv => snd kv =? n)
                (RestSummary.city_counts all_changesets))
  /\ (Permutation (DuckSummary.city_counts changesets)
                  (DuckSummary.cities_by_count changesets)
      /\ StronglySorted Stats.not_below (DuckSummary.cities_by_count changesets)
      /\ forall n,
          filter (fun kv => snd kv =? n)
                 (DuckSummary.cities_by_count changesets)
          = filter (fun kv => snd kv =? n)
                   (DuckSummary.city_counts changesets))
  /\ ((length (DuckSummary.top_contributors changesets) <= 10)%nat
      /\ (forall kv, In kv (DuckSummary.top_contributors changesets) ->
                     In kv (DuckSummary.user_counts changesets))
      /\ StronglySorted Stats.not_below (DuckSummary.top_contributors changesets)
      /\ forall kept left_out,
          In kept (DuckSummary.top_contributors changesets) ->
          In left_out (DuckSummary.user_counts changesets) ->
          ~ In left_out (DuckSummary.top_contributors changesets) ->
          snd left_out <= snd kept).
Proof.
  split; [|split].
  - split; [apply ranked_Permutation|].
    split; [apply ranked_Sorted|]. intros n. apply ranked_filter.
  - split; [apply ranked_Permutation|].
    split; [apply ranked_Sorted|]. intros n. apply ranked_filter.
  - unfold DuckSummary.top_contributors.
    set (r := Stats.ranked (DuckSummary.user_counts changesets)).
    assert (Hs : StronglySorted Stats.not_below r) by apply ranked_Sorted.
    assert (Hp : Permutation (DuckSummary.user_counts changesets) r)
      by apply ranked_Permutation.
    split; [apply firstn_le_length|]. split; [|split].
    + intros kv Hin. apply (Permutation_in kv (Permutation_sym Hp)).
      eapply in_firstn. exact Hin.
    + rewrite <- (firstn_skipn 10 r) in Hs.
      clear Hp. revert Hs. generalize (skipn 10 r) as tl.
      induction (firstn 10 r) as [|a f IH]; intros tl Hs; [constructor|].
      cbn [app] in Hs. inversion Hs as [|? ? Hl Ha]; subst.
      constructor; [now apply (IH tl)|].
      rewrite Forall_forall in Ha |- *. intros z Hz. apply Ha.
      apply in_or_app. now left.
    + intros kept left_out Hk Ho Hn.
      apply (sorted_split r 10 Hs kept left_out Hk).
      apply (Permutation_in left_out Hp) in Ho.
      rewrite <- (firstn_skipn 10 r) in Ho.
      apply in_app_or in Ho. destruct Ho as [Ho|Ho]; [contradiction|exact Ho].
Qed.

(** X18.  The number the bulk summary prints as users with data is the
    number of distinct user names among the records, and the count dict has
    an entry for a user exactly when a record carries that name. *)
Theorem users_with_data_are_distinct_users
        (changesets : list Duck.changeset) :
  DuckSummary.users_with_data changesets
  = length (nodup string_dec (map Duck.user changesets))
  /\ forall u,
      In u (map fst (DuckSummary.user_counts changesets))
      <-> exists cs, In cs changesets /\ Duck.user cs = u.
Proof.
  pose proof (count_by_keys String.eqb String.eqb_eq Duck.user changesets)
    as Hkeys.
  split.
  - unfold DuckSummary.users_with_data.
    rewrite <- (length_map fst (DuckSummary.user_counts changesets)).
    apply Permutation_length. apply NoDup_Permutation.
    + apply (count_by_spec String.eqb String.eqb_eq).
    + apply NoDup_nodup.
    + intros u. rewrite nodup_In. apply Hkeys.
  - intros u. unfold DuckSummary.user_counts. rewrite Hkeys, in_map_iff.
    split; intros (cs & H1 & H2); exists cs; tauto.
Qed.
